(** * Staged ingestion and annotation merge of the factories

    A shallow embedding of [ClinvarFactory], [GnomadFactory],
    [GnomadConstraintFactory] and of the gnomAD constraint reader, with the
    relational store, the task broker and the Python object memory as one
    explicit state threaded through a state-and-exception monad. *)

From stdpp Require Import gmap strings list fin_maps pretty.

Set Warnings "-register-all".
Open Scope string_scope.

(** ** JSON documents

    Metadata payloads and node documents are Python dicts holding
    JSON-serialisable values; two dicts are equal when they have the same
    keys with equal values, which is equality of [gmap]s. *)

Inductive json :=
  | JNull
  | JBool (b : bool)
  | JNum (z : Z)
  | JStr (s : string)
  | JArr (l : list json)
  | JObj (m : gmap string json).

Global Instance json_eq_dec : EqDecision json.
Proof.
  refine (fix go (x y : json) {struct x} : Decision (x = y) :=
    let _ : EqDecision json := @go in
    match x, y with
    | JNull, JNull => left _
    | JBool a, JBool b => cast_if (decide (a = b))
    | JNum a, JNum b => cast_if (decide (a = b))
    | JStr a, JStr b => cast_if (decide (a = b))
    | JArr a, JArr b => cast_if (decide (a = b))
    | JObj a, JObj b => cast_if (decide (a = b))
    | _, _ => right _
    end); abstract congruence.
Defined.

(** [str(self.pk)]: the decimal rendering of a primary key. *)
Definition str (pk : N) : string := pretty pk.

(** ** Exceptions *)

Inductive exn :=
  | DoesNotExist
  | MultipleObjectsReturned
  | IntegrityError
  | ValidationError
  | KeyError (key : string)
  | TypeError
  | ValueError
  | ReferenceError.

Global Instance exn_eq_dec : EqDecision exn.
Proof. solve_decision. Defined.

(** ** Rows of the relational store *)

Record Region := mkRegion {
  region_pk : N;
  region_assembly : string;
  region_seqid : string;
  region_factory : N;
  region_aliases : list string }.

Record Variant := mkVariant {
  variant_pk : N;
  variant_region : Region;
  variant_pos : Z;
  variant_ref : string;
  variant_alt : string }.

Record VariantAnnotation := mkVariantAnnotation {
  va_factory : N;
  va_variant : N;
  va_metadata : json }.

Record Gene := mkGene {
  gene_factory : N;
  gene_name : string;
  gene_symbol : string;
  gene_type : string;
  gene_metadata : json }.

Global Instance Region_eq_dec : EqDecision Region.
Proof. solve_decision. Defined.
Global Instance Variant_eq_dec : EqDecision Variant.
Proof. solve_decision. Defined.
Global Instance VariantAnnotation_eq_dec : EqDecision VariantAnnotation.
Proof. solve_decision. Defined.
Global Instance Gene_eq_dec : EqDecision Gene.
Proof. solve_decision. Defined.

(** Lifecycle of a source and build state of a node. *)
Inductive loading_state := NOT_STARTED | LOADING | LOADED | FAILED.
Inductive building_state := BUILDING_PENDING | BUILDING_SUCCESS | BUILDING_FAILED.

Global Instance loading_state_eq_dec : EqDecision loading_state.
Proof. solve_decision. Defined.
Global Instance building_state_eq_dec : EqDecision building_state.
Proof. solve_decision. Defined.

(** A [NodeVariantAnnotation] instance in memory: [node_metadata] is a
    reference to a dict object, so two instances may share one document. *)
Record NodeVariantAnnotation := mkNode {
  node_pk : N;
  node_variant : Variant;
  node_metadata : nat;
  node_building : building_state }.

(** The persisted row of a node, written by [save()]. *)
Record NodeRow := mkNodeRow {
  row_variant : N;
  row_metadata : json;
  row_building : building_state }.

(** ** Messages of the task broker *)

(** The [kwargs] dict of a [factory_run] message, at the types the methods
    give their parameters: the value of [region] is a string, the value of
    [batch_size] an integer. Of the keywords other than these two only the
    name is kept, in [kw_other]: a method refuses a keyword it does not have
    whatever its value. *)
Record kwargs := mkKwargs {
  kw_region : option string;
  kw_batch_size : option Z;
  kw_other : gset string }.

Global Instance kwargs_eq_dec : EqDecision kwargs.
Proof. solve_decision. Defined.

(** [{}], [{"region": region}] and [{"batch_size": batch_size}] *)
Global Instance kwargs_empty : Empty kwargs := mkKwargs None None ∅.
Definition region_kwargs (region : string) : kwargs := mkKwargs (Some region) None ∅.
Definition batch_size_kwargs (batch_size : Z) : kwargs :=
  mkKwargs None (Some batch_size) ∅.

Inductive task :=
  | factory_set_loading_started (pk : N)
  | factory_run (pk : N) (function_name : string) (kwargs : kwargs)
  | factory_set_loading_success (pk : N).

Global Instance task_eq_dec : EqDecision task.
Proof. solve_decision. Defined.

(** A message is a task signature with the tasks chained after it. *)
Record message := mkMessage {
  msg_task : task;
  msg_then : list task }.

Global Instance message_eq_dec : EqDecision message.
Proof. solve_decision. Defined.

(** ** The state *)

Record world := mkWorld {
  regions : list Region;
  variants : list Variant;
  variant_annotations : list VariantAnnotation;
  genes : list Gene;
  node_rows : gmap N NodeRow;
  factory_states : gmap N loading_state;
  broker : list message;
  objects : gmap nat NodeVariantAnnotation;
  dicts : gmap nat json }.

Definition set_regions (x : list Region) (w : world) : world :=
  mkWorld x (variants w) (variant_annotations w) (genes w) (node_rows w)
          (factory_states w) (broker w) (objects w) (dicts w).
Definition set_variants (x : list Variant) (w : world) : world :=
  mkWorld (regions w) x (variant_annotations w) (genes w) (node_rows w)
          (factory_states w) (broker w) (objects w) (dicts w).
Definition set_variant_annotations (x : list VariantAnnotation) (w : world) : world :=
  mkWorld (regions w) (variants w) x (genes w) (node_rows w)
          (factory_states w) (broker w) (objects w) (dicts w).
Definition set_genes (x : list Gene) (w : world) : world :=
  mkWorld (regions w) (variants w) (variant_annotations w) x (node_rows w)
          (factory_states w) (broker w) (objects w) (dicts w).
Definition set_node_rows (x : gmap N NodeRow) (w : world) : world :=
  mkWorld (regions w) (variants w) (variant_annotations w) (genes w) x
          (factory_states w) (broker w) (objects w) (dicts w).
Definition set_broker (x : list message) (w : world) : world :=
  mkWorld (regions w) (variants w) (variant_annotations w) (genes w) (node_rows w)
          (factory_states w) x (objects w) (dicts w).
Definition set_objects (x : gmap nat NodeVariantAnnotation) (w : world) : world :=
  mkWorld (regions w) (variants w) (variant_annotations w) (genes w) (node_rows w)
          (factory_states w) (broker w) x (dicts w).
Definition set_dicts (x : gmap nat json) (w : world) : world :=
  mkWorld (regions w) (variants w) (variant_annotations w) (genes w) (node_rows w)
          (factory_states w) (broker w) (objects w) x.

Definition empty_world : world := mkWorld [] [] [] [] ∅ ∅ [] ∅ ∅.

(** ** The monad: state with exceptions *)

Inductive result (A : Type) :=
  | Ok (a : A)
  | Raised (e : exn).
Arguments Ok {A} a.
Arguments Raised {A} e.

Definition M (A : Type) : Type := world -> world * result A.

Definition ret {A} (a : A) : M A := fun w => (w, Ok a).
Definition raise {A} (e : exn) : M A := fun w => (w, Raised e).
Definition bind {A B} (m : M A) (k : A -> M B) : M B :=
  fun w => match m w with
           | (w', Ok a) => k a w'
           | (w', Raised e) => (w', Raised e)
           end.
Definition gets {A} (f : world -> A) : M A := fun w => (w, Ok (f w)).
Definition modify (f : world -> world) : M unit := fun w => (f w, Ok tt).

(** [try: m except E: h] for the exceptions selected by [catches]. *)
Definition try_except {A} (m : M A) (catches : exn -> bool) (h : exn -> M A) : M A :=
  fun w => match m w with
           | (w', Ok a) => (w', Ok a)
           | (w', Raised e) => if catches e then h e w' else (w', Raised e)
           end.

Declare Scope monad_scope.
Delimit Scope monad_scope with monad.
Notation "x <- m ;; k" := (bind m (fun x => k))
  (at level 100, m at next level, right associativity) : monad_scope.
Notation "m ;;; k" := (bind m (fun _ => k))
  (at level 100, right associativity) : monad_scope.
Open Scope monad_scope.

(** [for x in xs: body]. *)
Fixpoint for_each {A} (xs : list A) (body : A -> M unit) : M unit :=
  match xs with
  | [] => ret tt
  | x :: xs' => body x ;;; for_each xs' body
  end.

(** [except ObjectDoesNotExist]: [DoesNotExist] is its only subclass raised
    by the manager; [MultipleObjectsReturned] is not caught. *)
Definition ObjectDoesNotExist (e : exn) : bool := bool_decide (e = DoesNotExist).

(** [Model.objects.get(...)] over the rows selected by the lookup. *)
Definition objects_get {A} (matching : list A) : M A :=
  match matching with
  | [] => raise DoesNotExist
  | [x] => ret x
  | _ => raise MultipleObjectsReturned
  end.

(** The next value of an auto-incremented primary key. *)
Definition next_pk (pks : list N) : N := (1 + foldr N.max 0 pks)%N.

(** ** External collaborators

    The VCF and TSV readers, the pydantic models of [diagho_toolkit] and
    the [Meta] of the [VariantAnnotation] model live outside these modules.
    A model constructor is taken as a function returning [None] where the
    constructor raises [ValidationError]. *)

Record VariantModel := mkVariantModel {
  vm_pos : Z;
  vm_ref : string;
  vm_alt : string;
  vm_infos : json }.

Record GnomadConstraintGeneModel := mkGeneModel {
  gm_name : string;
  gm_symbol : string;
  gm_gene_type : string;
  gm_attributes : json }.

Record gene_model_args := mkGeneModelArgs {
  arg_symbol : string;
  arg_name : string;
  arg_gene_type : string;
  arg_aliases : list string;
  arg_attributes : json }.

Class Collaborators := {
  vcf_variant : Type;
  reader_get_contigs : string -> list string;
  reader_get_variants : string -> string -> list vcf_variant;
  ClinvarVariantModel : vcf_variant -> option VariantModel;
  GnomadVariantModel : vcf_variant -> option VariantModel;
  ClinvarInfosModel_schema : json;
  GnomadInfosModel_schema : json;
  DictReader : string -> list (gmap string string);
  GnomadConstraintAttributesModel : gmap string string -> option json;
  GnomadConstraintGeneModel_new : gene_model_args -> option GnomadConstraintGeneModel;
  GnomadConstraintGeneModel_schema : json;
  (* whether the store enforces uniqueness of (factory, variant) on
     VariantAnnotation rows *)
  variant_annotation_unique : bool;
  (* the aliases a freshly saved Region row carries *)
  region_default_aliases : string -> string -> list string }.

(** ** Manager operations on the tables *)

Definition region_matches (assembly seqid : string) (r : Region) : bool :=
  bool_decide (region_assembly r = assembly) && bool_decide (region_seqid r = seqid).

Definition region_rows (assembly seqid : string) (rs : list Region) : list Region :=
  filter (fun r => region_matches assembly seqid r = true) rs.

(** [Region.objects.get(assembly=..., seqid=...)] *)
Definition Region_objects_get (assembly seqid : string) : M Region :=
  rs <- gets regions ;;
  objects_get (region_rows assembly seqid rs).

(** [Region(assembly=..., seqid=..., factory=...).save()] *)
Definition Region_save `{Collaborators} (assembly seqid : string) (factory : N) : M Region :=
  rs <- gets regions ;;
  let r := mkRegion (next_pk (region_pk <$> rs)) assembly seqid factory
                    (region_default_aliases assembly seqid) in
  modify (set_regions (rs ++ [r])) ;;;
  ret r.

Definition variant_matches (region : Region) (pos : Z) (ref alt : string)
    (v : Variant) : bool :=
  bool_decide (region_pk (variant_region v) = region_pk region)
  && bool_decide (variant_pos v = pos)
  && bool_decide (variant_ref v = ref)
  && bool_decide (variant_alt v = alt).

Definition variant_rows (region : Region) (pos : Z) (ref alt : string)
    (vs : list Variant) : list Variant :=
  filter (fun v => variant_matches region pos ref alt v = true) vs.

(** [Variant.objects.get_or_create(region=..., pos=..., ref=..., alt=...)]:
    the lookup uses every keyword argument. *)
Definition Variant_objects_get_or_create (region : Region) (pos : Z)
    (ref alt : string) : M (Variant * bool) :=
  vs <- gets variants ;;
  try_except
    (v <- objects_get (variant_rows region pos ref alt vs) ;;
     ret (v, false))
    ObjectDoesNotExist
    (fun _ =>
       let v := mkVariant (next_pk (variant_pk <$> vs)) region pos ref alt in
       modify (set_variants (vs ++ [v])) ;;;
       ret (v, true)).

Definition annotation_matches (factory variant : N) (metadata : json)
    (a : VariantAnnotation) : bool :=
  bool_decide (va_factory a = factory)
  && bool_decide (va_variant a = variant)
  && bool_decide (va_metadata a = metadata).

Definition annotation_for (factory variant : N) (a : VariantAnnotation) : bool :=
  bool_decide (va_factory a = factory) && bool_decide (va_variant a = variant).

Definition annotation_rows (factory variant : N) (rows : list VariantAnnotation)
    : list VariantAnnotation :=
  filter (fun a => annotation_for factory variant a = true) rows.

Definition annotation_rows_with (factory variant : N) (metadata : json)
    (rows : list VariantAnnotation) : list VariantAnnotation :=
  filter (fun a => annotation_matches factory variant metadata a = true) rows.

(** [VariantAnnotation.objects.get_or_create(factory=..., variant=...,
    metadata=...)]: no [defaults] are given, so [metadata] is part of the
    lookup. When the lookup finds nothing a row is inserted; the insert
    raises [IntegrityError] when the store enforces one row per
    (factory, variant) and such a row exists, and the second lookup that
    [get_or_create] then makes fails like the first. *)
Definition VariantAnnotation_objects_get_or_create `{Collaborators}
    (factory variant : N) (metadata : json) : M (VariantAnnotation * bool) :=
  rows <- gets variant_annotations ;;
  try_except
    (a <- objects_get (annotation_rows_with factory variant metadata rows) ;;
     ret (a, false))
    ObjectDoesNotExist
    (fun _ =>
       if variant_annotation_unique
          && bool_decide (annotation_rows factory variant rows <> [])
       then raise IntegrityError
       else
         let a := mkVariantAnnotation factory variant metadata in
         modify (set_variant_annotations (rows ++ [a])) ;;;
         ret (a, true)).

(** [VariantAnnotation.objects.get(factory=..., variant=...)] *)
Definition VariantAnnotation_objects_get (factory variant : N) : M VariantAnnotation :=
  rows <- gets variant_annotations ;;
  objects_get (annotation_rows factory variant rows).

(** [factory_run.delay(pk, function_name=..., kwargs=...)]: the message is
    handed to the broker and the caller goes on. *)
Definition delay (t : task) : M unit :=
  modify (fun w => set_broker (broker w ++ [mkMessage t []]) w).

(** [chain(t1, ..., tn)()]: [t1] is sent with the rest linked after it. *)
Definition chain (ts : list task) : M unit :=
  match ts with
  | [] => ret tt
  | t :: rest => modify (fun w => set_broker (broker w ++ [mkMessage t rest]) w)
  end.

(** ** Factories over a VCF file

    [ClinvarFactory] and [GnomadFactory] have the same fields and, apart
    from [get_schema] and the model class they build, the same methods. *)

Record VcfFactory := mkVcfFactory {
  vcf_pk : N;
  vcf_assembly : string;
  vcf_file_path : string }.

Section VcfFactoryMethods.
Context `{Collaborators}.
Variable Model : vcf_variant -> option VariantModel.

Definition vcf_load (self : VcfFactory) : M unit :=
  chain [ factory_set_loading_started (vcf_pk self);
          factory_run (vcf_pk self) "load_regions" ∅;
          factory_run (vcf_pk self) "load_variants" ∅;
          factory_set_loading_success (vcf_pk self) ].

(** One iteration of the loop of [load_regions]. *)
Definition ensure_region (self : VcfFactory) (region : string) : M unit :=
  region_object <-
    try_except (Region_objects_get (vcf_assembly self) region)
      ObjectDoesNotExist
      (fun _ => Region_save (vcf_assembly self) region (vcf_pk self)) ;;
  ret tt.

Definition vcf_load_regions (self : VcfFactory) : M unit :=
  for_each (reader_get_contigs (vcf_file_path self)) (ensure_region self).

Definition vcf_load_variants (self : VcfFactory) : M unit :=
  for_each (reader_get_contigs (vcf_file_path self)) (fun region =>
    delay (factory_run (vcf_pk self) "load_variants_for_region"
                       (region_kwargs region))).

(** One iteration of the loop of [load_variants_for_region]: the models
    are built, with no handler around them, then the two upserts are made. *)
Definition load_variant (self : VcfFactory) (region_obj : Region)
    (vcf_variant_ : vcf_variant) : M unit :=
  model <- match Model vcf_variant_ with
           | Some m => ret m
           | None => raise ValidationError
           end ;;
  got <- Variant_objects_get_or_create region_obj
           (vm_pos model) (vm_ref model) (vm_alt model) ;;
  let variant := fst got in
  VariantAnnotation_objects_get_or_create (vcf_pk self) (variant_pk variant)
    (vm_infos model) ;;;
  ret tt.

Definition vcf_load_variants_for_region (self : VcfFactory) (region : string) : M unit :=
  region_obj <- Region_objects_get (vcf_assembly self) region ;;
  for_each (reader_get_variants (vcf_file_path self) region)
           (load_variant self region_obj).

(** [run]: every listed method whose name equals [function_name] is called
    with [**kwargs]. Python binds the keywords to the parameters of the
    method before it runs its body: [load_regions] and [load_variants] take
    no keyword, [load_variants_for_region] takes [region] and needs it; any
    other call raises [TypeError]. *)
Definition vcf_run (self : VcfFactory) (function_name : string)
    (kwargs : kwargs) : M unit :=
  (if bool_decide (function_name = "load_regions")
   then if bool_decide (kwargs = ∅) then vcf_load_regions self else raise TypeError
   else ret tt) ;;;
  (if bool_decide (function_name = "load_variants")
   then if bool_decide (kwargs = ∅) then vcf_load_variants self else raise TypeError
   else ret tt) ;;;
  (if bool_decide (function_name = "load_variants_for_region")
   then match kw_region kwargs with
        | Some region =>
            if bool_decide (kwargs = region_kwargs region)
            then vcf_load_variants_for_region self region
            else raise TypeError
        | None => raise TypeError
        end
   else ret tt).

End VcfFactoryMethods.

(** A record of the file is settled in a store when its variant has one
    row and its annotation, with its payload, has one row. *)
Definition settled `{Collaborators} (Model : vcf_variant -> option VariantModel)
    (self : VcfFactory) (region_obj : Region) (r : vcf_variant) (w : world) : Prop :=
  exists m v a,
    Model r = Some m /\
    variant_rows region_obj (vm_pos m) (vm_ref m) (vm_alt m) (variants w) = [v] /\
    annotation_rows_with (vcf_pk self) (variant_pk v) (vm_infos m)
      (variant_annotations w) = [a].

(** ** The gnomAD constraint reader

    A generator over the rows of the TSV file is its list of rows still to
    be read; advancing it yields an item, stops, or raises. *)

Inductive gen_step (A S : Type) :=
  | Yield (a : A) (s : S)
  | StopIteration
  | GenRaise (e : exn).
Arguments Yield {A S} a s.
Arguments StopIteration {A S}.
Arguments GenRaise {A S} e.

Section Reader.
Context `{Collaborators}.

(** The body of the loop of [gene_reader] for one row: the row's fields are
    read and the attributes model is built while the [model_args] dict is
    evaluated, before the [try]; only the construction of the gene model is
    inside it. The result is the yielded pair, [inl gene] for [(gene, None)]
    and [inr e] for [(None, e)]. *)
Definition gene_reader_row (row : gmap string string)
    : result (GnomadConstraintGeneModel + exn) :=
  match row !! "gene" with
  | None => Raised (KeyError "gene")
  | Some gene =>
  match row !! "gene_type" with
  | None => Raised (KeyError "gene_type")
  | Some gene_type =>
  match row !! "start_position" with
  | None => Raised (KeyError "start_position")
  | Some start_position =>
  match row !! "end_position" with
  | None => Raised (KeyError "end_position")
  | Some end_position =>
  match GnomadConstraintAttributesModel row with
  | None => Raised ValidationError
  | Some attributes =>
      let model_args :=
        mkGeneModelArgs gene gene gene_type
          [gene; gene_type; start_position ++ "-" ++ end_position] attributes in
      match GnomadConstraintGeneModel_new model_args with
      | Some model => Ok (inl model)
      | None => Ok (inr ValidationError)
      end
  end end end end end.

Definition gene_reader_next (rows : list (gmap string string))
    : gen_step (GnomadConstraintGeneModel + exn) (list (gmap string string)) :=
  match rows with
  | [] => StopIteration
  | row :: rest =>
      match gene_reader_row row with
      | Ok item => Yield item rest
      | Raised e => GenRaise e
      end
  end.

(** Advancing [get_genes]: items carrying an error are logged and passed
    over, a gene is yielded, an exception of [gene_reader] goes through. *)
Fixpoint get_genes_next (rows : list (gmap string string))
    : gen_step GnomadConstraintGeneModel (list (gmap string string)) :=
  match rows with
  | [] => StopIteration
  | row :: rest =>
      match gene_reader_row row with
      | Ok (inl gene) => Yield gene rest
      | Ok (inr error) => get_genes_next rest
      | Raised e => GenRaise e
      end
  end.

(** [get_genes(gnomad_filename)]: the generator before anything is pulled
    from it, over all the rows of the file. *)
Definition get_genes (gnomad_filename : string) : list (gmap string string) :=
  DictReader gnomad_filename.

(** Everything [get_genes] yields when it is run to its end, and how it
    ends: [None] for exhaustion, [Some e] for an exception. *)
Fixpoint get_genes_all (rows : list (gmap string string))
    : list GnomadConstraintGeneModel * option exn :=
  match rows with
  | [] => ([], None)
  | row :: rest =>
      match gene_reader_row row with
      | Ok (inl gene) => (gene :: fst (get_genes_all rest), snd (get_genes_all rest))
      | Ok (inr error) => get_genes_all rest
      | Raised e => ([], Some e)
      end
  end.

(** [sys.maxsize] of a 64-bit interpreter. *)
Definition sys_maxsize : Z := 2 ^ 63 - 1.

(** [list(islice(genes, n))] for a count [n] that [islice] accepted: up to
    [n] items are pulled; the generator is left where the last pull ended. *)
Fixpoint islice_list (n : nat) (genes : list (gmap string string))
    : result (list GnomadConstraintGeneModel * list (gmap string string)) :=
  match n with
  | O => Ok ([], genes)
  | S n' =>
      match get_genes_next genes with
      | Yield gene rest =>
          match islice_list n' rest with
          | Ok (batch, rest') => Ok (gene :: batch, rest')
          | Raised e => Raised e
          end
      | StopIteration => Ok ([], [])
      | GenRaise e => Raised e
      end
  end.

(** [list(islice(genes, batch_size))]: [islice] refuses a negative count
    and one above [sys.maxsize] with [ValueError]. *)
Definition islice (genes : list (gmap string string)) (batch_size : Z)
    : result (list GnomadConstraintGeneModel * list (gmap string string)) :=
  if bool_decide (0 <= batch_size <= sys_maxsize)%Z
  then islice_list (Z.to_nat batch_size) genes
  else Raised ValueError.

End Reader.

(** ** The factory over the gnomAD constraint table *)

Record GnomadConstraintFactory := mkConstraintFactory {
  gc_pk : N;
  gc_file_path : string }.

Section MergeEngine.
Context `{Collaborators}.

(** Reading an instance and the dict behind a reference. A reference to
    an object that is not in memory cannot be formed in Python; reading one
    is reported as [ReferenceError]. *)
Definition deref_node (ref : nat) : M NodeVariantAnnotation :=
  os <- gets objects ;;
  match os !! ref with
  | Some node => ret node
  | None => raise ReferenceError
  end.

Definition deref_dict (loc : nat) : M json :=
  ds <- gets dicts ;;
  match ds !! loc with
  | Some d => ret d
  | None => raise ReferenceError
  end.

(** A dict display [{...}] builds a new dict object. *)
Definition new_dict (d : json) : M nat :=
  ds <- gets dicts ;;
  let loc := fresh (dom ds) in
  modify (set_dicts (<[loc := d]> ds)) ;;;
  ret loc.

(** [node.metadata = ...] and [node.building = ...] on the instance. *)
Definition set_node_metadata (ref loc : nat) : M unit :=
  node <- deref_node ref ;;
  modify (fun w => set_objects
    (<[ref := mkNode (node_pk node) (node_variant node) loc (node_building node)]>
       (objects w)) w).

Definition set_node_building (ref : nat) (b : building_state) : M unit :=
  node <- deref_node ref ;;
  modify (fun w => set_objects
    (<[ref := mkNode (node_pk node) (node_variant node) (node_metadata node) b]>
       (objects w)) w).

(** [node.save()]: the row of the node's primary key takes the instance's
    current field values. *)
Definition node_save (ref : nat) : M unit :=
  node <- deref_node ref ;;
  d <- deref_dict (node_metadata node) ;;
  modify (fun w => set_node_rows
    (<[node_pk node := mkNodeRow (variant_pk (node_variant node)) d (node_building node)]>
       (node_rows w)) w).

(** [metadata["factories"][key] = value] on the dict object at [loc]: the
    subscription raises [KeyError] when "factories" is missing, and
    [TypeError] when [metadata] or [metadata["factories"]] is not a dict. *)
Definition set_factories_item (loc : nat) (key : string) (value : json) : M unit :=
  d <- deref_dict loc ;;
  match d with
  | JObj m =>
      match m !! "factories" with
      | None => raise (KeyError "factories")
      | Some (JObj fs) =>
          modify (fun w => set_dicts
            (<[loc := JObj (<["factories" := JObj (<[key := value]> fs)]> m)]> (dicts w)) w)
      | Some _ => raise TypeError
      end
  | _ => raise TypeError
  end.

(** The lookup shared by [init_metadata] and [merge_metadata] of the VCF
    factories:
    [try: VariantAnnotation.objects.get(factory=self, variant=...).metadata
     except ObjectDoesNotExist: {}]. *)
Definition variant_annotation_of (self : VcfFactory) (variant : Variant) : M json :=
  try_except
    (a <- VariantAnnotation_objects_get (vcf_pk self) (variant_pk variant) ;;
     ret (va_metadata a))
    ObjectDoesNotExist
    (fun _ => ret (JObj ∅)).

Definition vcf_init_metadata (self : VcfFactory)
    (node_variant_annotations : list nat) : M unit :=
  for_each node_variant_annotations (fun node_variant_annotation =>
    node <- deref_node node_variant_annotation ;;
    variant_annotation <- variant_annotation_of self (node_variant node) ;;
    metadata <- new_dict
      (JObj {[ "factories" :=
        JObj {[ str (vcf_pk self) :=
          JObj {[ "variant_annotations" := JArr [variant_annotation] ]} ]} ]}) ;;
    set_node_metadata node_variant_annotation metadata ;;;
    set_node_building node_variant_annotation BUILDING_SUCCESS ;;;
    node_save node_variant_annotation).

Definition vcf_merge_metadata (self : VcfFactory)
    (node_variant_annotation parent_node_variant_annotation : nat) : M unit :=
  parent <- deref_node parent_node_variant_annotation ;;
  let metadata := node_metadata parent in
  node <- deref_node node_variant_annotation ;;
  variant_annotation <- variant_annotation_of self (node_variant node) ;;
  set_factories_item metadata (str (vcf_pk self))
    (JObj {[ "variant_annotations" := JArr [variant_annotation] ]}) ;;;
  set_node_metadata node_variant_annotation metadata ;;;
  set_node_building node_variant_annotation BUILDING_SUCCESS ;;;
  node_save node_variant_annotation.

End MergeEngine.

Module ClinvarFactory.
Section Methods.
Context `{Collaborators}.

Definition load := vcf_load.
Definition run := vcf_run ClinvarVariantModel.
Definition load_regions := vcf_load_regions.
Definition load_variants := vcf_load_variants.
Definition load_variants_for_region := vcf_load_variants_for_region ClinvarVariantModel.
Definition init_metadata := vcf_init_metadata.
Definition merge_metadata := vcf_merge_metadata.

Definition get_schema (self : VcfFactory) : json :=
  JObj {[ str (vcf_pk self) :=
            JObj {[ "variant_annotations" := ClinvarInfosModel_schema ]} ]}.

End Methods.
End ClinvarFactory.

Module GnomadFactory.
Section Methods.
Context `{Collaborators}.

Definition load := vcf_load.
Definition run := vcf_run GnomadVariantModel.
Definition load_regions := vcf_load_regions.
Definition load_variants := vcf_load_variants.
Definition load_variants_for_region := vcf_load_variants_for_region GnomadVariantModel.
Definition init_metadata := vcf_init_metadata.
Definition merge_metadata := vcf_merge_metadata.

Definition get_schema (self : VcfFactory) : json :=
  JObj {[ str (vcf_pk self) := JObj {[ "genes" := GnomadInfosModel_schema ]} ]}.

End Methods.
End GnomadFactory.

Module GnomadConstraintFactory.
Section Methods.
Context `{Collaborators}.

Definition load (self : GnomadConstraintFactory) : M unit :=
  chain [ factory_set_loading_started (gc_pk self);
          factory_run (gc_pk self) "load_genes" (batch_size_kwargs 100);
          factory_set_loading_success (gc_pk self) ].

Definition load_genes_by_batch (self : GnomadConstraintFactory)
    (genes_ : list GnomadConstraintGeneModel) : M unit :=
  modify (fun w => set_genes
    (genes w ++ map (fun gene => mkGene (gc_pk self) (gm_name gene) (gm_symbol gene)
                                        (gm_gene_type gene) (gm_attributes gene)) genes_) w).

(** The [while True] loop of [load_genes], run for at most [fuel]
    iterations; [None] is returned when they do not suffice. *)
Fixpoint load_genes_loop (fuel : nat) (self : GnomadConstraintFactory)
    (batch_size : Z) (genes_ : list (gmap string string)) : M (option unit) :=
  match fuel with
  | O => ret None
  | S fuel' =>
      match islice genes_ batch_size with
      | Raised e => raise e
      | Ok (batch, rest) =>
          match batch with
          | [] => ret (Some tt)
          | _ :: _ =>
              load_genes_by_batch self batch ;;;
              load_genes_loop fuel' self batch_size rest
          end
      end
  end.

Definition load_genes (fuel : nat) (self : GnomadConstraintFactory)
    (batch_size : Z) : M (option unit) :=
  modify (fun w => set_genes
    (filter (fun g => gene_factory g <> gc_pk self) (genes w)) w) ;;;
  let genes_ := get_genes (gc_file_path self) in
  load_genes_loop fuel self batch_size genes_.

(** [run]: [load_genes] is called with [**kwargs]; it takes [batch_size],
    which is 100 when the keyword is not given, and no other keyword. *)
Definition run (fuel : nat) (self : GnomadConstraintFactory) (function_name : string)
    (kwargs : kwargs) : M (option unit) :=
  if bool_decide (function_name = "load_genes")
  then
    if bool_decide (kw_region kwargs = None /\ kw_other kwargs = ∅)
    then load_genes fuel self (default 100%Z (kw_batch_size kwargs))
    else raise TypeError
  else ret (Some tt).

Definition get_schema (self : GnomadConstraintFactory) : json :=
  JObj {[ str (gc_pk self) := JObj {[ "genes" := GnomadConstraintGeneModel_schema ]} ]}.

(** The lookups [metadata__chromosome__in], [metadata__start_position__lte]
    and [metadata__end_position__gte] on the JSON payload of a Gene row; a
    row whose payload lacks the key does not match. *)
Definition metadata_key (g : Gene) (key : string) : option json :=
  match gene_metadata g with
  | JObj m => m !! key
  | _ => None
  end.

Definition chromosome_in (g : Gene) (aliases : list string) : bool :=
  match metadata_key g "chromosome" with
  | Some (JStr c) => bool_decide (c ∈ aliases)
  | _ => false
  end.

Definition start_position_lte (g : Gene) (bound : Z) : bool :=
  match metadata_key g "start_position" with
  | Some (JNum start_position) => bool_decide (start_position <= bound)%Z
  | _ => false
  end.

Definition end_position_gte (g : Gene) (bound : Z) : bool :=
  match metadata_key g "end_position" with
  | Some (JNum end_position) => bool_decide (end_position >= bound)%Z
  | _ => false
  end.

(** [[gene.metadata for gene in Gene.objects.filter(factory=self, ...)]] *)
Definition genes_of_variant (self : GnomadConstraintFactory) (variant : Variant)
    : M (list json) :=
  gs <- gets genes ;;
  ret (gene_metadata <$>
    filter (fun gene =>
        bool_decide (gene_factory gene = gc_pk self)
        && chromosome_in gene (region_aliases (variant_region variant))
        && start_position_lte gene
             (variant_pos variant + Z.of_nat (String.length (variant_ref variant)))
        && end_position_gte gene (variant_pos variant) = true) gs).

Definition init_metadata (self : GnomadConstraintFactory)
    (node_variant_annotations : list nat) : M unit :=
  for_each node_variant_annotations (fun node_variant_annotation =>
    node <- deref_node node_variant_annotation ;;
    let variant := node_variant node in
    found <- genes_of_variant self variant ;;
    metadata <- new_dict
      (JObj {[ "factories" :=
        JObj {[ str (gc_pk self) := JObj {[ "genes" := JArr found ]} ]} ]}) ;;
    set_node_metadata node_variant_annotation metadata ;;;
    set_node_building node_variant_annotation BUILDING_SUCCESS ;;;
    node_save node_variant_annotation).

Definition merge_metadata (self : GnomadConstraintFactory)
    (node_variant_annotation parent_node_variant_annotation : nat) : M unit :=
  parent <- deref_node parent_node_variant_annotation ;;
  let metadata := node_metadata parent in
  node <- deref_node node_variant_annotation ;;
  let variant := node_variant node in
  found <- genes_of_variant self variant ;;
  set_factories_item metadata (str (gc_pk self)) (JObj {[ "genes" := JArr found ]}) ;;;
  set_node_metadata node_variant_annotation metadata ;;;
  set_node_building node_variant_annotation BUILDING_SUCCESS ;;;
  node_save node_variant_annotation.

End Methods.
End GnomadConstraintFactory.

(** ** The tasks and the worker *)

(** The registry of the factories over a VCF file, which are the ones with
    a positional pipeline. *)
Inductive factory :=
  | Clinvar (self : VcfFactory)
  | Gnomad (self : VcfFactory).



Section Worker.
Context `{Collaborators}.
Variable registry : gmap N factory.









Definition region_load (self : VcfFactory) (region : string) : task :=
  factory_run (vcf_pk self) "load_variants_for_region" (region_kwargs region).

End Worker.

(** ** A small deployment used to evaluate the methods

    Raw VCF records are either well-formed, carrying the fields the model
    keeps, or malformed; TSV rows validate when they name a chromosome and
    give decimal positions, and a gene model needs a non-empty symbol. *)

Fixpoint digits_value (acc : Z) (s : string) : option Z :=
  match s with
  | EmptyString => Some acc
  | String c rest =>
      let n := Ascii.nat_of_ascii c in
      if bool_decide (48 <= n <= 57) then digits_value (10 * acc + (Z.of_nat n - 48)) rest
      else None
  end.

Definition parse_int (s : string) : option Z :=
  match s with
  | EmptyString => None
  | _ => digits_value 0 s
  end.

Definition infos (clnsig : string) : json := JObj {[ "CLNSIG" := JStr clnsig ]}.

Definition demo_variants (path contig : string) : list (option VariantModel) :=
  if bool_decide (contig = "1") then
    if bool_decide (path = "demo.vcf") then
      [ Some (mkVariantModel 10 "A" "T" (infos "Benign"));
        Some (mkVariantModel 20 "G" "C" (infos "Pathogenic")) ]
    else if bool_decide (path = "conflict.vcf") then
      [ Some (mkVariantModel 10 "A" "T" (infos "Benign"));
        Some (mkVariantModel 10 "A" "T" (infos "Pathogenic")) ]
    else if bool_decide (path = "broken.vcf") then
      [ None; Some (mkVariantModel 20 "G" "C" (infos "Pathogenic")) ]
    else []
  else [].

Definition tsv_row (gene gene_type chromosome start_position end_position : string)
    : gmap string string :=
  {[ "gene" := gene; "gene_type" := gene_type; "chromosome" := chromosome;
     "start_position" := start_position; "end_position" := end_position ]}.

Definition demo_rows (path : string) : list (gmap string string) :=
  if bool_decide (path = "constraint.tsv") then
    [ tsv_row "BRCA1" "protein_coding" "1" "100" "200";
      tsv_row EmptyString "protein_coding" "1" "300" "400";
      tsv_row "TP53" "protein_coding" "2" "100" "200" ]
  else if bool_decide (path = "malformed.tsv") then
    [ tsv_row "BRCA1" "protein_coding" "1" "abc" "200";
      tsv_row "TP53" "protein_coding" "2" "100" "200" ]
  else [].

Definition demo_attributes (row : gmap string string) : option json :=
  match row !! "chromosome", row !! "start_position" ≫= parse_int,
        row !! "end_position" ≫= parse_int with
  | Some c, Some s, Some e =>
      Some (JObj {[ "chromosome" := JStr c; "start_position" := JNum s;
                    "end_position" := JNum e ]})
  | _, _, _ => None
  end.

Definition demo_gene_model (args : gene_model_args) : option GnomadConstraintGeneModel :=
  if bool_decide (arg_symbol args = EmptyString) then None
  else Some (mkGeneModel (arg_name args) (arg_symbol args) (arg_gene_type args)
                         (arg_attributes args)).

Definition demo (unique : bool) : Collaborators := {|
  vcf_variant := option VariantModel;
  reader_get_contigs := fun path =>
    if bool_decide (path = "two.vcf") then ["1"; "2"] else ["1"];
  reader_get_variants := demo_variants;
  ClinvarVariantModel := fun r => r;
  GnomadVariantModel := fun r => r;
  ClinvarInfosModel_schema := JObj {[ "title" := JStr "ClinvarInfosModel" ]};
  GnomadInfosModel_schema := JObj {[ "title" := JStr "GnomadInfosModel" ]};
  DictReader := demo_rows;
  GnomadConstraintAttributesModel := demo_attributes;
  GnomadConstraintGeneModel_new := demo_gene_model;
  GnomadConstraintGeneModel_schema := JObj {[ "title" := JStr "GnomadConstraintGeneModel" ]};
  variant_annotation_unique := unique;
  region_default_aliases := fun _ seqid => [seqid; "chr" ++ seqid] |}.

Definition demo_clinvar (path : string) : VcfFactory := mkVcfFactory 1 "GRCh38" path.
Definition demo_constraint (path : string) : GnomadConstraintFactory :=
  mkConstraintFactory 3 path.

(** ** Batches, as the batch loader is described

    The stream cut into consecutive batches of [n] records, in stream order,
    the last one holding what is left. *)

Fixpoint batches_upto {A} (fuel n : nat) (l : list A) : list (list A) :=
  match fuel with
  | O => []
  | S fuel' =>
      match l with
      | [] => []
      | _ :: _ => take n l :: batches_upto fuel' n (drop n l)
      end
  end.

Definition batches {A} (n : nat) (l : list A) : list (list A) :=
  batches_upto (length l) n l.

Section BatchLoaderSpec.
Context `{Collaborators}.

(** The genes [get_genes] yields from a file, and whether it raises. *)
Definition valid_genes (path : string) : list GnomadConstraintGeneModel :=
  fst (get_genes_all (get_genes path)).

Definition reads_cleanly (path : string) : Prop :=
  snd (get_genes_all (get_genes path)) = None.

(** Delete this factory's Gene rows, then insert the batches one by one. *)
Definition replace_genes (self : GnomadConstraintFactory)
    (groups : list (list GnomadConstraintGeneModel)) : M unit :=
  modify (fun w => set_genes
    (filter (fun g => gene_factory g <> gc_pk self) (genes w)) w) ;;;
  for_each groups (GnomadConstraintFactory.load_genes_by_batch self).

Definition gene_row (self : GnomadConstraintFactory) (gene : GnomadConstraintGeneModel)
    : Gene :=
  mkGene (gc_pk self) (gm_name gene) (gm_symbol gene) (gm_gene_type gene)
         (gm_attributes gene).

Definition owned_genes (self : GnomadConstraintFactory) (w : world) : list Gene :=
  filter (fun g => gene_factory g = gc_pk self) (genes w).

(** What the batch loader is said to do for a batch size: once it has run,
    the factory's Gene rows are the valid records of the file, in order. *)
Definition inserts_valid_records (self : GnomadConstraintFactory) (batch_size : Z)
    (w : world) : Prop :=
  forall fuel, length (get_genes (gc_file_path self)) < fuel ->
    owned_genes self (fst (GnomadConstraintFactory.load_genes fuel self batch_size w)) =
    gene_row self <$> valid_genes (gc_file_path self).

End BatchLoaderSpec.

(** ** Reading documents *)

(** The keys a schema advertises under a source id. *)
Definition schema_keys (schema : json) (source_id : string) : option (gset string) :=
  match schema with
  | JObj m => match m !! source_id with
              | Some (JObj c) => Some (dom c)
              | _ => None
              end
  | _ => None
  end.

(** The value and the keys a document holds under [factories[source_id]]. *)
Definition contribution (doc : json) (source_id : string) : option json :=
  match doc with
  | JObj m => match m !! "factories" with
              | Some (JObj fs) => fs !! source_id
              | _ => None
              end
  | _ => None
  end.

Definition written_keys (doc : json) (source_id : string) : option (gset string) :=
  match contribution doc source_id with
  | Some (JObj c) => Some (dom c)
  | _ => None
  end.

(** The document of the node behind a reference. *)
Definition document (w : world) (ref : nat) : option json :=
  node ← objects w !! ref; dicts w !! node_metadata node.

(** ** A store and a memory used to evaluate the merge engine *)

Definition demo_region : Region := mkRegion 1 "GRCh38" "1" 1 ["1"; "chr1"].
Definition demo_variant (pk : N) (pos : Z) : Variant := mkVariant pk demo_region pos "A" "T".

Definition demo_parent_document : json :=
  JObj {[ "factories" := JObj {[ "7" := JObj {[ "genes" := JArr [] ]} ]} ]}.

Definition demo_world : world := {|
  regions := [demo_region];
  variants := [demo_variant 1 150; demo_variant 2 250];
  variant_annotations := [mkVariantAnnotation 1 1 (infos "Benign")];
  genes := [ mkGene 3 "BRCA1" "BRCA1" "protein_coding"
               (JObj {[ "chromosome" := JStr "1"; "start_position" := JNum 100;
                        "end_position" := JNum 200 ]}) ];
  node_rows := ∅;
  factory_states := ∅;
  broker := [];
  objects := {[ 0 := mkNode 10 (demo_variant 1 150) 0 BUILDING_PENDING;
                1 := mkNode 11 (demo_variant 1 150) 1 BUILDING_PENDING;
                2 := mkNode 12 (demo_variant 2 250) 2 BUILDING_PENDING ]};
  dicts := {[ 0 := demo_parent_document; 1 := JObj ∅; 2 := JObj ∅ ]} |}.

(** The store after region discovery for the demo factory. *)
Definition demo_loaded_regions : world :=
  fst (ClinvarFactory.load_regions (H := demo false) (demo_clinvar "demo.vcf") empty_world).

(** The store the loader leaves for a file in which the variant at
    position 10 of contig "1" comes with two payloads, and in memory one
    node of that variant. *)
Definition demo_reloaded : world :=
  let w := fst (ClinvarFactory.load_variants_for_region (H := demo false)
                  (demo_clinvar "conflict.vcf") "1" demo_loaded_regions) in
  set_dicts {[ 0 := JObj ∅ ]}
    (set_objects {[ 0 := mkNode 10 (demo_variant 1 10) 0 BUILDING_PENDING ]} w).

(** ** The common shape of the merge engine

    [init_metadata] and [merge_metadata] of the three factories differ in
    the source id and in the contribution they compute for a variant. *)

Definition init_node_with (source_id : string) (contribution_of : Variant -> M json)
    (ref : nat) : M unit :=
  node <- deref_node ref ;;
  c <- contribution_of (node_variant node) ;;
  metadata <- new_dict (JObj {[ "factories" := JObj {[ source_id := c ]} ]}) ;;
  set_node_metadata ref metadata ;;;
  set_node_building ref BUILDING_SUCCESS ;;;
  node_save ref.

Definition merge_node_with (source_id : string) (contribution_of : Variant -> M json)
    (ref parent_ref : nat) : M unit :=
  parent <- deref_node parent_ref ;;
  node <- deref_node ref ;;
  c <- contribution_of (node_variant node) ;;
  set_factories_item (node_metadata parent) source_id c ;;;
  set_node_metadata ref (node_metadata parent) ;;;
  set_node_building ref BUILDING_SUCCESS ;;;
  node_save ref.

(** The contribution of a VCF factory and of the constraint factory. *)
Definition vcf_contribution (self : VcfFactory) (variant : Variant) : M json :=
  variant_annotation <- variant_annotation_of self variant ;;
  ret (JObj {[ "variant_annotations" := JArr [variant_annotation] ]}).

Definition constraint_contribution (self : GnomadConstraintFactory) (variant : Variant)
    : M json :=
  found <- GnomadConstraintFactory.genes_of_variant self variant ;;
  ret (JObj {[ "genes" := JArr found ]}).

(** Two states with the same tables. *)
Definition same_store (w w' : world) : Prop :=
  regions w' = regions w /\ variants w' = variants w /\
  variant_annotations w' = variant_annotations w /\ genes w' = genes w /\
  factory_states w' = factory_states w /\ broker w' = broker w.

(** The stored payload of a factory for a variant: the metadata of its
    row, or the empty document when there is none. *)
Definition stored_payload (self : VcfFactory) (variant : Variant) (w : world) : json :=
  match annotation_rows (vcf_pk self) (variant_pk variant) (variant_annotations w) with
  | a :: _ => va_metadata a
  | [] => JObj ∅
  end.

(** The document [init_metadata] of a VCF factory gives the node of a
    variant. *)
Definition initial_document (self : VcfFactory) (variant : Variant) (w : world) : json :=
  JObj {[ "factories" :=
    JObj {[ str (vcf_pk self) :=
      JObj {[ "variant_annotations" := JArr [stored_payload self variant w] ]} ]} ]}.

Definition at_most_one_row (self : VcfFactory) (variant : Variant) (w : world) : Prop :=
  length (annotation_rows (vcf_pk self) (variant_pk variant) (variant_annotations w)) <= 1.

(** ** The overlap of a gene with a variant, as the range query is described *)

Definition gene_chromosome (g : Gene) : option string :=
  match GnomadConstraintFactory.metadata_key g "chromosome" with
  | Some (JStr c) => Some c
  | _ => None
  end.

Definition gene_start_position (g : Gene) : option Z :=
  match GnomadConstraintFactory.metadata_key g "start_position" with
  | Some (JNum z) => Some z
  | _ => None
  end.

Definition gene_end_position (g : Gene) : option Z :=
  match GnomadConstraintFactory.metadata_key g "end_position" with
  | Some (JNum z) => Some z
  | _ => None
  end.

Definition overlaps (self : GnomadConstraintFactory) (variant : Variant) (g : Gene) : Prop :=
  gene_factory g = gc_pk self /\
  match gene_chromosome g with
  | Some c => c ∈ region_aliases (variant_region variant)
  | None => False
  end /\
  match gene_start_position g with
  | Some start_position =>
      (start_position <= variant_pos variant
                         + Z.of_nat (String.length (variant_ref variant)))%Z
  | None => False
  end /\
  match gene_end_position g with
  | Some end_position => (end_position >= variant_pos variant)%Z
  | None => False
  end.

Global Instance overlaps_dec self variant g : Decision (overlaps self variant g).
Proof.
  unfold overlaps.
  destruct (gene_chromosome g), (gene_start_position g), (gene_end_position g); apply _.
Defined.

Definition overlapsb (self : GnomadConstraintFactory) (variant : Variant) (g : Gene) : bool :=
  bool_decide (gene_factory g = gc_pk self)
  && GnomadConstraintFactory.chromosome_in g (region_aliases (variant_region variant))
  && GnomadConstraintFactory.start_position_lte g
       (variant_pos variant + Z.of_nat (String.length (variant_ref variant)))
  && GnomadConstraintFactory.end_position_gte g (variant_pos variant).


(** The document [m], with "factories" dict [fs], in which the key of one
    source is set. *)
Definition merged_document (m fs : gmap string json) (source_id : string) (c : json) : json :=
  JObj (<["factories" := JObj (<[source_id := c]> fs)]> m).


(** ** The positional pipeline *)





Section Pipeline.
Context `{Collaborators}.
Variable registry : gmap N factory.
Variable self : VcfFactory.









End Pipeline.







(** ** Parts of the state a computation leaves alone *)

Definition keeps {A X} (proj : world -> X) (m : M A) : Prop :=
  forall w, proj (fst (m w)) = proj w.

(** Everything of the state but the Region table, and so on for the other
    parts a method writes. *)
Definition but_regions (w : world) :=
  (variants w, variant_annotations w, genes w, node_rows w, factory_states w,
   broker w, objects w, dicts w).

Definition but_variants_and_annotations (w : world) :=
  (regions w, genes w, node_rows w, factory_states w, broker w, objects w, dicts w).

Definition but_broker (w : world) :=
  (regions w, variants w, variant_annotations w, genes w, node_rows w,
   factory_states w, objects w, dicts w).

Definition but_genes (w : world) :=
  (regions w, variants w, variant_annotations w, node_rows w, factory_states w,
   broker w, objects w, dicts w).

(** ** Keys of the Variant and VariantAnnotation tables *)

(** No two Variant rows with the same region, position and alleles, no two
    with the same primary key, and no two VariantAnnotation rows with the
    same factory, variant and payload. *)
Definition well_keyed (w : world) : Prop :=
  (forall region_obj pos ref alt,
     length (variant_rows region_obj pos ref alt (variants w)) <= 1) /\
  NoDup (variant_pk <$> variants w) /\
  (forall factory variant metadata,
     length (annotation_rows_with factory variant metadata (variant_annotations w)) <= 1).

(** ** A store in which one variant has two annotation rows of a factory *)
Definition demo_world_two_rows : world :=
  set_variant_annotations
    [mkVariantAnnotation 1 1 (infos "Benign"); mkVariantAnnotation 1 1 (infos "Pathogenic")]
    demo_world.

(** ** Files in which a record that does not validate follows valid ones *)
Definition late_failure_rows : list (gmap string string) :=
  [ tsv_row "BRCA1" "protein_coding" "1" "100" "200";
    tsv_row "TP53" "protein_coding" "2" "100" "200";
    tsv_row "EGFR" "protein_coding" "7" "100" "200";
    tsv_row "KRAS" "protein_coding" "12" "abc" "200";
    tsv_row "MYC" "protein_coding" "8" "100" "200" ].

Definition demo_late_failure : Collaborators := {|
  vcf_variant := option VariantModel;
  reader_get_contigs := fun _ => ["1"];
  reader_get_variants := fun _ contig =>
    if bool_decide (contig = "1") then
      [ Some (mkVariantModel 10 "A" "T" (infos "Benign"));
        None;
        Some (mkVariantModel 20 "G" "C" (infos "Pathogenic")) ]
    else [];
  ClinvarVariantModel := fun r => r;
  GnomadVariantModel := fun r => r;
  ClinvarInfosModel_schema := JObj {[ "title" := JStr "ClinvarInfosModel" ]};
  GnomadInfosModel_schema := JObj {[ "title" := JStr "GnomadInfosModel" ]};
  DictReader := fun _ => late_failure_rows;
  GnomadConstraintAttributesModel := demo_attributes;
  GnomadConstraintGeneModel_new := demo_gene_model;
  GnomadConstraintGeneModel_schema := JObj {[ "title" := JStr "GnomadConstraintGeneModel" ]};
  variant_annotation_unique := false;
  region_default_aliases := fun _ seqid => [seqid; "chr" ++ seqid] |}.

(** ** Catalog bootstrap: [load_catalog]

    The rows of the [Factory] table, each with the class it belongs to,
    and the primary keys of the [Assembly] table. A catalog is a dict of
    lists of blueprints, a blueprint a dict of strings. *)

Inductive factory_class := ClinvarClass | GnomadClass | GnomadConstraintClass.

Global Instance factory_class_eq_dec : EqDecision factory_class.
Proof. solve_decision. Defined.

Record FactoryRow := mkFactoryRow {
  fr_class : factory_class;
  fr_pk : N;
  fr_name : string;
  fr_description : string;
  fr_assembly : option string;
  fr_file_path : string }.

Record registry := mkRegistry {
  assemblies : gset string;
  factories : list FactoryRow }.

Definition blueprint := gmap string string.
Definition catalog := gmap string (list blueprint).

(** [blueprint[key]] *)
Definition blueprint_get (b : blueprint) (key : string) : result string :=
  match b !! key with
  | Some v => Ok v
  | None => Raised (KeyError key)
  end.

(** The rows [cls.objects.get(name=...)] selects. *)
Definition named (cls : factory_class) (name : string) (rows : list FactoryRow)
    : list FactoryRow :=
  filter (fun r => fr_class r = cls /\ fr_name r = name) rows.

(** [Assembly.objects.get_or_create(id=...)]: [id] is the primary key. *)
Definition Assembly_get_or_create (id : string) (s : registry) : registry :=
  mkRegistry ({[ id ]} ∪ assemblies s) (factories s).

(** [cls(name=..., description=..., ...).save()] of a new factory. *)
Definition Factory_save (cls : factory_class) (name description : string)
    (assembly : option string) (path : string) (s : registry) : registry :=
  mkRegistry (assemblies s)
    (factories s ++
     [mkFactoryRow cls (next_pk (fr_pk <$> factories s)) name description assembly path]).

(** [for blueprint in blueprints: body] *)
Fixpoint for_blueprints (body : blueprint -> registry -> registry * result unit)
    (blueprints : list blueprint) (s : registry) : registry * result unit :=
  match blueprints with
  | [] => (s, Ok tt)
  | b :: rest =>
      match body b s with
      | (s', Ok _) => for_blueprints body rest s'
      | (s', Raised e) => (s', Raised e)
      end
  end.

Section LoadCatalog.
(** [settings.BIODB_ROOT / path] *)
Variable BIODB_ROOT : string -> string.

(** The body of the loop of [ClinvarFactory.load_catalog] and of
    [GnomadFactory.load_catalog]: the lookup by name; when it finds no row,
    the assembly is fetched or created, then the keyword arguments of the
    constructor are evaluated from left to right and the factory is saved.
    [except ObjectDoesNotExist] does not catch [MultipleObjectsReturned] nor
    the [KeyError] of a blueprint without name. *)
Definition vcf_load_blueprint (cls : factory_class) (path_key : string) (b : blueprint)
    (s : registry) : registry * result unit :=
  match blueprint_get b "name" with
  | Raised e => (s, Raised e)
  | Ok name =>
      match named cls name (factories s) with
      | [_] => (s, Ok tt)
      | _ :: _ :: _ => (s, Raised MultipleObjectsReturned)
      | [] =>
          match blueprint_get b "assembly" with
          | Raised e => (s, Raised e)
          | Ok assembly =>
              let s1 := Assembly_get_or_create assembly s in
              match blueprint_get b "description" with
              | Raised e => (s1, Raised e)
              | Ok description =>
                  match blueprint_get b path_key with
                  | Raised e => (s1, Raised e)
                  | Ok path =>
                      (Factory_save cls name description (Some assembly)
                         (BIODB_ROOT path) s1, Ok tt)
                  end
              end
          end
      end
  end.

(** The body of the loop of [GnomadConstraintFactory.load_catalog]: no
    assembly. *)
Definition constraint_load_blueprint (b : blueprint) (s : registry)
    : registry * result unit :=
  match blueprint_get b "name" with
  | Raised e => (s, Raised e)
  | Ok name =>
      match named GnomadConstraintClass name (factories s) with
      | [_] => (s, Ok tt)
      | _ :: _ :: _ => (s, Raised MultipleObjectsReturned)
      | [] =>
          match blueprint_get b "description" with
          | Raised e => (s, Raised e)
          | Ok description =>
              match blueprint_get b "gnomad_constraint_tsv_file_path" with
              | Raised e => (s, Raised e)
              | Ok path =>
                  (Factory_save GnomadConstraintClass name description None
                     (BIODB_ROOT path) s, Ok tt)
              end
          end
      end
  end.

(** [for blueprint in catalog[key]: ...] *)
Definition load_catalog_with (key : string)
    (body : blueprint -> registry -> registry * result unit) (c : catalog) (s : registry)
    : registry * result unit :=
  match c !! key with
  | None => (s, Raised (KeyError key))
  | Some blueprints => for_blueprints body blueprints s
  end.

Definition ClinvarFactory_load_catalog : catalog -> registry -> registry * result unit :=
  load_catalog_with "clinvar_factories"
    (vcf_load_blueprint ClinvarClass "clinvar_vcf_file_path").

Definition GnomadFactory_load_catalog : catalog -> registry -> registry * result unit :=
  load_catalog_with "gnomad_factories"
    (vcf_load_blueprint GnomadClass "gnomad_vcf_file_path").

Definition GnomadConstraintFactory_load_catalog
    : catalog -> registry -> registry * result unit :=
  load_catalog_with "gnomad_constraint_factories" constraint_load_blueprint.

End LoadCatalog.

(** The names of a class are unique in the registry. *)
Definition unique_names (cls : factory_class) (s : registry) : Prop :=
  forall name, length (named cls name (factories s)) <= 1.

(** What one blueprint may do to the registry, for the class [cls]. *)
Definition blueprint_step (cls : factory_class)
    (body : blueprint -> registry -> registry * result unit) : Prop :=
  forall (b : blueprint) (s : registry),
    let s' := fst (body b s) in
    assemblies s ⊆ assemblies s' /\
    (factories s' = factories s \/
     exists row, factories s' = (factories s ++ [row])%list /\ fr_class row = cls /\
                 named cls (fr_name row) (factories s) = [] /\
                 b !! "name" = Some (fr_name row)) /\
    (snd (body b s) = Ok tt ->
     exists name, b !! "name" = Some name /\ length (named cls name (factories s')) = 1) /\
    (forall name, b !! "name" = Some name ->
       length (named cls name (factories s)) = 1 -> body b s = (s, Ok tt)).

(** A registry and a catalog used to evaluate [load_catalog]. *)
Definition demo_registry_rows : registry :=
  mkRegistry {[ "GRCh38" ]}
    [mkFactoryRow ClinvarClass 1 "clinvar" "as first registered" (Some "GRCh38")
       "/biodb/clinvar_2020.vcf"].

Definition demo_catalog : catalog :=
  {[ "clinvar_factories" :=
       [ {[ "name" := "clinvar"; "description" := "ClinVar"; "assembly" := "GRCh38";
            "clinvar_vcf_file_path" := "clinvar_2021.vcf" ]};
         {[ "name" := "clinvar-37"; "description" := "ClinVar 37"; "assembly" := "GRCh37";
            "clinvar_vcf_file_path" := "clinvar_37.vcf" ]};
         {[ "name" := "clinvar-37"; "description" := "again"; "assembly" := "GRCh37";
            "clinvar_vcf_file_path" := "clinvar_37_bis.vcf" ]} ] ]}.

Definition demo_biodb_root (path : string) : string := "/biodb/" ++ path.

(** The registry [s'] is [s] with more factories of the class [cls] and
    possibly more assemblies. *)
Definition extends (cls : factory_class) (s s' : registry) : Prop :=
  (exists new, factories s' = (factories s ++ new)%list /\
               Forall (fun r => fr_class r = cls) new) /\
  assemblies s ⊆ assemblies s' /\
  (unique_names cls s -> unique_names cls s').

(** ** The first load of a contig *)

(** The key under which the variant of a record is looked up. *)
Definition record_key (m : VariantModel) : Z * string * string :=
  (vm_pos m, vm_ref m, vm_alt m).

Definition variant_key (v : Variant) : Z * string * string :=
  (variant_pos v, variant_ref v, variant_alt v).

(** While the records with the keys [seen] have been loaded: every
    annotation row of the factory belongs to a stored variant with one of
    these keys, and no variant has two annotation rows of the factory. *)
Definition one_row_per_variant (self : VcfFactory) (seen : list (Z * string * string))
    (w : world) : Prop :=
  well_keyed w /\
  (forall a, a ∈ variant_annotations w -> va_factory a = vcf_pk self ->
     exists v, v ∈ variants w /\ variant_pk v = va_variant a /\ variant_key v ∈ seen) /\
  (forall pk, length (annotation_rows (vcf_pk self) pk (variant_annotations w)) <= 1).

(** * Properties *)

(** ** Reasoning about monadic code *)

Ltac unfold_monad :=
  unfold bind, ret, raise, gets, modify, try_except, objects_get in *.

Lemma for_each_cons {A} (x : A) (xs : list A) (body : A -> M unit) (w : world) :
  for_each (x :: xs) body w =
  match body x w with
  | (w', Ok _) => for_each xs body w'
  | (w', Raised e) => (w', Raised e)
  end.
Proof. reflexivity. Qed.

Lemma for_each_app {A} (xs ys : list A) (body : A -> M unit) (w : world) :
  for_each (xs ++ ys) body w =
  match for_each xs body w with
  | (w', Ok _) => for_each ys body w'
  | (w', Raised e) => (w', Raised e)
  end.
Proof.
  revert w. induction xs as [|x xs IH]; intros w; [done|].
  rewrite <- app_comm_cons, !for_each_cons.
  destruct (body x w) as [w1 [[]|e]]; [apply IH | done].
Qed.

(** ** Region discovery *)

Section RegionIndex.
Context `{Collaborators}.

Lemma ensure_region_cases (self : VcfFactory) (region : string) (w : world) :
  match region_rows (vcf_assembly self) region (regions w) with
  | [] => exists r,
      region_assembly r = vcf_assembly self /\ region_seqid r = region /\
      region_factory r = vcf_pk self /\
      ensure_region self region w = (set_regions (regions w ++ [r]) w, Ok tt)
  | [_] => ensure_region self region w = (w, Ok tt)
  | _ => ensure_region self region w = (w, Raised MultipleObjectsReturned)
  end.
Proof.
  unfold ensure_region, Region_objects_get, Region_save.
  unfold_monad.
  destruct (region_rows _ _ (regions w)) as [|r1 [|r2 rest]]; simpl; [|done..].
  eexists; repeat split; done.
Qed.

Lemma region_rows_app (a s : string) (rs1 rs2 : list Region) :
  region_rows a s (rs1 ++ rs2) = (region_rows a s rs1 ++ region_rows a s rs2)%list.
Proof. apply filter_app. Qed.

Lemma region_rows_other (a s : string) (r : Region) :
  (region_assembly r, region_seqid r) <> (a, s) -> region_rows a s [r] = [].
Proof.
  intros Hne. unfold region_rows. rewrite filter_cons_False; [done|].
  unfold region_matches. intros Hm. apply andb_true_iff in Hm as [H1 H2].
  apply bool_decide_eq_true in H1, H2. congruence.
Qed.

Lemma region_rows_self (r : Region) :
  region_rows (region_assembly r) (region_seqid r) [r] = [r].
Proof.
  unfold region_rows. rewrite filter_cons_True; [done|].
  unfold region_matches. by rewrite !bool_decide_eq_true_2.
Qed.

(** The loop only appends rows, and only for keys that had no row. *)
Lemma load_regions_rows (self : VcfFactory) (cs : list string) (w : world) (a s : string) :
  let w' := fst (for_each cs (ensure_region self) w) in
  (exists new, regions w' = (regions w ++ new)%list /\
     Forall (fun r => region_factory r = vcf_pk self) new) /\
  (region_rows a s (regions w) <> [] ->
     region_rows a s (regions w') = region_rows a s (regions w)) /\
  (region_rows a s (regions w) = [] -> length (region_rows a s (regions w')) <= 1).
Proof.
  revert w. induction cs as [|c cs IH]; intros w.
  { simpl. split; [exists []; by rewrite app_nil_r|]. split; [done|]. intros ->. simpl; lia. }
  cbv zeta. rewrite for_each_cons.
  pose proof (ensure_region_cases self c w) as Hc.
  destruct (region_rows (vcf_assembly self) c (regions w)) as [|r1 [|r2 rest]] eqn:Hrows.
  - destruct Hc as (r & Ha & Hs & Hf & ->).
    specialize (IH (set_regions (regions w ++ [r]) w)). simpl in IH.
    destruct IH as ((new & Hnew & Hfn) & Hkeep & Hfresh).
    split; [|split].
    + exists (r :: new). rewrite Hnew, <- app_assoc. split; [done|]. by constructor.
    + intros Hne. rewrite region_rows_app in Hkeep.
      assert (region_rows a s [r] = []) as Hr.
      { apply region_rows_other. rewrite Ha, Hs. intros [= <- <-]. by rewrite Hrows in Hne. }
      rewrite Hr, app_nil_r in Hkeep. by apply Hkeep.
    + intros Hnone. rewrite region_rows_app, Hnone in Hkeep, Hfresh. simpl in *.
      destruct (decide ((region_assembly r, region_seqid r) = (a, s))) as [[= <- <-]|Hne].
      * rewrite region_rows_self in Hkeep. rewrite Hkeep; [simpl; lia | done].
      * rewrite (region_rows_other _ _ _ Hne) in Hfresh. by apply Hfresh.
  - rewrite Hc. apply IH.
  - rewrite Hc. simpl. split; [exists []; by rewrite app_nil_r|]. split; [done|].
    intros ->. simpl; lia.
Qed.

Lemma load_regions_again (self : VcfFactory) (cs : list string) (w : world) :
  for_each cs (ensure_region self) (fst (for_each cs (ensure_region self) w)) =
  for_each cs (ensure_region self) w.
Proof.
  revert w. induction cs as [|c cs IH]; intros w; [done|].
  rewrite (for_each_cons c cs _ w).
  pose proof (ensure_region_cases self c w) as Hc.
  assert (forall w1 : world,
    length (region_rows (vcf_assembly self) c (regions w1)) = 1 ->
    for_each (c :: cs) (ensure_region self) (fst (for_each cs (ensure_region self) w1)) =
    for_each cs (ensure_region self) w1) as Hone.
  { intros w1 Hlen. rewrite for_each_cons.
    pose proof (load_regions_rows self cs w1 (vcf_assembly self) c) as (_ & Hkeep & _).
    simpl in Hkeep.
    pose proof (ensure_region_cases self c (fst (for_each cs (ensure_region self) w1))) as Hc'.
    rewrite Hkeep in Hc' by (intros E; by rewrite E in Hlen).
    destruct (region_rows _ c (regions w1)) as [|r1 [|r2 rest]]; try done.
    rewrite Hc'. apply IH. }
  destruct (region_rows (vcf_assembly self) c (regions w)) as [|r1 [|r2 rest]] eqn:Hrows.
  - destruct Hc as (r & Ha & Hs & Hf & ->). apply Hone. simpl.
    rewrite region_rows_app, Hrows. simpl. rewrite <- Ha, <- Hs at 1.
    by rewrite region_rows_self.
  - rewrite Hc. apply Hone. by rewrite Hrows.
  - rewrite Hc. cbn [fst]. by rewrite for_each_cons, Hc.
Qed.

End RegionIndex.

(** C9. Running [load_regions] a second time on the same source and file
    leaves the store exactly as the first run left it, with the same
    outcome: the set of Region rows is the same as after one call. The run
    creates at most one row for a (assembly, seqid) key that had none and
    no row for a key that had one, and the rows that existed before,
    with their owning factory, are an unchanged prefix of the table. *)
Theorem load_regions_idempotent `{Collaborators} (self : VcfFactory) (w : world) :
  let once := ClinvarFactory.load_regions self w in
  let twice := ClinvarFactory.load_regions self (fst once) in
  GnomadFactory.load_regions self w = once /\
  twice = once /\
  regions (fst twice) = regions (fst once) /\
  (forall a s,
     length (region_rows a s (regions (fst once)))
     <= max 1 (length (region_rows a s (regions w)))) /\
  exists new, regions (fst once) = (regions w ++ new)%list /\
              Forall (fun r => region_factory r = vcf_pk self) new.
Proof.
  unfold ClinvarFactory.load_regions, GnomadFactory.load_regions, vcf_load_regions.
  simpl.
  split; [done|]. split; [apply load_regions_again|].
  split; [by rewrite load_regions_again|].
  split.
  - intros a s.
    pose proof (load_regions_rows self (reader_get_contigs (vcf_file_path self)) w a s)
      as (_ & Hkeep & Hfresh). simpl in *.
    destruct (region_rows a s (regions w)) as [|r rs] eqn:E.
    + specialize (Hfresh eq_refl). simpl. lia.
    + rewrite Hkeep by done. simpl. lia.
  - apply (load_regions_rows self _ w EmptyString EmptyString).
Qed.

(** ** The gnomAD constraint reader and the batch loader *)

Section BatchLoader.
Context `{Collaborators}.

Lemma get_genes_next_all (rows : list (gmap string string)) :
  match get_genes_next rows with
  | Yield gene rest =>
      get_genes_all rows = (gene :: fst (get_genes_all rest), snd (get_genes_all rest))
      /\ length rest < length rows
  | StopIteration => get_genes_all rows = ([], None)
  | GenRaise e => get_genes_all rows = ([], Some e)
  end.
Proof.
  induction rows as [|row rows IH]; simpl; [done|].
  destruct (gene_reader_row row) as [[gene|err]|e]; [split; [done|lia] | | done].
  destruct (get_genes_next rows) as [gene rest| |e]; [|done..].
  destruct IH as [-> Hlen]. split; [done|lia].
Qed.

(** Each gene pulled consumes at least one row. *)
Lemma islice_list_consumes (n : nat) (rows : list (gmap string string)) batch rest :
  islice_list n rows = Ok (batch, rest) ->
  length batch + length rest <= length rows /\ length batch <= n.
Proof.
  revert rows batch rest. induction n as [|n IH]; intros rows batch rest; simpl.
  { intros [= <- <-]. simpl; lia. }
  pose proof (get_genes_next_all rows) as Hnext.
  destruct (get_genes_next rows) as [gene rows'| |e]; [| |done].
  - destruct (islice_list n rows') as [[batch' rest']|e] eqn:E; [|done].
    intros [= <- <-]. destruct (IH _ _ _ E). destruct Hnext. simpl; lia.
  - intros [= <- <-]. simpl; lia.
Qed.

(** On a file that reads cleanly a pull of [n] items gives the next [n]
    valid genes and leaves a generator that reads cleanly. *)
Lemma islice_list_clean (n : nat) (rows : list (gmap string string)) :
  snd (get_genes_all rows) = None ->
  exists rest,
    islice_list n rows = Ok (take n (fst (get_genes_all rows)), rest) /\
    fst (get_genes_all rest) = drop n (fst (get_genes_all rows)) /\
    snd (get_genes_all rest) = None.
Proof.
  revert rows. induction n as [|n IH]; intros rows Hclean; simpl.
  { exists rows. by rewrite take_0, drop_0. }
  pose proof (get_genes_next_all rows) as Hnext.
  destruct (get_genes_next rows) as [gene rows'| |e].
  - destruct Hnext as [Hall _]. rewrite Hall in Hclean |- *. simpl in *.
    destruct (IH rows' Hclean) as (rest & -> & Hrest & Hc). by exists rest.
  - rewrite Hnext. by exists [].
  - by rewrite Hnext in Hclean.
Qed.

(** With more fuel than rows left the loop ends, and its result does not
    depend on the fuel. *)
Lemma load_genes_loop_terminates (self : GnomadConstraintFactory) (batch_size : Z)
    (n : nat) :
  forall (rows : list (gmap string string)) (fuel : nat) (w : world),
  length rows = n ->
  n < fuel ->
  GnomadConstraintFactory.load_genes_loop fuel self batch_size rows w =
  GnomadConstraintFactory.load_genes_loop (S n) self batch_size rows w
  /\ snd (GnomadConstraintFactory.load_genes_loop fuel self batch_size rows w) <> Ok None.
Proof.
  induction n as [n IH] using lt_wf_ind. intros rows fuel w Hn Hfuel.
  destruct fuel as [|fuel]; [lia|]. simpl.
  destruct (islice rows batch_size) as [[batch rest]|e] eqn:E; [|done].
  destruct batch as [|gene batch]; [done|].
  unfold islice in E. case_bool_decide; [|done].
  apply islice_list_consumes in E as [Hlen _]. simpl in Hlen.
  unfold bind, GnomadConstraintFactory.load_genes_by_batch, modify.
  set (w1 := set_genes _ w).
  assert (length rest < n) as Hrest by lia.
  destruct (IH (length rest) Hrest rest fuel w1 eq_refl ltac:(lia)) as [E1 Hne].
  destruct (IH (length rest) Hrest rest n w1 eq_refl ltac:(lia)) as [E2 _].
  split; [congruence | done].
Qed.

End BatchLoader.

(** C10. For a batch size of at least one, [load_genes] ends on every TSV
    file (a finite list of rows): one more iteration than the file has rows
    is always enough, whatever the store, and any larger bound gives the
    same result and the same store. Each iteration pulls at most
    [batch_size] genes, and the loop is left on the first empty batch. *)
Theorem load_genes_terminates `{Collaborators} (self : GnomadConstraintFactory)
    (batch_size : Z) (w : world) :
  (batch_size >= 1)%Z ->
  forall fuel, length (get_genes (gc_file_path self)) < fuel ->
    GnomadConstraintFactory.load_genes fuel self batch_size w =
    GnomadConstraintFactory.load_genes
      (S (length (get_genes (gc_file_path self)))) self batch_size w
    /\ snd (GnomadConstraintFactory.load_genes fuel self batch_size w) <> Ok None.
Proof.
  intros _ fuel Hfuel. unfold GnomadConstraintFactory.load_genes, bind, modify.
  by apply load_genes_loop_terminates.
Qed.

Lemma load_genes_terminates_witness :
  (100 >= 1)%Z /\
  forall fuel, length (get_genes (H := demo false) "constraint.tsv") < fuel ->
    GnomadConstraintFactory.load_genes (H := demo false) fuel
      (demo_constraint "constraint.tsv") 100 empty_world =
    GnomadConstraintFactory.load_genes (H := demo false) 4
      (demo_constraint "constraint.tsv") 100 empty_world
    /\ snd (GnomadConstraintFactory.load_genes (H := demo false) fuel
              (demo_constraint "constraint.tsv") 100 empty_world) <> Ok None.
Proof.
  split; [lia|].
  apply (load_genes_terminates (H := demo false) (demo_constraint "constraint.tsv")
           100 empty_world).
  lia.
Defined.

(** ** Batches *)

Lemma batches_upto_enough {A} (n : nat) (l : list A) (fuel : nat) :
  1 <= n -> length l <= fuel -> batches_upto fuel n l = batches n l.
Proof.
  intros Hn. unfold batches. remember (length l) as k eqn:Hk.
  revert l fuel Hk. induction k as [k IH] using lt_wf_ind. intros l fuel Hk Hfuel.
  destruct l as [|x l]; [by destruct fuel, k|].
  destruct fuel as [|fuel]; [simpl in *; lia|]. destruct k as [|k]; [done|].
  simpl in Hk. simpl. f_equal.
  assert (length (drop n (x :: l)) <= k) as Hd by (rewrite length_drop; simpl; lia).
  rewrite (IH (length (drop n (x :: l))) ltac:(lia) _ fuel eq_refl ltac:(lia)).
  by rewrite (IH (length (drop n (x :: l))) ltac:(lia) _ k eq_refl ltac:(lia)).
Qed.

Lemma batches_cons {A} (n : nat) (l : list A) :
  1 <= n -> l <> [] -> batches n l = take n l :: batches n (drop n l).
Proof.
  intros Hn Hl. destruct l as [|x l]; [done|].
  unfold batches at 1. simpl length. cbn [batches_upto]. f_equal.
  apply batches_upto_enough; [done|]. rewrite length_drop. simpl. lia.
Qed.

Lemma batches_nil {A} (n : nat) : batches n (@nil A) = [].
Proof. done. Qed.

Lemma batches_spec {A} (n : nat) (l : list A) :
  1 <= n ->
  concat (batches n l) = l /\ Forall (fun b => 1 <= length b <= n) (batches n l).
Proof.
  intros Hn. remember (length l) as k eqn:Hk.
  revert l Hk. induction k as [k IH] using lt_wf_ind. intros l Hk.
  destruct l as [|x l]; [by split|].
  rewrite batches_cons by done.
  destruct (IH (length (drop n (x :: l)))) with (l := drop n (x :: l)) as [Hc Hf]; [|done|].
  { rewrite length_drop. simpl in *. lia. }
  split.
  - simpl concat. rewrite Hc. apply take_drop.
  - constructor; [|done]. rewrite length_take. simpl. lia.
Qed.

Section BatchLoaderReplace.
Context `{Collaborators}.

Lemma load_genes_by_batch_all (self : GnomadConstraintFactory)
    (groups : list (list GnomadConstraintGeneModel)) (w : world) :
  for_each groups (GnomadConstraintFactory.load_genes_by_batch self) w =
  (set_genes (genes w ++ (gene_row self <$> concat groups)) w, Ok tt).
Proof.
  revert w. induction groups as [|g groups IH]; intros w.
  { simpl. unfold ret. rewrite app_nil_r. by destruct w. }
  rewrite for_each_cons. unfold GnomadConstraintFactory.load_genes_by_batch at 1, modify.
  rewrite IH. simpl. by rewrite fmap_app, app_assoc.
Qed.

Lemma load_genes_loop_clean (self : GnomadConstraintFactory) (batch_size : Z) (n : nat) :
  (1 <= batch_size <= sys_maxsize)%Z ->
  forall (rows : list (gmap string string)) (fuel : nat) (w : world),
  length rows = n -> n < fuel ->
  snd (get_genes_all rows) = None ->
  GnomadConstraintFactory.load_genes_loop fuel self batch_size rows w =
  (fst (for_each (batches (Z.to_nat batch_size) (fst (get_genes_all rows)))
                 (GnomadConstraintFactory.load_genes_by_batch self) w), Ok (Some tt)).
Proof.
  intros Hbs. induction n as [n IH] using lt_wf_ind. intros rows fuel w Hn Hfuel Hclean.
  destruct fuel as [|fuel]; [lia|]. simpl.
  unfold islice. rewrite bool_decide_eq_true_2 by lia.
  destruct (islice_list_clean (Z.to_nat batch_size) rows Hclean) as (rest & E & Hrest & Hc).
  rewrite E.
  destruct (fst (get_genes_all rows)) as [|gene valid] eqn:Hvalid.
  { rewrite take_nil. done. }
  assert (1 <= Z.to_nat batch_size) as Hnb by lia.
  rewrite batches_cons by done. rewrite <- Hrest.
  apply islice_list_consumes in E as [Hlen _].
  destruct (take (Z.to_nat batch_size) (gene :: valid)) as [|g batch] eqn:Ht.
  { apply (f_equal length) in Ht. rewrite length_take in Ht. simpl in Ht. lia. }
  rewrite for_each_cons. simpl in Hlen.
  unfold bind. unfold GnomadConstraintFactory.load_genes_by_batch at 1 3, modify.
  apply (IH (length rest)); [lia|done|lia|done].
Qed.

(** The passes of the loop, one by one: [n] passes insert the first [n]
    batches, each with one call of [load_genes_by_batch], and the loop has
    ended when [n] exceeds the number of batches. *)
Lemma load_genes_loop_passes (self : GnomadConstraintFactory) (batch_size : Z) (n : nat) :
  (1 <= batch_size <= sys_maxsize)%Z ->
  forall (rows : list (gmap string string)) (w : world),
  snd (get_genes_all rows) = None ->
  let groups := batches (Z.to_nat batch_size) (fst (get_genes_all rows)) in
  GnomadConstraintFactory.load_genes_loop n self batch_size rows w =
  (fst (for_each (take n groups) (GnomadConstraintFactory.load_genes_by_batch self) w),
   if decide (n <= length groups) then Ok None else Ok (Some tt)).
Proof.
  intros Hbs. induction n as [|n IH]; intros rows w Hclean groups.
  { rewrite take_0. destruct (decide (0 <= length groups)) as [_|Hn]; [done|lia]. }
  cbn [GnomadConstraintFactory.load_genes_loop].
  unfold islice. rewrite bool_decide_eq_true_2 by lia.
  destruct (islice_list_clean (Z.to_nat batch_size) rows Hclean) as (rest & E & Hrest & Hc).
  rewrite E. subst groups.
  destruct (fst (get_genes_all rows)) as [|gene valid] eqn:Hvalid.
  { rewrite take_nil, batches_nil, take_nil.
    destruct (decide (S n <= length [])) as [Hn|_]; [simpl in Hn; lia|done]. }
  assert (1 <= Z.to_nat batch_size) as Hnb by lia.
  rewrite batches_cons by done. rewrite <- Hrest.
  destruct (take (Z.to_nat batch_size) (gene :: valid)) as [|g batch] eqn:Ht.
  { apply (f_equal length) in Ht. rewrite length_take in Ht. simpl in Ht. lia. }
  rewrite firstn_cons, for_each_cons.
  unfold bind. unfold GnomadConstraintFactory.load_genes_by_batch at 1 3, modify.
  rewrite (IH rest _ Hc). cbn [length]. f_equal.
  destruct (decide (n <= _)); destruct (decide (S n <= S _)); try done; lia.
Qed.

End BatchLoaderReplace.

Lemma owned_genes_replaced `{Collaborators} (self : GnomadConstraintFactory)
    (w : world) (new : list GnomadConstraintGeneModel) :
  owned_genes self
    (set_genes (filter (fun g => gene_factory g <> gc_pk self) (genes w)
                ++ (gene_row self <$> new)) w)
  = gene_row self <$> new.
Proof.
  unfold owned_genes. simpl. rewrite filter_app.
  assert (filter (fun g => gene_factory g = gc_pk self)
            (filter (fun g => gene_factory g <> gc_pk self) (genes w)) = []) as ->.
  { induction (genes w) as [|g gs IH]; [done|].
    destruct (decide (gene_factory g = gc_pk self)) as [E|E].
    - by rewrite filter_cons_False by naive_solver.
    - rewrite filter_cons_True by done. by rewrite filter_cons_False. }
  simpl. induction new as [|x new IH]; [done|].
  rewrite fmap_cons, filter_cons_True by done. by f_equal.
Qed.

(** C5, as the code has it. For a batch size between 1 and [sys.maxsize]
    and a file on which [get_genes] does not raise, [load_genes] is the
    deletion of every Gene row of this factory followed by one grouped
    insert per batch, where the batches cut the file's valid records, in
    stream order, into consecutive groups of at most [batch_size] records;
    the factory's rows are then exactly those records, so an input without
    valid records leaves the factory with no Gene row. The stage called
    without a batch size uses 100. The batches are those of the loop
    itself: stopped after [n] passes, [load_genes] has made the grouped
    inserts of the first [n] batches and no other, and it has ended when
    [n] exceeds the number of batches. *)
Theorem load_genes_replaces `{Collaborators} (self : GnomadConstraintFactory)
    (batch_size : Z) (w : world) :
  (1 <= batch_size <= sys_maxsize)%Z ->
  reads_cleanly (gc_file_path self) ->
  let groups := batches (Z.to_nat batch_size) (valid_genes (gc_file_path self)) in
  (forall fuel, length (get_genes (gc_file_path self)) < fuel ->
     GnomadConstraintFactory.load_genes fuel self batch_size w =
     (fst (replace_genes self groups w), Ok (Some tt))) /\
  snd (replace_genes self groups w) = Ok tt /\
  concat groups = valid_genes (gc_file_path self) /\
  Forall (fun b => 1 <= length b <= Z.to_nat batch_size) groups /\
  genes (fst (replace_genes self groups w)) =
    (filter (fun g => gene_factory g <> gc_pk self) (genes w)
     ++ (gene_row self <$> valid_genes (gc_file_path self)))%list /\
  inserts_valid_records self batch_size w /\
  (valid_genes (gc_file_path self) = [] ->
     forall fuel, length (get_genes (gc_file_path self)) < fuel ->
       owned_genes self (fst (GnomadConstraintFactory.load_genes fuel self batch_size w)) = []) /\
  (forall fuel, GnomadConstraintFactory.run fuel self "load_genes" ∅ =
                GnomadConstraintFactory.load_genes fuel self 100) /\
  (forall n, GnomadConstraintFactory.load_genes n self batch_size w =
             (fst (replace_genes self (take n groups) w),
              if decide (n <= length groups) then Ok None else Ok (Some tt))).
Proof.
  intros Hbs Hclean groups.
  assert (forall n, GnomadConstraintFactory.load_genes n self batch_size w =
             (fst (replace_genes self (take n groups) w),
              if decide (n <= length groups) then Ok None else Ok (Some tt))) as Hpasses.
  { intros n. unfold GnomadConstraintFactory.load_genes, replace_genes, bind, modify.
    rewrite (load_genes_loop_passes self batch_size n Hbs _ _ Hclean). cbv zeta.
    fold (valid_genes (gc_file_path self)). fold groups.
    by destruct (for_each (take n groups) _ _) as [w1 [[]|e]]. }
  assert (1 <= Z.to_nat batch_size) as Hnb by lia.
  destruct (batches_spec (Z.to_nat batch_size) (valid_genes (gc_file_path self)) Hnb)
    as [Hconcat Hbounds]. fold groups in Hconcat, Hbounds.
  assert (replace_genes self groups w =
          (set_genes (filter (fun g => gene_factory g <> gc_pk self) (genes w)
                      ++ (gene_row self <$> valid_genes (gc_file_path self))) w, Ok tt))
    as Hreplace.
  { unfold replace_genes, bind, modify. rewrite load_genes_by_batch_all, Hconcat. done. }
  assert (forall fuel, length (get_genes (gc_file_path self)) < fuel ->
     GnomadConstraintFactory.load_genes fuel self batch_size w =
     (fst (replace_genes self groups w), Ok (Some tt))) as Hload.
  { intros fuel Hfuel. unfold GnomadConstraintFactory.load_genes, bind, modify.
    rewrite (load_genes_loop_clean self batch_size _ Hbs _ fuel _ eq_refl Hfuel Hclean).
    unfold replace_genes, bind, modify. done. }
  assert (inserts_valid_records self batch_size w) as Hins.
  { intros fuel Hfuel. rewrite (Hload fuel Hfuel), Hreplace. cbn [fst].
    apply owned_genes_replaced. }
  repeat split; try done.
  - by rewrite Hreplace.
  - by rewrite Hreplace.
  - intros Hnone fuel Hfuel. rewrite (Hins fuel Hfuel), Hnone. done.
Qed.

Lemma load_genes_replaces_witness :
  (1 <= 1 <= sys_maxsize)%Z /\
  reads_cleanly (H := demo false) "constraint.tsv" /\
  inserts_valid_records (H := demo false) (demo_constraint "constraint.tsv") 1 empty_world /\
  gene_name <$> genes (fst (GnomadConstraintFactory.load_genes (H := demo false) 1
                              (demo_constraint "constraint.tsv") 1 empty_world))
    = ["BRCA1"].
Proof.
  assert (1 <= 1 <= sys_maxsize)%Z as Hbs by (vm_compute; split; discriminate).
  assert (reads_cleanly (H := demo false) (gc_file_path (demo_constraint "constraint.tsv")))
    as Hclean by (vm_compute; reflexivity).
  destruct (load_genes_replaces (H := demo false) (demo_constraint "constraint.tsv") 1
              empty_world Hbs Hclean)
    as (_ & _ & _ & _ & _ & Hinserts & _ & _ & Hpasses).
  split; [exact Hbs|]. split; [exact Hclean|]. split; [exact Hinserts|].
  rewrite (Hpasses 1). reflexivity.
Defined.

(** C5, as stated, fails for the batch size 0: the rows of the factory are
    deleted and nothing is inserted although the file has valid records. *)
Lemma load_genes_batch_size_zero :
  valid_genes (H := demo false) "constraint.tsv" <> [] /\
  ~ inserts_valid_records (H := demo false) (demo_constraint "constraint.tsv") 0 empty_world.
Proof.
  split; [by vm_compute|].
  intros Hclaim. specialize (Hclaim 4 ltac:(vm_compute; lia)).
  vm_compute in Hclaim. discriminate.
Qed.

(** ** The positional loader *)

Section PositionalLoader.
Context `{Collaborators}.
Variable Model : vcf_variant -> option VariantModel.

(** The upserts never alter or remove a stored row. *)
Lemma load_variant_appends (self : VcfFactory) (region_obj : Region) (r : vcf_variant)
    (w : world) :
  let w' := fst (load_variant Model self region_obj r w) in
  (exists new, variant_annotations w' = (variant_annotations w ++ new)%list) /\
  (exists new, variants w' = (variants w ++ new)%list) /\
  regions w' = regions w.
Proof.
  unfold load_variant, Variant_objects_get_or_create,
    VariantAnnotation_objects_get_or_create.
  unfold_monad.
  destruct (Model r) as [m|]; simpl; [|by split; [exists []|split; [exists []|]]; rewrite ?app_nil_r].
  destruct (variant_rows _ _ _ _ (variants w)) as [|v1 [|v2 vs]]; simpl.
  - destruct (annotation_rows_with _ _ _ (variant_annotations w)) as [|a1 [|a2 rest]]; simpl.
    + destruct (variant_annotation_unique && _); simpl;
        (split; [eexists; try done; by rewrite app_nil_r|]); by split; [eexists|].
    + split; [exists []; by rewrite app_nil_r|]. by split; [eexists|].
    + split; [exists []; by rewrite app_nil_r|]. by split; [eexists|].
  - destruct (annotation_rows_with _ _ _ (variant_annotations w)) as [|a1 [|a2 rest]]; simpl.
    + destruct (variant_annotation_unique && _); simpl;
        (split; [eexists; try done; by rewrite app_nil_r|]);
        by split; [exists []; rewrite app_nil_r|].
    + split; [exists []; by rewrite app_nil_r|]. by split; [exists []; rewrite app_nil_r|].
    + split; [exists []; by rewrite app_nil_r|]. by split; [exists []; rewrite app_nil_r|].
  - split; [exists []; by rewrite app_nil_r|]. by split; [exists []; rewrite app_nil_r|].
Qed.

Lemma load_variants_for_region_appends (self : VcfFactory) (region : string) (w : world) :
  let w' := fst (vcf_load_variants_for_region Model self region w) in
  (exists new, variant_annotations w' = (variant_annotations w ++ new)%list) /\
  (exists new, variants w' = (variants w ++ new)%list) /\
  regions w' = regions w.
Proof.
  unfold vcf_load_variants_for_region, Region_objects_get. unfold_monad.
  destruct (region_rows _ _ (regions w)) as [|region_obj [|r2 rs]]; simpl;
    try (by split; [exists []|split; [exists []|]]; rewrite ?app_nil_r).
  generalize (reader_get_variants (vcf_file_path self) region). intros records.
  revert w. induction records as [|r records IH]; intros w.
  { simpl. by split; [exists []|split; [exists []|]]; rewrite ?app_nil_r. }
  rewrite for_each_cons.
  pose proof (load_variant_appends self region_obj r w) as Hstep.
  destruct (load_variant Model self region_obj r w) as [w1 [[]|e]]; simpl in Hstep; [|done].
  destruct Hstep as ((n1 & E1) & (n2 & E2) & E3).
  destruct (IH w1) as ((m1 & F1) & (m2 & F2) & F3).
  split; [|split].
  - exists (n1 ++ m1)%list. by rewrite F1, E1, app_assoc.
  - exists (n2 ++ m2)%list. by rewrite F2, E2, app_assoc.
  - by rewrite F3.
Qed.

Lemma variant_rows_app (region_obj : Region) pos ref alt (vs1 vs2 : list Variant) :
  variant_rows region_obj pos ref alt (vs1 ++ vs2) =
  (variant_rows region_obj pos ref alt vs1 ++ variant_rows region_obj pos ref alt vs2)%list.
Proof. apply filter_app. Qed.

Lemma variant_rows_new (region_obj : Region) pos ref alt pk pos' ref' alt' :
  variant_rows region_obj pos ref alt [mkVariant pk region_obj pos' ref' alt'] =
  if decide ((pos', ref', alt') = (pos, ref, alt))
  then [mkVariant pk region_obj pos' ref' alt'] else [].
Proof.
  unfold variant_rows. case_decide as E.
  - injection E as -> -> ->. rewrite filter_cons_True; [done|].
    unfold variant_matches. simpl. by rewrite !bool_decide_eq_true_2.
  - rewrite filter_cons_False; [done|].
    unfold variant_matches. simpl. intros Hm.
    apply andb_true_iff in Hm as [Hm H4]. apply andb_true_iff in Hm as [Hm H3].
    apply andb_true_iff in Hm as [_ H2].
    apply bool_decide_eq_true in H2, H3, H4. congruence.
Qed.

Lemma annotation_rows_with_app f v meta (rows1 rows2 : list VariantAnnotation) :
  annotation_rows_with f v meta (rows1 ++ rows2) =
  (annotation_rows_with f v meta rows1 ++ annotation_rows_with f v meta rows2)%list.
Proof. apply filter_app. Qed.

Lemma annotation_rows_with_new f v meta f' v' meta' :
  annotation_rows_with f v meta [mkVariantAnnotation f' v' meta'] =
  if decide ((f', v', meta') = (f, v, meta))
  then [mkVariantAnnotation f' v' meta'] else [].
Proof.
  unfold annotation_rows_with. case_decide as E.
  - injection E as -> -> ->. rewrite filter_cons_True; [done|].
    unfold annotation_matches. simpl. by rewrite !bool_decide_eq_true_2.
  - rewrite filter_cons_False; [done|].
    unfold annotation_matches. simpl. intros Hm.
    apply andb_true_iff in Hm as [Hm H3]. apply andb_true_iff in Hm as [H1 H2].
    apply bool_decide_eq_true in H1, H2, H3. congruence.
Qed.

(** A settled record is passed over without a write. *)
Lemma load_variant_settled (self : VcfFactory) (region_obj : Region) (r : vcf_variant)
    (w : world) :
  settled Model self region_obj r w ->
  load_variant Model self region_obj r w = (w, Ok tt).
Proof.
  intros (m & v & a & Hm & Hv & Ha).
  unfold load_variant, Variant_objects_get_or_create,
    VariantAnnotation_objects_get_or_create.
  unfold_monad. rewrite Hm. simpl. rewrite Hv. simpl. by rewrite Ha.
Qed.

(** A record that was loaded is settled. *)
Lemma load_variant_settles (self : VcfFactory) (region_obj : Region) (r : vcf_variant)
    (w w' : world) :
  load_variant Model self region_obj r w = (w', Ok tt) ->
  settled Model self region_obj r w'.
Proof.
  unfold load_variant, Variant_objects_get_or_create,
    VariantAnnotation_objects_get_or_create, settled.
  unfold_monad.
  destruct (Model r) as [m|] eqn:Hm; simpl; [|done].
  destruct (variant_rows _ _ _ _ (variants w)) as [|v1 [|v2 vs]] eqn:Hv; simpl; [| |done].
  - set (v := mkVariant _ _ _ _ _).
    assert (variant_rows region_obj (vm_pos m) (vm_ref m) (vm_alt m) (variants w ++ [v])
            = [v]) as Hv'.
    { rewrite variant_rows_app, Hv. unfold v. rewrite variant_rows_new.
      by rewrite decide_True. }
    destruct (annotation_rows_with _ _ _ (variant_annotations w))
      as [|a1 [|a2 rest]] eqn:Ha; simpl; [| |done].
    + destruct (variant_annotation_unique && _); simpl; [done|].
      intros [= <-]. exists m, v. eexists. split; [done|]. split; [done|]. simpl.
      rewrite annotation_rows_with_app, Ha, annotation_rows_with_new.
      by rewrite decide_True.
    + intros [= <-]. exists m, v, a1. by repeat split.
  - destruct (annotation_rows_with _ _ _ (variant_annotations w))
      as [|a1 [|a2 rest]] eqn:Ha; simpl; [| |done].
    + destruct (variant_annotation_unique && _); simpl; [done|].
      intros [= <-]. exists m, v1. eexists. split; [done|]. split; [done|]. simpl.
      rewrite annotation_rows_with_app, Ha, annotation_rows_with_new.
      by rewrite decide_True.
    + intros [= <-]. exists m, v1, a1. by repeat split.
Qed.

Lemma variant_upsert_keeps (region_obj : Region) pos' ref' alt' (w : world)
    pos ref alt (v : Variant) :
  variant_rows region_obj pos ref alt (variants w) = [v] ->
  let w' := fst (Variant_objects_get_or_create region_obj pos' ref' alt' w) in
  variant_rows region_obj pos ref alt (variants w') = [v] /\
  variant_annotations w' = variant_annotations w.
Proof.
  intros Hv. unfold Variant_objects_get_or_create. unfold_monad.
  destruct (variant_rows _ pos' _ _ (variants w)) as [|v1 [|v2 vs]] eqn:Hv'; simpl;
    [|done..].
  split; [|done]. rewrite variant_rows_app, Hv, variant_rows_new.
  case_decide as E; [|done]. injection E as -> -> ->. congruence.
Qed.

Lemma annotation_upsert_keeps f' v' meta' (w : world) f v meta (a : VariantAnnotation) :
  annotation_rows_with f v meta (variant_annotations w) = [a] ->
  let w' := fst (VariantAnnotation_objects_get_or_create f' v' meta' w) in
  annotation_rows_with f v meta (variant_annotations w') = [a] /\
  variants w' = variants w.
Proof.
  intros Ha. unfold VariantAnnotation_objects_get_or_create. unfold_monad.
  destruct (annotation_rows_with f' _ _ (variant_annotations w))
    as [|a1 [|a2 rest]] eqn:Ha'; simpl; [|done..].
  destruct (variant_annotation_unique && _); simpl; [done|].
  split; [|done]. rewrite annotation_rows_with_app, Ha, annotation_rows_with_new.
  case_decide as E; [|done]. injection E as -> -> ->. congruence.
Qed.

(** Loading another record does not unsettle a settled one. *)
Lemma load_variant_keeps_settled (self : VcfFactory) (region_obj : Region)
    (r r' : vcf_variant) (w : world) :
  settled Model self region_obj r w ->
  settled Model self region_obj r (fst (load_variant Model self region_obj r' w)).
Proof.
  intros (m & v & a & Hm & Hv & Ha). unfold load_variant.
  destruct (Model r') as [m'|]; [|by exists m, v, a].
  unfold bind at 1. unfold ret at 1. unfold bind at 1.
  pose proof (variant_upsert_keeps region_obj (vm_pos m') (vm_ref m') (vm_alt m') w
                _ _ _ v Hv) as [Hv1 Ha1].
  destruct (Variant_objects_get_or_create _ _ _ _ w) as [w1 [got|e]]; simpl in *;
    [|exists m, v, a; by rewrite Ha1].
  rewrite <- Ha1 in Ha. unfold bind.
  pose proof (annotation_upsert_keeps (vcf_pk self) (variant_pk got.1) (vm_infos m') w1
                _ _ _ a Ha) as [Ha2 Hv2].
  destruct (VariantAnnotation_objects_get_or_create _ _ _ w1) as [w2 [x|e]]; simpl in *;
    exists m, v, a; by rewrite Hv2.
Qed.

Lemma load_variants_keep_settled (self : VcfFactory) (region_obj : Region)
    (r : vcf_variant) (records : list vcf_variant) (w : world) :
  settled Model self region_obj r w ->
  settled Model self region_obj r
    (fst (for_each records (load_variant Model self region_obj) w)).
Proof.
  revert w. induction records as [|r' records IH]; intros w Hs; [done|].
  rewrite for_each_cons.
  pose proof (load_variant_keeps_settled self region_obj r r' w Hs) as Hs'.
  destruct (load_variant Model self region_obj r' w) as [w1 [[]|e]]; [by apply IH|done].
Qed.

Lemma load_variants_settle (self : VcfFactory) (region_obj : Region)
    (records : list vcf_variant) (w w' : world) :
  for_each records (load_variant Model self region_obj) w = (w', Ok tt) ->
  Forall (fun r => settled Model self region_obj r w') records.
Proof.
  revert w. induction records as [|r records IH]; intros w; [done|].
  rewrite for_each_cons.
  destruct (load_variant Model self region_obj r w) as [w1 [[]|e]] eqn:Hstep; [|done].
  intros Hrest. constructor; [|by eapply IH].
  apply load_variant_settles in Hstep.
  pose proof (load_variants_keep_settled self region_obj r records w1 Hstep) as Hk.
  by rewrite Hrest in Hk.
Qed.

Lemma load_variants_settled (self : VcfFactory) (region_obj : Region)
    (records : list vcf_variant) (w : world) :
  Forall (fun r => settled Model self region_obj r w) records ->
  for_each records (load_variant Model self region_obj) w = (w, Ok tt).
Proof.
  induction 1 as [|r records Hr _ IH]; [done|].
  by rewrite for_each_cons, load_variant_settled.
Qed.

(** Loading a region again, from the same file, after a load that ended
    normally: nothing is written. *)
Lemma load_variants_for_region_again (self : VcfFactory) (region : string) (w w' : world) :
  vcf_load_variants_for_region Model self region w = (w', Ok tt) ->
  vcf_load_variants_for_region Model self region w' = (w', Ok tt).
Proof.
  intros Hrun.
  pose proof (load_variants_for_region_appends self region w) as (_ & _ & Hregions).
  rewrite Hrun in Hregions. simpl in Hregions.
  revert Hrun. unfold vcf_load_variants_for_region, Region_objects_get.
  unfold_monad. rewrite Hregions.
  destruct (region_rows _ _ (regions w)) as [|region_obj [|r2 rs]]; simpl; [done| |done].
  intros Hrun. apply load_variants_settled. by eapply load_variants_settle.
Qed.

End PositionalLoader.

(** C1, evaluated where the code departs from it. The file holds the same
    variant twice, with two payloads. On a store that does not enforce one
    row per (factory, variant) the load ends with two VariantAnnotation rows
    for the pair; on a store that does, the second record raises
    [IntegrityError] out of the work unit. In both the first row stays as
    it was written. *)
Theorem load_variants_for_region_conflicting_payload :
  let self := demo_clinvar "conflict.vcf" in
  let lax := ClinvarFactory.load_variants_for_region (H := demo false) self "1"
               demo_loaded_regions in
  let strict := ClinvarFactory.load_variants_for_region (H := demo true) self "1"
                  demo_loaded_regions in
  snd lax = Ok tt /\
  variant_annotations (fst lax) =
    [ mkVariantAnnotation 1 1 (infos "Benign");
      mkVariantAnnotation 1 1 (infos "Pathogenic") ] /\
  length (annotation_rows 1 1 (variant_annotations (fst lax))) = 2 /\
  snd strict = Raised IntegrityError /\
  variant_annotations (fst strict) = [ mkVariantAnnotation 1 1 (infos "Benign") ].
Proof. vm_compute. repeat split; reflexivity. Qed.

(** ** Validation failures *)

Section SkipPolicy.
Context `{Collaborators}.

(** [get_genes] advances [gene_reader] until it yields a gene. *)
Lemma get_genes_next_reader (rows : list (gmap string string)) :
  get_genes_next rows =
  match gene_reader_next rows with
  | Yield (inl gene) rest => Yield gene rest
  | Yield (inr error) rest => get_genes_next rest
  | StopIteration => StopIteration
  | GenRaise e => GenRaise e
  end.
Proof.
  destruct rows as [|row rest]; [done|]. simpl.
  by destruct (gene_reader_row row) as [[gene|error]|e].
Qed.

(** When no row makes [gene_reader] raise, [get_genes] yields the genes of
    the rows whose gene model validates, in order, and passes over the
    others. *)
Lemma get_genes_skips_invalid (rows : list (gmap string string)) :
  Forall (fun row => exists item, gene_reader_row row = Ok item) rows ->
  get_genes_all rows =
  (omap (fun row => match gene_reader_row row with
                    | Ok (inl gene) => Some gene
                    | _ => None
                    end) rows, None).
Proof.
  induction 1 as [|row rows [item Hitem] _ IH]; [done|].
  simpl. rewrite Hitem. destruct item as [gene|err]; [|done].
  by rewrite IH.
Qed.

End SkipPolicy.

(** C7, evaluated where the code departs from it. A row whose attributes
    do not validate makes [gene_reader] raise before its [try], so
    [get_genes] yields nothing of a file whose second row is valid, and
    [load_genes] ends in [ValidationError] with the factory's rows deleted
    and none inserted. A malformed record likewise ends
    [load_variants_for_region], and the valid record behind it is not
    loaded. *)
Theorem invalid_record_aborts_work_unit :
  get_genes_all (H := demo false) (get_genes (H := demo false) "malformed.tsv")
    = ([], Some ValidationError) /\
  get_genes_all (H := demo false) (drop 1 (get_genes (H := demo false) "malformed.tsv"))
    = ([mkGeneModel "TP53" "TP53" "protein_coding"
          (JObj {[ "chromosome" := JStr "2"; "start_position" := JNum 100;
                   "end_position" := JNum 200 ]})], None) /\
  (let r := GnomadConstraintFactory.load_genes (H := demo false) 3
              (demo_constraint "malformed.tsv") 100 demo_world in
   snd r = Raised ValidationError /\ owned_genes (demo_constraint "malformed.tsv") (fst r) = []) /\
  (let r := ClinvarFactory.load_variants_for_region (H := demo false)
              (demo_clinvar "broken.vcf") "1" demo_loaded_regions in
   snd r = Raised ValidationError /\ variants (fst r) = [] /\
   variant_annotations (fst r) = []).
Proof. vm_compute. repeat split; reflexivity. Qed.

(** ** Schema export *)

(** The schema key of [ClinvarFactory] and of [GnomadConstraintFactory]. *)
Lemma get_schema_keys `{Collaborators} (self : VcfFactory) (g : GnomadConstraintFactory) :
  schema_keys (ClinvarFactory.get_schema self) (str (vcf_pk self))
    = Some {[ "variant_annotations" ]} /\
  schema_keys (GnomadFactory.get_schema self) (str (vcf_pk self)) = Some {[ "genes" ]} /\
  schema_keys (GnomadConstraintFactory.get_schema g) (str (gc_pk g)) = Some {[ "genes" ]}.
Proof.
  unfold schema_keys, ClinvarFactory.get_schema, GnomadFactory.get_schema,
    GnomadConstraintFactory.get_schema.
  rewrite !lookup_singleton_eq, !dom_singleton_L. done.
Qed.

(** The key the VCF factories write under their source id. *)
Lemma initial_document_key (self : VcfFactory) (variant : Variant) (w : world) :
  written_keys (initial_document self variant w) (str (vcf_pk self))
  = Some {[ "variant_annotations" ]}.
Proof.
  unfold written_keys, contribution, initial_document.
  rewrite !lookup_singleton_eq, dom_singleton_L. done.
Qed.

(** C8, evaluated where the code departs from it. [GnomadFactory.get_schema]
    advertises the key "genes" under the source id, while
    [GnomadFactory.init_metadata] and [merge_metadata] write the key
    "variant_annotations" there. *)
Theorem gnomad_schema_key_differs :
  let self := demo_clinvar "demo.vcf" in
  let initialised := fst (GnomadFactory.init_metadata self [1] demo_world) in
  let merged := fst (GnomadFactory.merge_metadata self 1 0 demo_world) in
  schema_keys (GnomadFactory.get_schema (H := demo false) self) "1" = Some {[ "genes" ]} /\
  document initialised 1 ≫= (fun d => written_keys d "1")
    = Some {[ "variant_annotations" ]} /\
  document merged 1 ≫= (fun d => written_keys d "1")
    = Some {[ "variant_annotations" ]} /\
  ({[ "genes" ]} : gset string) <> {[ "variant_annotations" ]}.
Proof.
  repeat split; try (vm_compute; reflexivity).
  intros E. assert ("genes" ∈ ({[ "variant_annotations" ]} : gset string)) as Hin
    by (rewrite <- E; set_solver).
  set_solver.
Qed.

(** ** The overlap query *)

Section OverlapQuery.

Lemma overlapsb_spec (self : GnomadConstraintFactory) (variant : Variant) (g : Gene) :
  overlapsb self variant g = true <-> overlaps self variant g.
Proof.
  unfold overlapsb, overlaps, GnomadConstraintFactory.chromosome_in,
    GnomadConstraintFactory.start_position_lte, GnomadConstraintFactory.end_position_gte,
    gene_chromosome, gene_start_position, gene_end_position.
  rewrite !andb_true_iff, bool_decide_eq_true.
  destruct (GnomadConstraintFactory.metadata_key g "chromosome") as [[| | |c| |]|];
  destruct (GnomadConstraintFactory.metadata_key g "start_position") as [[| |s| | |]|];
  destruct (GnomadConstraintFactory.metadata_key g "end_position") as [[| |e| | |]|];
  rewrite ?bool_decide_eq_true; intuition (try discriminate).
Qed.

Lemma genes_of_variant_spec (self : GnomadConstraintFactory) (variant : Variant) (w : world) :
  GnomadConstraintFactory.genes_of_variant self variant w =
  (w, Ok (gene_metadata <$> filter (overlaps self variant) (genes w))).
Proof.
  unfold GnomadConstraintFactory.genes_of_variant. unfold_monad. do 3 f_equal.
  apply list_filter_iff. intros g. apply overlapsb_spec.
Qed.

End OverlapQuery.

(** ** The merge engine *)

Lemma for_each_ext {A} (xs : list A) (f g : A -> M unit) (w : world) :
  (forall x w, f x w = g x w) -> for_each xs f w = for_each xs g w.
Proof.
  intros Hfg. revert w. induction xs as [|x xs IH]; intros w; [done|].
  rewrite !for_each_cons, Hfg. destruct (g x w) as [w' [[]|e]]; [apply IH|done].
Qed.

Lemma same_store_refl (w : world) : same_store w w.
Proof. by repeat split. Qed.

Lemma same_store_trans (w1 w2 w3 : world) :
  same_store w1 w2 -> same_store w2 w3 -> same_store w1 w3.
Proof.
  intros (?&?&?&?&?&?) (?&?&?&?&?&?). repeat split; congruence.
Qed.

Lemma bind_ok {A B} (m : M A) (k : A -> M B) (w w' : world) (a : A) :
  m w = (w', Ok a) -> bind m k w = k a w'.
Proof. unfold bind. by intros ->. Qed.

Lemma deref_node_ok (ref : nat) (w : world) (nd : NodeVariantAnnotation) :
  objects w !! ref = Some nd -> deref_node ref w = (w, Ok nd).
Proof. unfold deref_node. unfold_monad. by intros ->. Qed.

Lemma deref_dict_ok (loc : nat) (w : world) (d : json) :
  dicts w !! loc = Some d -> deref_dict loc w = (w, Ok d).
Proof. unfold deref_dict. unfold_monad. by intros ->. Qed.

Lemma new_dict_ok (d : json) (w : world) :
  new_dict d w = (set_dicts (<[fresh (dom (dicts w)) := d]> (dicts w)) w,
                  Ok (fresh (dom (dicts w)))).
Proof. done. Qed.

Lemma set_node_metadata_ok (ref loc : nat) (w : world) (nd : NodeVariantAnnotation) :
  objects w !! ref = Some nd ->
  set_node_metadata ref loc w =
  (set_objects (<[ref := mkNode (node_pk nd) (node_variant nd) loc (node_building nd)]>
                  (objects w)) w, Ok tt).
Proof. intros Hnd. unfold set_node_metadata. by rewrite (bind_ok _ _ _ _ _ (deref_node_ok _ _ _ Hnd)). Qed.

Lemma set_node_building_ok (ref : nat) (b : building_state) (w : world)
    (nd : NodeVariantAnnotation) :
  objects w !! ref = Some nd ->
  set_node_building ref b w =
  (set_objects (<[ref := mkNode (node_pk nd) (node_variant nd) (node_metadata nd) b]>
                  (objects w)) w, Ok tt).
Proof. intros Hnd. unfold set_node_building. by rewrite (bind_ok _ _ _ _ _ (deref_node_ok _ _ _ Hnd)). Qed.

Lemma node_save_ok (ref : nat) (w : world) (nd : NodeVariantAnnotation) (d : json) :
  objects w !! ref = Some nd ->
  dicts w !! node_metadata nd = Some d ->
  node_save ref w =
  (set_node_rows (<[node_pk nd := mkNodeRow (variant_pk (node_variant nd)) d
                                    (node_building nd)]> (node_rows w)) w, Ok tt).
Proof.
  intros Hnd Hd. unfold node_save.
  rewrite (bind_ok _ _ _ _ _ (deref_node_ok _ _ _ Hnd)).
  by rewrite (bind_ok _ _ _ _ _ (deref_dict_ok _ _ _ Hd)).
Qed.

Lemma set_factories_item_ok (loc : nat) (key : string) (value : json) (w : world)
    (m fs : gmap string json) :
  dicts w !! loc = Some (JObj m) ->
  m !! "factories" = Some (JObj fs) ->
  set_factories_item loc key value w =
  (set_dicts (<[loc := JObj (<["factories" := JObj (<[key := value]> fs)]> m)]> (dicts w)) w,
   Ok tt).
Proof.
  intros Hd Hfs. unfold set_factories_item.
  rewrite (bind_ok _ _ _ _ _ (deref_dict_ok _ _ _ Hd)). by rewrite Hfs.
Qed.

(** The last three statements of [init_metadata] and [merge_metadata]:
    the instance takes the document at [loc], is marked and saved. *)
Lemma assign_mark_save (ref loc : nat) (w : world) (nd : NodeVariantAnnotation) (d : json) :
  objects w !! ref = Some nd ->
  dicts w !! loc = Some d ->
  exists w',
    bind (set_node_metadata ref loc)
      (fun _ => bind (set_node_building ref BUILDING_SUCCESS) (fun _ => node_save ref)) w
    = (w', Ok tt) /\
    same_store w w' /\
    objects w' = <[ref := mkNode (node_pk nd) (node_variant nd) loc BUILDING_SUCCESS]>
                   (objects w) /\
    dicts w' = dicts w /\
    node_rows w' = <[node_pk nd := mkNodeRow (variant_pk (node_variant nd)) d
                                     BUILDING_SUCCESS]> (node_rows w).
Proof.
  intros Hnd Hd.
  rewrite (bind_ok _ _ _ _ _ (set_node_metadata_ok _ loc _ _ Hnd)).
  erewrite bind_ok; [|apply set_node_building_ok; simpl; apply lookup_insert_eq].
  erewrite node_save_ok; [|simpl; apply lookup_insert_eq | simpl; exact Hd].
  eexists. split; [done|]. simpl. rewrite insert_insert_eq.
  split; [by repeat split|]. done.
Qed.

Section MergeEngineSteps.
Variable source_id : string.
Variable contribution_of : Variant -> M json.

(** One node of [init_metadata]. *)
Lemma init_node_with_step (ref : nat) (w : world) (nd : NodeVariantAnnotation) (c : json) :
  objects w !! ref = Some nd ->
  contribution_of (node_variant nd) w = (w, Ok c) ->
  let loc := fresh (dom (dicts w)) in
  let doc := JObj {[ "factories" := JObj {[ source_id := c ]} ]} in
  exists w',
    init_node_with source_id contribution_of ref w = (w', Ok tt) /\
    same_store w w' /\
    objects w' = <[ref := mkNode (node_pk nd) (node_variant nd) loc BUILDING_SUCCESS]>
                   (objects w) /\
    dicts w' = <[loc := doc]> (dicts w) /\
    node_rows w' = <[node_pk nd := mkNodeRow (variant_pk (node_variant nd)) doc
                                     BUILDING_SUCCESS]> (node_rows w).
Proof.
  intros Hnd Hc loc doc. unfold init_node_with.
  rewrite (bind_ok _ _ _ _ _ (deref_node_ok _ _ _ Hnd)).
  rewrite (bind_ok _ _ _ _ _ Hc).
  rewrite (bind_ok _ _ _ _ _ (new_dict_ok _ _)). fold loc doc.
  destruct (assign_mark_save ref loc (set_dicts (<[loc := doc]> (dicts w)) w) nd doc)
    as (w' & Hrun & Hsame & Hobjs & Hdicts & Hrows); [done|apply lookup_insert_eq|].
  exists w'. split; [done|]. split; [|done].
  eapply same_store_trans; [|exact Hsame]. by repeat split.
Qed.

(** [merge_metadata] on a parent whose document has a "factories" dict. *)
Lemma merge_node_with_step (ref parent_ref : nat) (w : world)
    (nd parent : NodeVariantAnnotation) (c : json) (m fs : gmap string json) :
  objects w !! parent_ref = Some parent ->
  objects w !! ref = Some nd ->
  contribution_of (node_variant nd) w = (w, Ok c) ->
  dicts w !! node_metadata parent = Some (JObj m) ->
  m !! "factories" = Some (JObj fs) ->
  let doc := JObj (<["factories" := JObj (<[source_id := c]> fs)]> m) in
  exists w',
    merge_node_with source_id contribution_of ref parent_ref w = (w', Ok tt) /\
    same_store w w' /\
    objects w' = <[ref := mkNode (node_pk nd) (node_variant nd) (node_metadata parent)
                            BUILDING_SUCCESS]> (objects w) /\
    dicts w' = <[node_metadata parent := doc]> (dicts w) /\
    node_rows w' = <[node_pk nd := mkNodeRow (variant_pk (node_variant nd)) doc
                                     BUILDING_SUCCESS]> (node_rows w).
Proof.
  intros Hparent Hnd Hc Hdoc Hfs doc. unfold merge_node_with.
  rewrite (bind_ok _ _ _ _ _ (deref_node_ok _ _ _ Hparent)).
  rewrite (bind_ok _ _ _ _ _ (deref_node_ok _ _ _ Hnd)).
  rewrite (bind_ok _ _ _ _ _ Hc).
  rewrite (bind_ok _ _ _ _ _ (set_factories_item_ok _ source_id c _ _ _ Hdoc Hfs)).
  fold doc.
  destruct (assign_mark_save ref (node_metadata parent)
              (set_dicts (<[node_metadata parent := doc]> (dicts w)) w) nd doc)
    as (w' & Hrun & Hsame & Hobjs & Hdicts & Hrows); [done|apply lookup_insert_eq|].
  exists w'. split; [done|]. split; [|done].
  eapply same_store_trans; [|exact Hsame]. by repeat split.
Qed.


(** [init_metadata] over a list of nodes, for a contribution that only
    reads the tables. *)
Lemma init_with_all (nodes : list nat) :
  (forall v w c, contribution_of v w = (w, Ok c) ->
     forall w', same_store w w' -> contribution_of v w' = (w', Ok c)) ->
  forall w : world,
  (forall r, r ∈ nodes -> exists nd c,
     objects w !! r = Some nd /\ contribution_of (node_variant nd) w = (w, Ok c)) ->
  exists w',
    for_each nodes (init_node_with source_id contribution_of) w = (w', Ok tt) /\
    same_store w w' /\
    (forall l d, dicts w !! l = Some d -> dicts w' !! l = Some d) /\
    (forall r, r ∉ nodes -> objects w' !! r = objects w !! r) /\
    (forall r nd, r ∈ nodes -> objects w !! r = Some nd ->
       exists loc c,
         contribution_of (node_variant nd) w = (w, Ok c) /\
         dicts w !! loc = None /\
         objects w' !! r =
           Some (mkNode (node_pk nd) (node_variant nd) loc BUILDING_SUCCESS) /\
         dicts w' !! loc = Some (JObj {[ "factories" := JObj {[ source_id := c ]} ]})) /\
    (forall pk, Forall (fun r => node_pk <$> objects w !! r <> Some pk) nodes ->
       node_rows w' !! pk = node_rows w !! pk) /\
    (forall r nd, r ∈ nodes -> objects w !! r = Some nd ->
       exists r2 nd2 c2,
         r2 ∈ nodes /\ objects w !! r2 = Some nd2 /\ node_pk nd2 = node_pk nd /\
         contribution_of (node_variant nd2) w = (w, Ok c2) /\
         node_rows w' !! node_pk nd =
           Some (mkNodeRow (variant_pk (node_variant nd2))
                   (JObj {[ "factories" := JObj {[ source_id := c2 ]} ]})
                   BUILDING_SUCCESS)).
Proof.
  intros Hpure. induction nodes as [|r0 rest IH]; intros w Hpre.
  { exists w. split; [done|]. split; [apply same_store_refl|].
    split; [done|]. split; [done|].
    split; [intros r nd Hin; by apply elem_of_nil in Hin|].
    split; [done|]. intros r nd Hin. by apply elem_of_nil in Hin. }
  destruct (Hpre r0) as (nd0 & c0 & Hnd0 & Hc0); [left|].
  destruct (init_node_with_step r0 w nd0 c0 Hnd0 Hc0)
    as (w1 & Hrun1 & Hsame1 & Hobjs1 & Hdicts1 & Hrows1).
  set (loc0 := fresh (dom (dicts w))) in *.
  assert (dicts w !! loc0 = None) as Hfresh.
  { apply not_elem_of_dom. apply is_fresh. }
  assert (forall r nd, objects w !! r = Some nd -> exists nd1,
            objects w1 !! r = Some nd1 /\ node_pk nd1 = node_pk nd /\
            node_variant nd1 = node_variant nd) as Hkeep.
  { intros r nd Hr. rewrite Hobjs1. destruct (decide (r = r0)) as [->|Hne].
    - rewrite lookup_insert_eq. eexists. split; [done|]. simpl. split; congruence.
    - rewrite lookup_insert_ne by done. by exists nd. }
  destruct (IH w1) as (w' & Hrun & Hsame & Hdicts & Hframe & Hpost & Hrowframe & Hsaved).
  { intros r Hr. destruct (Hpre r) as (nd & c & Hnd & Hc); [by right|].
    destruct (Hkeep r nd Hnd) as (nd1 & Hnd1 & _ & Hv).
    exists nd1, c. split; [done|]. rewrite Hv. by apply (Hpure _ w). }
  exists w'. rewrite for_each_cons, Hrun1.
  split; [done|]. split; [by eapply same_store_trans|].
  split; [|split; [|split; [|split]]].
  - intros l d Hl. apply Hdicts. rewrite Hdicts1.
    rewrite lookup_insert_ne; [done|]. intros <-. congruence.
  - intros r Hr. apply not_elem_of_cons in Hr as [Hne Hr].
    rewrite (Hframe r Hr), Hobjs1. by rewrite lookup_insert_ne.
  - intros r nd Hin Hnd.
    destruct (Hpre r Hin) as (nd' & c & Hnd' & Hc).
    assert (nd' = nd) as -> by congruence. clear Hnd'.
    destruct (decide (r ∈ rest)) as [Hrest|Hrest].
    + destruct (Hkeep r nd Hnd) as (nd1 & Hnd1 & Hpk & Hv).
      destruct (Hpost r nd1 Hrest Hnd1) as (loc & c1 & Hc1 & Hnone & Hobj & Hdoc).
      rewrite Hpk, Hv in Hobj. rewrite Hv in Hc1.
      assert (c1 = c) as ->.
      { pose proof (Hpure _ _ _ Hc w1 Hsame1) as Hc'. congruence. }
      exists loc, c. split; [done|]. split; [|done].
      rewrite Hdicts1 in Hnone. apply lookup_insert_None in Hnone. tauto.
    + apply elem_of_cons in Hin as [->|Hin]; [|done].
      assert (nd0 = nd) as -> by congruence.
      assert (c0 = c) as -> by congruence.
      exists loc0, c. split; [done|]. split; [done|].
      rewrite (Hframe r0 Hrest), Hobjs1, lookup_insert_eq. split; [done|].
      apply Hdicts. rewrite Hdicts1. apply lookup_insert_eq.
  - intros pk Hnone. apply Forall_cons in Hnone as [Hpk0 Hnone].
    rewrite Hrowframe.
    + rewrite Hrows1, lookup_insert_ne; [done|].
      intros E. apply Hpk0. by rewrite Hnd0, <- E.
    + apply Forall_forall. intros r Hr.
      rewrite Forall_forall in Hnone. specialize (Hnone r Hr).
      destruct (Hpre r) as (nd & c & Hnd & Hc); [by right|].
      destruct (Hkeep r nd Hnd) as (nd1 & Hnd1 & Hpk & _).
      rewrite Hnd1. simpl. rewrite Hnd in Hnone. simpl in Hnone. congruence.
  - intros r nd Hin Hnd.
    destruct (decide (Exists (fun r2 => node_pk <$> objects w !! r2 = Some (node_pk nd)) rest))
      as [Hex|Hno].
    + apply Exists_exists in Hex as (r2 & Hr2 & Hpk2).
      destruct (Hpre r2) as (nd2 & c2 & Hnd2 & Hc2); [by right|].
      rewrite Hnd2 in Hpk2. simpl in Hpk2. injection Hpk2 as Hpk2.
      destruct (Hkeep r2 nd2 Hnd2) as (nd21 & Hnd21 & Hpk21 & Hv21).
      destruct (Hsaved r2 nd21 Hr2 Hnd21) as (r3 & nd31 & c3 & Hr3 & Hnd31 & Hpk31 & Hc3 & Hrow).
      destruct (Hpre r3) as (nd3 & c3' & Hnd3 & Hc3'); [by right|].
      destruct (Hkeep r3 nd3 Hnd3) as (nd31' & Hnd31' & Hpk3 & Hv3).
      assert (nd31' = nd31) as -> by congruence.
      assert (c3' = c3) as ->.
      { pose proof (Hpure _ _ _ Hc3' w1 Hsame1) as Hc'. rewrite <- Hv3 in Hc'. congruence. }
      exists r3, nd3, c3. split; [by right|]. split; [done|].
      split; [congruence|]. split; [done|].
      rewrite <- Hpk2, <- Hpk21, <- Hv3. exact Hrow.
    + apply not_Exists_Forall in Hno; [|intros ?; apply _].
      assert (r ∉ rest) as Hrest.
      { intros Hr. rewrite Forall_forall in Hno. apply (Hno r Hr). simpl.
        by rewrite Hnd. }
      apply elem_of_cons in Hin as [->|Hin]; [|done].
      assert (nd0 = nd) as -> by congruence.
      exists r0, nd, c0. split; [left|]. split; [done|]. split; [done|]. split; [done|].
      rewrite Hrowframe.
      * rewrite Hrows1. apply lookup_insert_eq.
      * apply Forall_forall. intros r2 Hr2.
        rewrite Forall_forall in Hno. specialize (Hno r2 Hr2). simpl in Hno.
        destruct (Hpre r2) as (nd2 & c2 & Hnd2 & Hc2); [by right|].
        destruct (Hkeep r2 nd2 Hnd2) as (nd21 & Hnd21 & Hpk21 & _).
        rewrite Hnd21. simpl. rewrite Hnd2 in Hno. simpl in Hno. congruence.
Qed.

End MergeEngineSteps.

(** The methods have the common shape. *)
Lemma vcf_init_metadata_shape (self : VcfFactory) (nodes : list nat) (w : world) :
  vcf_init_metadata self nodes w =
  for_each nodes (init_node_with (str (vcf_pk self)) (vcf_contribution self)) w.
Proof.
  apply for_each_ext. clear. intros r w.
  unfold init_node_with, vcf_contribution, bind, ret.
  destruct (deref_node r w) as [w1 [nd|e]]; [|done].
  by destruct (variant_annotation_of self (node_variant nd) w1) as [w2 [va|e]].
Qed.

Lemma vcf_merge_metadata_shape (self : VcfFactory) (ref parent_ref : nat) (w : world) :
  vcf_merge_metadata self ref parent_ref w =
  merge_node_with (str (vcf_pk self)) (vcf_contribution self) ref parent_ref w.
Proof.
  unfold vcf_merge_metadata, merge_node_with, vcf_contribution, bind, ret.
  destruct (deref_node parent_ref w) as [w1 [parent|e]]; [|done].
  destruct (deref_node ref w1) as [w2 [nd|e]]; [|done].
  by destruct (variant_annotation_of self (node_variant nd) w2) as [w3 [va|e]].
Qed.

Lemma constraint_init_metadata_shape (self : GnomadConstraintFactory) (nodes : list nat)
    (w : world) :
  GnomadConstraintFactory.init_metadata self nodes w =
  for_each nodes (init_node_with (str (gc_pk self)) (constraint_contribution self)) w.
Proof.
  apply for_each_ext. clear. intros r w.
  unfold init_node_with, constraint_contribution, bind, ret.
  destruct (deref_node r w) as [w1 [nd|e]]; [|done].
  by destruct (GnomadConstraintFactory.genes_of_variant self (node_variant nd) w1)
    as [w2 [va|e]].
Qed.

Lemma constraint_merge_metadata_shape (self : GnomadConstraintFactory)
    (ref parent_ref : nat) (w : world) :
  GnomadConstraintFactory.merge_metadata self ref parent_ref w =
  merge_node_with (str (gc_pk self)) (constraint_contribution self) ref parent_ref w.
Proof.
  unfold GnomadConstraintFactory.merge_metadata, merge_node_with,
    constraint_contribution, bind, ret.
  destruct (deref_node parent_ref w) as [w1 [parent|e]]; [|done].
  destruct (deref_node ref w1) as [w2 [nd|e]]; [|done].
  by destruct (GnomadConstraintFactory.genes_of_variant self (node_variant nd) w2)
    as [w3 [va|e]].
Qed.

(** The contributions read the tables and nothing else. *)
Lemma vcf_contribution_ok (self : VcfFactory) (variant : Variant) (w : world) :
  at_most_one_row self variant w ->
  vcf_contribution self variant w =
  (w, Ok (JObj {[ "variant_annotations" := JArr [stored_payload self variant w] ]})).
Proof.
  unfold at_most_one_row, vcf_contribution, variant_annotation_of,
    VariantAnnotation_objects_get, stored_payload.
  unfold_monad.
  destruct (annotation_rows _ _ _) as [|a [|a' rest]]; simpl; [done|done|lia].
Qed.

Lemma vcf_contribution_raises (self : VcfFactory) (variant : Variant) (w : world) :
  ~ at_most_one_row self variant w ->
  vcf_contribution self variant w = (w, Raised MultipleObjectsReturned).
Proof.
  unfold at_most_one_row, vcf_contribution, variant_annotation_of,
    VariantAnnotation_objects_get.
  unfold_monad.
  destruct (annotation_rows _ _ _) as [|a [|a' rest]]; simpl; [lia|lia|done].
Qed.

Lemma vcf_contribution_pure (self : VcfFactory) (v : Variant) (w : world) (c : json) :
  vcf_contribution self v w = (w, Ok c) ->
  forall w', same_store w w' -> vcf_contribution self v w' = (w', Ok c).
Proof.
  intros Hc w' (_ & _ & Hrows & _).
  destruct (decide (length (annotation_rows (vcf_pk self) (variant_pk v)
                               (variant_annotations w)) <= 1)) as [Hone|Hmany].
  - rewrite vcf_contribution_ok in Hc by done.
    rewrite vcf_contribution_ok by (unfold at_most_one_row in *; by rewrite Hrows).
    unfold stored_payload in *. rewrite Hrows. congruence.
  - rewrite vcf_contribution_raises in Hc by done. congruence.
Qed.

Lemma constraint_contribution_ok (self : GnomadConstraintFactory) (variant : Variant)
    (w : world) :
  constraint_contribution self variant w =
  (w, Ok (JObj {[ "genes" :=
     JArr (gene_metadata <$> filter (overlaps self variant) (genes w)) ]})).
Proof.
  unfold constraint_contribution.
  by rewrite (bind_ok _ _ _ _ _ (genes_of_variant_spec self variant w)).
Qed.

Lemma constraint_contribution_pure (self : GnomadConstraintFactory) (v : Variant)
    (w : world) (c : json) :
  constraint_contribution self v w = (w, Ok c) ->
  forall w', same_store w w' -> constraint_contribution self v w' = (w', Ok c).
Proof.
  intros Hc w' (_ & _ & _ & Hgenes & _).
  rewrite constraint_contribution_ok in *. rewrite Hgenes. congruence.
Qed.


(** C6, as the code has it. On a store with at most one row of this factory
    for the variant of
    each listed node, [init_metadata] ends normally and every listed node
    then refers to a new document, which is exactly
    [{"factories": {<pk>: {"variant_annotations": [payload]}}}] with the
    stored payload of the factory for the node's variant (the empty
    document when it has no row), whatever the node referred to before; the
    node is marked [BUILDING_SUCCESS] and saved: the row of its primary key
    holds such a document and [BUILDING_SUCCESS], written for the node
    itself or for a listed node with the same primary key. The tables are
    not written. *)
Theorem init_metadata_documents (self : VcfFactory) (nodes : list nat) (w : world) :
  (forall r, r ∈ nodes -> exists nd,
     objects w !! r = Some nd /\ at_most_one_row self (node_variant nd) w) ->
  exists w',
    ClinvarFactory.init_metadata self nodes w = (w', Ok tt) /\
    GnomadFactory.init_metadata self nodes w = (w', Ok tt) /\
    same_store w w' /\
    forall r nd, r ∈ nodes -> objects w !! r = Some nd ->
      (exists loc,
         dicts w !! loc = None /\
         objects w' !! r =
           Some (mkNode (node_pk nd) (node_variant nd) loc BUILDING_SUCCESS) /\
         document w' r = Some (initial_document self (node_variant nd) w)) /\
      (exists r2 nd2,
         r2 ∈ nodes /\ objects w !! r2 = Some nd2 /\ node_pk nd2 = node_pk nd /\
         node_rows w' !! node_pk nd =
           Some (mkNodeRow (variant_pk (node_variant nd2))
                   (initial_document self (node_variant nd2) w) BUILDING_SUCCESS)).
Proof.
  intros Hpre.
  destruct (init_with_all (str (vcf_pk self)) (vcf_contribution self) nodes
              (vcf_contribution_pure self) w)
    as (w' & Hrun & Hsame & _ & _ & Hpost & _ & Hsaved).
  { intros r Hr. destruct (Hpre r Hr) as (nd & Hnd & Hone).
    exists nd. eexists. split; [done|]. by apply vcf_contribution_ok. }
  exists w'. unfold ClinvarFactory.init_metadata, GnomadFactory.init_metadata.
  rewrite vcf_init_metadata_shape. split; [done|]. split; [done|]. split; [done|].
  intros r nd Hr Hnd. split.
  - destruct (Hpost r nd Hr Hnd) as (loc & c & Hc & Hnone & Hobj & Hdoc).
    destruct (Hpre r Hr) as (nd' & Hnd' & Hone).
    assert (nd' = nd) as -> by congruence.
    rewrite vcf_contribution_ok in Hc by done.
    exists loc. split; [done|]. split; [done|].
    unfold document, initial_document. rewrite Hobj. simpl. rewrite Hdoc. congruence.
  - destruct (Hsaved r nd Hr Hnd) as (r2 & nd2 & c2 & Hr2 & Hnd2 & Hpk & Hc2 & Hrow).
    destruct (Hpre r2 Hr2) as (nd' & Hnd' & Hone).
    assert (nd' = nd2) as -> by congruence.
    rewrite vcf_contribution_ok in Hc2 by done.
    exists r2, nd2. split; [done|]. split; [done|]. split; [done|].
    rewrite Hrow. unfold initial_document. congruence.
Qed.

Lemma init_metadata_documents_witness :
  exists w',
    ClinvarFactory.init_metadata (demo_clinvar "demo.vcf") [1; 2] demo_world = (w', Ok tt) /\
    document w' 1 =
      Some (JObj {[ "factories" :=
        JObj {[ "1" := JObj {[ "variant_annotations" := JArr [infos "Benign"] ]} ]} ]}) /\
    document w' 2 =
      Some (JObj {[ "factories" :=
        JObj {[ "1" := JObj {[ "variant_annotations" := JArr [JObj ∅] ]} ]} ]}).
Proof.
  destruct (init_metadata_documents (demo_clinvar "demo.vcf") [1; 2] demo_world)
    as (w' & Hrun & _ & _ & Hpost).
  { intros r Hr.
    destruct (decide (r = 1)) as [->|Hne1].
    { eexists. split; [reflexivity|]. vm_compute. lia. }
    destruct (decide (r = 2)) as [->|Hne2].
    { eexists. split; [reflexivity|]. vm_compute. lia. }
    exfalso. apply elem_of_cons in Hr as [?|Hr]; [done|].
    apply elem_of_cons in Hr as [?|Hr]; [done|]. by apply elem_of_nil in Hr. }
  exists w'. split; [exact Hrun|].
  split.
  - destruct (Hpost 1 _ ltac:(left) eq_refl) as ((loc & _ & _ & Hdoc) & _). exact Hdoc.
  - destruct (Hpost 2 _ ltac:(right; left) eq_refl) as ((loc & _ & _ & Hdoc) & _). exact Hdoc.
Defined.

(** C6, as stated, fails on a store in which the variant of a node has two
    annotation rows of the factory, which is what the loader leaves when a
    file gives a variant two payloads: the lookup of [init_metadata]
    raises [MultipleObjectsReturned], which its handler does not catch, and
    the node keeps its document and its build state. *)
Lemma init_metadata_two_rows :
  variants demo_reloaded = [demo_variant 1 10] /\
  variant_annotations demo_reloaded =
    [mkVariantAnnotation 1 1 (infos "Benign"); mkVariantAnnotation 1 1 (infos "Pathogenic")] /\
  ClinvarFactory.init_metadata (demo_clinvar "conflict.vcf") [0] demo_reloaded
    = (demo_reloaded, Raised MultipleObjectsReturned) /\
  GnomadFactory.init_metadata (demo_clinvar "conflict.vcf") [0] demo_reloaded
    = (demo_reloaded, Raised MultipleObjectsReturned) /\
  document demo_reloaded 0 = Some (JObj ∅) /\
  node_building <$> objects demo_reloaded !! 0 = Some BUILDING_PENDING.
Proof. repeat split; reflexivity. Qed.

(** C4. For every listed node, the list that [GnomadConstraintFactory]
    writes under "genes" holds exactly the metadata of the Gene rows of this
    factory whose chromosome is one of the aliases of the variant's region,
    whose start position is at most [pos + len(ref)] and whose end position
    is at least [pos], both bounds included, in table order;
    [merge_metadata] computes the same list. A gene spanning [100, 200] on
    contig "1" is found for a variant at 150 with reference "A" on a region
    with alias "1", and is not found for a variant at 250. *)
Theorem gene_overlap_contribution (self : GnomadConstraintFactory) (nodes : list nat)
    (w : world) :
  (forall r, r ∈ nodes -> is_Some (objects w !! r)) ->
  (exists w',
     GnomadConstraintFactory.init_metadata self nodes w = (w', Ok tt) /\
     forall r nd, r ∈ nodes -> objects w !! r = Some nd ->
       document w' r ≫= (fun d => contribution d (str (gc_pk self))) =
       Some (JObj {[ "genes" :=
         JArr (gene_metadata <$> filter (overlaps self (node_variant nd)) (genes w)) ]})) /\
  (forall variant,
     GnomadConstraintFactory.genes_of_variant self variant w =
       (w, Ok (gene_metadata <$> filter (overlaps self variant) (genes w))) /\
     constraint_contribution self variant w =
       (w, Ok (JObj {[ "genes" :=
          JArr (gene_metadata <$> filter (overlaps self variant) (genes w)) ]})) /\
     forall doc,
       doc ∈ (gene_metadata <$> filter (overlaps self variant) (genes w)) <->
       exists g, g ∈ genes w /\ overlaps self variant g /\ gene_metadata g = doc) /\
  (forall ref parent_ref w0,
     GnomadConstraintFactory.merge_metadata self ref parent_ref w0 =
     merge_node_with (str (gc_pk self)) (constraint_contribution self) ref parent_ref w0) /\
  (forall g variant,
     gene_factory g = gc_pk self ->
     gene_metadata g = JObj {[ "chromosome" := JStr "1"; "start_position" := JNum 100;
                               "end_position" := JNum 200 ]} ->
     "1" ∈ region_aliases (variant_region variant) ->
     variant_ref variant = "A" ->
     (variant_pos variant = 150%Z -> overlaps self variant g) /\
     (variant_pos variant = 250%Z -> ~ overlaps self variant g)).
Proof.
  intros Hpre. split; [|split; [|split]].
  - destruct (init_with_all (str (gc_pk self)) (constraint_contribution self) nodes
                (constraint_contribution_pure self) w)
      as (w' & Hrun & _ & _ & _ & Hpost & _).
    { intros r Hr. destruct (Hpre r Hr) as [nd Hnd].
      exists nd. eexists. split; [done|]. apply constraint_contribution_ok. }
    exists w'. rewrite constraint_init_metadata_shape. split; [done|].
    intros r nd Hr Hnd.
    destruct (Hpost r nd Hr Hnd) as (loc & c & Hc & _ & Hobj & Hdoc).
    rewrite constraint_contribution_ok in Hc.
    unfold document. rewrite Hobj. simpl. rewrite Hdoc. simpl.
    unfold contribution. rewrite !lookup_singleton_eq. congruence.
  - intros variant. split; [apply genes_of_variant_spec|].
    split; [apply constraint_contribution_ok|].
    intros doc. rewrite list_elem_of_fmap. split.
    + intros (g & -> & Hg). apply list_elem_of_filter in Hg as [Ho Hg]. by exists g.
    + intros (g & Hg & Ho & <-). exists g. split; [done|].
      apply list_elem_of_filter. by split.
  - apply constraint_merge_metadata_shape.
  - intros g variant Hf Hmeta Halias Href.
    assert (gene_chromosome g = Some "1") as Hc
      by (unfold gene_chromosome, GnomadConstraintFactory.metadata_key; by rewrite Hmeta).
    assert (gene_start_position g = Some 100%Z) as Hs
      by (unfold gene_start_position, GnomadConstraintFactory.metadata_key; by rewrite Hmeta).
    assert (gene_end_position g = Some 200%Z) as He
      by (unfold gene_end_position, GnomadConstraintFactory.metadata_key; by rewrite Hmeta).
    split.
    + intros Hpos. unfold overlaps. rewrite Hc, Hs, He, Hpos, Href.
      split; [done|]. split; [done|]. simpl. lia.
    + intros Hpos (_ & _ & _ & Hge). rewrite He in Hge. lia.
Qed.

Lemma gene_overlap_contribution_witness :
  exists w',
    GnomadConstraintFactory.init_metadata (demo_constraint "constraint.tsv") [1; 2] demo_world
      = (w', Ok tt) /\
    document w' 1 ≫= (fun d => contribution d "3") =
      Some (JObj {[ "genes" :=
        JArr [JObj {[ "chromosome" := JStr "1"; "start_position" := JNum 100;
                      "end_position" := JNum 200 ]}] ]}) /\
    document w' 2 ≫= (fun d => contribution d "3") = Some (JObj {[ "genes" := JArr [] ]}).
Proof.
  destruct (gene_overlap_contribution (demo_constraint "constraint.tsv") [1; 2] demo_world)
    as ((w' & Hrun & Hpost) & _).
  { intros r Hr.
    destruct (decide (r = 1)) as [->|Hne1]; [by eexists|].
    destruct (decide (r = 2)) as [->|Hne2]; [by eexists|].
    exfalso. apply elem_of_cons in Hr as [?|Hr]; [done|].
    apply elem_of_cons in Hr as [?|Hr]; [done|]. by apply elem_of_nil in Hr. }
  exists w'. split; [exact Hrun|]. split.
  - exact (Hpost 1 _ ltac:(left) eq_refl).
  - exact (Hpost 2 _ ltac:(right; left) eq_refl).
Defined.




(** ** The worker and the chain of stages *)













(** ** What a method leaves alone *)

(** [keeps proj m]: running [m] never changes the part [proj] of the state. *)
Lemma keeps_ret {A X} (proj : world -> X) (a : A) : keeps proj (ret a).
Proof. by intros w. Qed.

Lemma keeps_raise {A X} (proj : world -> X) (e : exn) : keeps proj (@raise A e).
Proof. by intros w. Qed.

Lemma keeps_gets {A X} (proj : world -> X) (f : world -> A) : keeps proj (gets f).
Proof. by intros w. Qed.

Lemma keeps_modify {X} (proj : world -> X) (f : world -> world) :
  (forall w, proj (f w) = proj w) -> keeps proj (modify f).
Proof. intros Hf w. apply Hf. Qed.

Lemma keeps_bind {A B X} (proj : world -> X) (m : M A) (k : A -> M B) :
  keeps proj m -> (forall a, keeps proj (k a)) -> keeps proj (bind m k).
Proof.
  intros Hm Hk w. unfold bind. specialize (Hm w).
  destruct (m w) as [w1 [a|e]]; [|done].
  simpl in Hm. rewrite <- Hm. apply Hk.
Qed.

Lemma keeps_try_except {A X} (proj : world -> X) (m : M A) (catches : exn -> bool)
    (h : exn -> M A) :
  keeps proj m -> (forall e, keeps proj (h e)) -> keeps proj (try_except m catches h).
Proof.
  intros Hm Hh w. unfold try_except. specialize (Hm w).
  destruct (m w) as [w1 [a|e]]; [done|].
  destruct (catches e); [|done].
  simpl in Hm. rewrite <- Hm. apply Hh.
Qed.

Lemma keeps_for_each {A X} (proj : world -> X) (xs : list A) (body : A -> M unit) :
  (forall x, keeps proj (body x)) -> keeps proj (for_each xs body).
Proof.
  intros Hbody. induction xs as [|x xs IH]; [apply keeps_ret|].
  apply keeps_bind; [apply Hbody | intros _; apply IH].
Qed.

Lemma keeps_objects_get {A X} (proj : world -> X) (l : list A) : keeps proj (objects_get l).
Proof. destruct l as [|x [|y l]]; by intros w. Qed.

Ltac keeps :=
  repeat (cbv zeta;
    match goal with
    | |- forall _, _ => intro
    | |- keeps _ (bind _ _) => apply keeps_bind
    | |- keeps _ (ret _) => apply keeps_ret
    | |- keeps _ (raise _) => apply keeps_raise
    | |- keeps _ (gets _) => apply keeps_gets
    | |- keeps _ (modify _) => apply keeps_modify; intros; reflexivity
    | |- keeps _ (try_except _ _ _) => apply keeps_try_except
    | |- keeps _ (for_each _ _) => apply keeps_for_each
    | |- keeps _ (objects_get _) => apply keeps_objects_get
    | |- keeps _ (if ?b then _ else _) => destruct b
    | |- keeps _ (match ?x with _ => _ end) => destruct x
    end).

Section WorkerProofs.
Context `{Collaborators}.
Variable registry : gmap N factory.







End WorkerProofs.

Section PipelineProofs.
Context `{Collaborators}.
Variable registry : gmap N factory.
Variable self : VcfFactory.

Lemma load_variants_dispatches (w : world) :
  vcf_load_variants self w =
  (set_broker (broker w ++ ((fun region => mkMessage (region_load self region) []) <$>
                              reader_get_contigs (vcf_file_path self))) w, Ok tt).
Proof.
  unfold vcf_load_variants.
  generalize (reader_get_contigs (vcf_file_path self)). intros cs.
  revert w. induction cs as [|c cs IH]; intros w.
  { simpl. unfold ret. rewrite app_nil_r. by destruct w. }
  rewrite for_each_cons. unfold delay at 1, modify. rewrite IH. simpl.
  by rewrite <- app_assoc.
Qed.










End PipelineProofs.




(** * Further properties of the code *)

(** ** Region discovery, further *)

Section RegionIndexMore.
Context `{Collaborators}.

(** How one iteration changes the number of rows of any key. *)
Lemma ensure_region_count (self : VcfFactory) (c : string) (w : world) (a s : string) :
  length (region_rows a s (regions (fst (ensure_region self c w)))) =
  if decide ((a, s) = (vcf_assembly self, c)
             /\ region_rows (vcf_assembly self) c (regions w) = [])
  then 1 else length (region_rows a s (regions w)).
Proof.
  pose proof (ensure_region_cases self c w) as Hc.
  destruct (region_rows (vcf_assembly self) c (regions w)) as [|r1 [|r2 rest]] eqn:Hrows.
  - destruct Hc as (r & Ha & Hs & Hf & ->). simpl. rewrite region_rows_app.
    case_decide as E.
    + destruct E as [[= -> ->] _]. rewrite Hrows. simpl.
      rewrite <- Ha, <- Hs. by rewrite region_rows_self.
    + rewrite region_rows_other, app_nil_r; [done|].
      rewrite Ha, Hs. intros E'. apply E. by split.
  - rewrite Hc. simpl. case_decide as E; [by destruct E|done].
  - rewrite Hc. simpl. case_decide as E; [by destruct E|done].
Qed.

Lemma ensure_region_outcome (self : VcfFactory) (c : string) (w : world) :
  snd (ensure_region self c w) =
  if decide (length (region_rows (vcf_assembly self) c (regions w)) <= 1)
  then Ok tt else Raised MultipleObjectsReturned.
Proof.
  pose proof (ensure_region_cases self c w) as Hc.
  destruct (region_rows (vcf_assembly self) c (regions w)) as [|r1 [|r2 rest]] eqn:Hrows.
  - destruct Hc as (r & _ & _ & _ & ->). by rewrite decide_True by (simpl; lia).
  - rewrite Hc. by rewrite decide_True by (simpl; lia).
  - rewrite Hc. by rewrite decide_False by (simpl; lia).
Qed.

Lemma load_regions_loop_outcome (self : VcfFactory) (cs : list string) (w : world) :
  let r := for_each cs (ensure_region self) w in
  (Forall (fun c => length (region_rows (vcf_assembly self) c (regions w)) <= 1) cs ->
   snd r = Ok tt /\
   Forall (fun c => length (region_rows (vcf_assembly self) c (regions (fst r))) = 1) cs) /\
  (~ Forall (fun c => length (region_rows (vcf_assembly self) c (regions w)) <= 1) cs ->
   snd r = Raised MultipleObjectsReturned).
Proof.
  revert w. induction cs as [|c cs IH]; intros w.
  { simpl. split; [done|]. intros Hn. by destruct Hn. }
  cbv zeta. rewrite for_each_cons.
  pose proof (ensure_region_outcome self c w) as Hout.
  assert (forall c', length (region_rows (vcf_assembly self) c'
                               (regions (fst (ensure_region self c w)))) <= 1 <->
                     length (region_rows (vcf_assembly self) c' (regions w)) <= 1)
    as Hsame.
  { intros c'. rewrite ensure_region_count.
    destruct (decide ((vcf_assembly self, c') = (vcf_assembly self, c)
                      /\ region_rows (vcf_assembly self) c (regions w) = []))
      as [E|E]; [|reflexivity].
    destruct E as [[= ->] ->]. simpl. lia. }
  destruct (ensure_region self c w) as [w1 [[]|e]] eqn:Hstep; simpl in Hout, Hsame.
  - case_decide as Hle; [|done].
    destruct (IH w1) as [IHok IHraise]. split.
    + intros Hall. apply Forall_cons in Hall as [_ Hall].
      destruct IHok as [Hok Hone].
      { eapply Forall_impl; [exact Hall|]. intros c' Hc'. by apply Hsame. }
      split; [done|]. constructor; [|done].
      pose proof (load_regions_rows self cs w1 (vcf_assembly self) c) as (_ & Hkeep & _).
      simpl in Hkeep.
      assert (length (region_rows (vcf_assembly self) c (regions w1)) = 1) as H1.
      { pose proof (ensure_region_count self c w (vcf_assembly self) c) as Hcnt.
        rewrite Hstep in Hcnt. simpl in Hcnt. rewrite Hcnt.
        case_decide as E; [done|].
        destruct (region_rows (vcf_assembly self) c (regions w)) as [|r1 [|r2 rest]];
          simpl in *; [|done|lia].
        exfalso. apply E. by split. }
      rewrite Hkeep; [done|]. intros E. by rewrite E in H1.
    + intros Hn. apply IHraise. intros Hall. apply Hn.
      constructor; [done|].
      eapply Forall_impl; [exact Hall|]. intros c' Hc'. by apply Hsame.
  - case_decide as Hle; [done|]. injection Hout as ->. split.
    + intros Hall. apply Forall_cons in Hall as [Hc _]. lia.
    + done.
Qed.

End RegionIndexMore.

Lemma load_regions_ok_one `{Collaborators} (self : VcfFactory) (w : world) :
  snd (vcf_load_regions self w) = Ok tt ->
  Forall (fun c => length (region_rows (vcf_assembly self) c
                             (regions (fst (vcf_load_regions self w)))) = 1)
         (reader_get_contigs (vcf_file_path self)).
Proof.
  unfold vcf_load_regions. intros Hok.
  destruct (load_regions_loop_outcome self (reader_get_contigs (vcf_file_path self)) w)
    as [Hall Hraise]. cbv zeta in Hall, Hraise.
  destruct (decide (Forall (fun c => length (region_rows (vcf_assembly self) c (regions w))
                                     <= 1) (reader_get_contigs (vcf_file_path self))))
    as [Hle|Hnot]; [by apply Hall|].
  rewrite (Hraise Hnot) in Hok. discriminate.
Qed.

(** X1. [load_regions] ends normally exactly when no contig of the file has
    several Region rows for the assembly in the store it starts from, and
    raises [MultipleObjectsReturned] otherwise; after a normal end every
    contig of the file has exactly one row. *)
Theorem load_regions_outcome `{Collaborators} (self : VcfFactory) (w : world) :
  let unambiguous :=
    Forall (fun c => length (region_rows (vcf_assembly self) c (regions w)) <= 1)
           (reader_get_contigs (vcf_file_path self)) in
  let r := ClinvarFactory.load_regions self w in
  (snd r = Ok tt <-> unambiguous) /\
  (snd r = Raised MultipleObjectsReturned <-> ~ unambiguous) /\
  (snd r = Ok tt ->
   Forall (fun c => length (region_rows (vcf_assembly self) c (regions (fst r))) = 1)
          (reader_get_contigs (vcf_file_path self))).
Proof.
  unfold ClinvarFactory.load_regions, vcf_load_regions. cbv zeta.
  destruct (load_regions_loop_outcome self (reader_get_contigs (vcf_file_path self)) w)
    as [Hok Hraise]. cbv zeta in Hok, Hraise.
  destruct (decide (Forall (fun c => length (region_rows (vcf_assembly self) c (regions w))
                                     <= 1) (reader_get_contigs (vcf_file_path self))))
    as [Hall|Hnot].
  - destruct (Hok Hall) as [E Hone]. rewrite E.
    split; [done|]. split; [|done]. split; [done|]. intros Hn. by destruct Hn.
  - rewrite (Hraise Hnot). split; [split; [done|]; intros Hall; by destruct Hnot|].
    split; [done|]. done.
Qed.

(** X2. After a [load_regions] that ended normally, the lookup with which
    [load_variants_for_region] starts finds the one Region of every contig
    of the file, so the load of that contig is the loop over its records. *)
Theorem load_regions_then_region_found `{Collaborators} (self : VcfFactory) (w : world)
    (region : string) :
  snd (ClinvarFactory.load_regions self w) = Ok tt ->
  region ∈ reader_get_contigs (vcf_file_path self) ->
  let w' := fst (ClinvarFactory.load_regions self w) in
  exists region_obj,
    region_assembly region_obj = vcf_assembly self /\
    region_seqid region_obj = region /\
    Region_objects_get (vcf_assembly self) region w' = (w', Ok region_obj) /\
    ClinvarFactory.load_variants_for_region self region w' =
      for_each (reader_get_variants (vcf_file_path self) region)
               (load_variant ClinvarVariantModel self region_obj) w' /\
    GnomadFactory.load_variants_for_region self region w' =
      for_each (reader_get_variants (vcf_file_path self) region)
               (load_variant GnomadVariantModel self region_obj) w'.
Proof.
  intros Hok Hin w'.
  pose proof (load_regions_ok_one self w Hok) as Hone.
  rewrite Forall_forall in Hone. specialize (Hone region Hin).
  fold (ClinvarFactory.load_regions self w) in Hone. fold w' in Hone.
  destruct (region_rows (vcf_assembly self) region (regions w')) as [|robj [|r2 rs]] eqn:Hrows;
    try done.
  exists robj.
  assert (robj ∈ region_rows (vcf_assembly self) region (regions w')) as Hmem
    by (rewrite Hrows; left).
  apply list_elem_of_filter in Hmem as [Hm _].
  unfold region_matches in Hm. apply andb_true_iff in Hm as [Ha Hs].
  apply bool_decide_eq_true in Ha, Hs.
  split; [done|]. split; [done|].
  assert (Region_objects_get (vcf_assembly self) region w' = (w', Ok robj)) as Hget.
  { unfold Region_objects_get. unfold_monad. by rewrite Hrows. }
  split; [done|].
  unfold ClinvarFactory.load_variants_for_region, GnomadFactory.load_variants_for_region,
    vcf_load_variants_for_region.
  by rewrite !(bind_ok _ _ _ _ _ Hget).
Qed.

Lemma load_regions_then_region_found_witness :
  exists region_obj,
    region_seqid region_obj = "1" /\
    Region_objects_get "GRCh38" "1" demo_loaded_regions = (demo_loaded_regions, Ok region_obj).
Proof.
  destruct (load_regions_then_region_found (H := demo false) (demo_clinvar "demo.vcf")
              empty_world "1") as (region_obj & _ & Hseqid & Hget & _);
    [reflexivity | apply list_elem_of_here |].
  exists region_obj. split; [exact Hseqid | exact Hget].
Defined.

Lemma load_regions_known `{Collaborators} (self : VcfFactory) (cs : list string) (w : world) :
  Forall (fun c => length (region_rows (vcf_assembly self) c (regions w)) = 1) cs ->
  for_each cs (ensure_region self) w = (w, Ok tt).
Proof.
  induction 1 as [|c cs Hc _ IH]; [done|].
  rewrite for_each_cons.
  pose proof (ensure_region_cases self c w) as Hcase.
  destruct (region_rows (vcf_assembly self) c (regions w)) as [|r1 [|r2 rest]]; try done.
  by rewrite Hcase.
Qed.

(** X3. The first source to discover a contig keeps it: once [load_regions]
    of one factory has ended normally, [load_regions] of another factory on
    the same assembly, whose file names no other contig, writes nothing; the
    rows keep the factory that created them. *)
Theorem load_regions_first_writer_wins `{Collaborators} (self other : VcfFactory)
    (w : world) :
  snd (ClinvarFactory.load_regions self w) = Ok tt ->
  vcf_assembly other = vcf_assembly self ->
  reader_get_contigs (vcf_file_path other) ⊆ reader_get_contigs (vcf_file_path self) ->
  let w' := fst (ClinvarFactory.load_regions self w) in
  ClinvarFactory.load_regions other w' = (w', Ok tt) /\
  GnomadFactory.load_regions other w' = (w', Ok tt).
Proof.
  intros Hok Hassembly Hsub w'.
  pose proof (load_regions_ok_one self w Hok) as Hone.
  fold (ClinvarFactory.load_regions self w) in Hone. fold w' in Hone.
  assert (for_each (reader_get_contigs (vcf_file_path other)) (ensure_region other) w'
          = (w', Ok tt)) as Hrun.
  { apply load_regions_known. rewrite Hassembly.
    rewrite Forall_forall in Hone. apply Forall_forall. intros c Hc. apply Hone.
    by apply Hsub. }
  by split.
Qed.

Lemma load_regions_first_writer_wins_witness :
  ClinvarFactory.load_regions (H := demo false) (mkVcfFactory 2 "GRCh38" "other.vcf")
    demo_loaded_regions = (demo_loaded_regions, Ok tt) /\
  region_factory <$> regions demo_loaded_regions = [1%N].
Proof.
  split; [|reflexivity].
  apply (load_regions_first_writer_wins (H := demo false) (demo_clinvar "demo.vcf")
           (mkVcfFactory 2 "GRCh38" "other.vcf") empty_world).
  - reflexivity.
  - reflexivity.
  - intros c Hc. exact Hc.
Defined.

(** ** What the loaders never write *)

Section LoaderFrames.
Context `{Collaborators}.

Lemma load_regions_keeps (self : VcfFactory) : keeps but_regions (vcf_load_regions self).
Proof.
  unfold vcf_load_regions, ensure_region, Region_objects_get, Region_save. keeps.
Qed.

Lemma load_variants_keeps (self : VcfFactory) : keeps but_broker (vcf_load_variants self).
Proof. unfold vcf_load_variants, delay. keeps. Qed.

Lemma load_variants_for_region_keeps Model (self : VcfFactory) (region : string) :
  keeps but_variants_and_annotations (vcf_load_variants_for_region Model self region).
Proof.
  unfold vcf_load_variants_for_region, load_variant, Region_objects_get,
    Variant_objects_get_or_create, VariantAnnotation_objects_get_or_create.
  keeps.
Qed.

Lemma load_genes_loop_keeps (fuel : nat) (self : GnomadConstraintFactory) (batch_size : Z)
    (rows : list (gmap string string)) :
  keeps but_genes (GnomadConstraintFactory.load_genes_loop fuel self batch_size rows).
Proof.
  revert rows. induction fuel as [|fuel IH]; intros rows; simpl; [keeps|].
  destruct (islice rows batch_size) as [[[|gene batch] rest]|e]; [keeps| |keeps].
  apply keeps_bind; [|intros _; apply IH].
  unfold GnomadConstraintFactory.load_genes_by_batch. keeps.
Qed.

Lemma load_genes_keeps (fuel : nat) (self : GnomadConstraintFactory) (batch_size : Z) :
  keeps but_genes (GnomadConstraintFactory.load_genes fuel self batch_size).
Proof.
  unfold GnomadConstraintFactory.load_genes.
  apply keeps_bind; [keeps|]. intros _. apply load_genes_loop_keeps.
Qed.

End LoaderFrames.

(** X4. Each loader writes its own part of the state and nothing else,
    whether it ends normally or raises: [load_regions] only the Region
    table, [load_variants] only the broker, [load_variants_for_region] only
    the Variant and VariantAnnotation tables, [load_genes] only the Gene
    table. None of them touches a node or a document. *)
Theorem loaders_write_their_own_table `{Collaborators} (self : VcfFactory)
    (gself : GnomadConstraintFactory) (region : string) (fuel : nat) (batch_size : Z)
    (w : world) :
  but_regions (fst (ClinvarFactory.load_regions self w)) = but_regions w /\
  but_regions (fst (GnomadFactory.load_regions self w)) = but_regions w /\
  but_broker (fst (ClinvarFactory.load_variants self w)) = but_broker w /\
  but_broker (fst (GnomadFactory.load_variants self w)) = but_broker w /\
  but_variants_and_annotations (fst (ClinvarFactory.load_variants_for_region self region w))
    = but_variants_and_annotations w /\
  but_variants_and_annotations (fst (GnomadFactory.load_variants_for_region self region w))
    = but_variants_and_annotations w /\
  but_genes (fst (GnomadConstraintFactory.load_genes fuel gself batch_size w)) = but_genes w.
Proof.
  repeat split.
  - apply load_regions_keeps.
  - apply load_regions_keeps.
  - apply load_variants_keeps.
  - apply load_variants_keeps.
  - apply load_variants_for_region_keeps.
  - apply load_variants_for_region_keeps.
  - apply load_genes_keeps.
Qed.

(** ** The positional loader, further *)

Lemma next_pk_above (pks : list N) (pk : N) : pk ∈ pks -> (pk < next_pk pks)%N.
Proof.
  unfold next_pk. induction pks as [|x pks IH]; intros Hin; [by apply elem_of_nil in Hin|].
  simpl. apply elem_of_cons in Hin as [->|Hin]; [lia|]. specialize (IH Hin). lia.
Qed.

Lemma variant_rows_one (region_obj : Region) pos ref alt (v : Variant) :
  variant_rows region_obj pos ref alt [v] =
  if decide (region_pk (variant_region v) = region_pk region_obj /\
             (variant_pos v, variant_ref v, variant_alt v) = (pos, ref, alt))
  then [v] else [].
Proof.
  unfold variant_rows. case_decide as E.
  - destruct E as [Hr [= Hp Hf Ha]]. rewrite filter_cons_True; [done|].
    unfold variant_matches. by rewrite !bool_decide_eq_true_2.
  - rewrite filter_cons_False; [done|].
    unfold variant_matches. intros Hm. apply E.
    apply andb_true_iff in Hm as [Hm H4]. apply andb_true_iff in Hm as [Hm H3].
    apply andb_true_iff in Hm as [H1 H2].
    apply bool_decide_eq_true in H1, H2, H3, H4. split; congruence.
Qed.

Lemma variant_rows_same_region (r1 r2 : Region) pos ref alt (vs : list Variant) :
  region_pk r1 = region_pk r2 ->
  variant_rows r1 pos ref alt vs = variant_rows r2 pos ref alt vs.
Proof.
  intros Hpk. unfold variant_rows. apply list_filter_iff. intros v.
  unfold variant_matches. by rewrite Hpk.
Qed.

Section PositionalLoaderMore.
Context `{Collaborators}.
Variable Model : vcf_variant -> option VariantModel.

Lemma variant_upsert_well_keyed (region_obj : Region) pos ref alt (w : world) :
  well_keyed w ->
  well_keyed (fst (Variant_objects_get_or_create region_obj pos ref alt w)).
Proof.
  intros (Hkeys & Hpks & Hann). unfold Variant_objects_get_or_create. unfold_monad.
  destruct (variant_rows region_obj pos ref alt (variants w)) as [|v1 [|v2 vs]] eqn:Hv;
    simpl; [|done..].
  split; [|split; [|done]].
  - intros r p f a. simpl. rewrite variant_rows_app, length_app, variant_rows_one. simpl.
    case_decide as E; [|specialize (Hkeys r p f a); simpl; lia].
    destruct E as [Hr [= -> -> ->]].
    rewrite (variant_rows_same_region r region_obj) by done. rewrite Hv. simpl. lia.
  - simpl. rewrite fmap_app. simpl. apply NoDup_app. split; [done|]. split.
    + intros pk Hin Hnew. apply list_elem_of_singleton in Hnew.
      apply next_pk_above in Hin. lia.
    + apply NoDup_singleton.
Qed.

Lemma annotation_upsert_well_keyed factory variant metadata (w : world) :
  well_keyed w ->
  well_keyed (fst (VariantAnnotation_objects_get_or_create factory variant metadata w)).
Proof.
  intros (Hkeys & Hpks & Hann). unfold VariantAnnotation_objects_get_or_create.
  unfold_monad.
  destruct (annotation_rows_with factory variant metadata (variant_annotations w))
    as [|a1 [|a2 rest]] eqn:Ha; simpl; [|done..].
  destruct (variant_annotation_unique && _); simpl; [done|].
  split; [done|]. split; [done|].
  intros f v m. simpl.
  rewrite annotation_rows_with_app, length_app, annotation_rows_with_new.
  case_decide as E; [|specialize (Hann f v m); simpl; lia].
  injection E as -> -> ->. rewrite Ha. simpl. lia.
Qed.

Lemma load_variant_well_keyed (self : VcfFactory) (region_obj : Region) (r : vcf_variant)
    (w : world) :
  well_keyed w -> well_keyed (fst (load_variant Model self region_obj r w)).
Proof.
  intros Hw. unfold load_variant.
  destruct (Model r) as [m|]; [|done].
  unfold bind at 1. unfold ret at 1. unfold bind at 1.
  pose proof (variant_upsert_well_keyed region_obj (vm_pos m) (vm_ref m) (vm_alt m) w Hw)
    as Hw1.
  destruct (Variant_objects_get_or_create _ _ _ _ w) as [w1 [got|e]]; simpl in *; [|done].
  unfold bind.
  pose proof (annotation_upsert_well_keyed (vcf_pk self) (variant_pk got.1) (vm_infos m)
                w1 Hw1) as Hw2.
  by destruct (VariantAnnotation_objects_get_or_create _ _ _ w1) as [w2 [x|e]].
Qed.

Lemma load_variants_for_region_well_keyed (self : VcfFactory) (region : string) (w : world) :
  well_keyed w -> well_keyed (fst (vcf_load_variants_for_region Model self region w)).
Proof.
  intros Hw. unfold vcf_load_variants_for_region, Region_objects_get. unfold_monad.
  destruct (region_rows _ _ (regions w)) as [|region_obj [|r2 rs]]; simpl; try done.
  generalize (reader_get_variants (vcf_file_path self) region). intros records.
  revert w Hw. induction records as [|r records IH]; intros w Hw; [done|].
  rewrite for_each_cons.
  pose proof (load_variant_well_keyed self region_obj r w Hw) as Hw1.
  destruct (load_variant Model self region_obj r w) as [w1 [[]|e]]; [by apply IH|done].
Qed.

(** The load of a contig stops at the first record whose model does not
    validate. *)
Lemma load_variants_stop_at_invalid (self : VcfFactory) (region_obj : Region)
    (before after : list vcf_variant) (bad : vcf_variant) (w w1 : world) :
  Model bad = None ->
  for_each before (load_variant Model self region_obj) w = (w1, Ok tt) ->
  for_each (before ++ bad :: after) (load_variant Model self region_obj) w =
  (w1, Raised ValidationError).
Proof.
  intros Hbad Hbefore. rewrite for_each_app, Hbefore, for_each_cons.
  unfold load_variant. by rewrite Hbad.
Qed.

End PositionalLoaderMore.

(** X5. When the store has no Region for the assembly and contig,
    [load_variants_for_region] raises [DoesNotExist], and when it has
    several, [MultipleObjectsReturned]; in both cases before any record is
    read, and nothing is written. *)
Theorem load_variants_for_region_lookup_miss `{Collaborators} (self : VcfFactory)
    (region : string) (w : world) :
  length (region_rows (vcf_assembly self) region (regions w)) <> 1 ->
  let e := if decide (region_rows (vcf_assembly self) region (regions w) = [])
           then DoesNotExist else MultipleObjectsReturned in
  ClinvarFactory.load_variants_for_region self region w = (w, Raised e) /\
  GnomadFactory.load_variants_for_region self region w = (w, Raised e).
Proof.
  intros Hlen.
  unfold ClinvarFactory.load_variants_for_region, GnomadFactory.load_variants_for_region,
    vcf_load_variants_for_region, Region_objects_get.
  unfold_monad.
  by destruct (region_rows _ _ (regions w)) as [|r1 [|r2 rs]].
Qed.

Lemma load_variants_for_region_lookup_miss_witness :
  ClinvarFactory.load_variants_for_region (H := demo false) (demo_clinvar "demo.vcf") "1"
    empty_world = (empty_world, Raised DoesNotExist).
Proof.
  apply (load_variants_for_region_lookup_miss (H := demo false) (demo_clinvar "demo.vcf")
           "1" empty_world).
  simpl. lia.
Defined.

(** X6. Loading a contig again from the same file, after a load that ended
    normally, finds every variant and every annotation and writes nothing:
    the store is the one the first load left. *)
Theorem reload_region_writes_nothing `{Collaborators} (self : VcfFactory) (region : string)
    (w : world) :
  snd (ClinvarFactory.load_variants_for_region self region w) = Ok tt ->
  let w' := fst (ClinvarFactory.load_variants_for_region self region w) in
  ClinvarFactory.load_variants_for_region self region w' = (w', Ok tt).
Proof.
  intros Hok w'. apply (load_variants_for_region_again ClinvarVariantModel self region w).
  unfold ClinvarFactory.load_variants_for_region in *. subst w'.
  destruct (vcf_load_variants_for_region ClinvarVariantModel self region w) as [w1 r].
  simpl in *. by rewrite Hok.
Qed.

Lemma reload_region_writes_nothing_witness :
  let w' := fst (ClinvarFactory.load_variants_for_region (H := demo false)
                   (demo_clinvar "demo.vcf") "1" demo_loaded_regions) in
  length (variants w') = 2 /\
  ClinvarFactory.load_variants_for_region (H := demo false) (demo_clinvar "demo.vcf") "1" w'
    = (w', Ok tt).
Proof.
  intros w'. split; [reflexivity|].
  apply (reload_region_writes_nothing (H := demo false) (demo_clinvar "demo.vcf") "1"
           demo_loaded_regions).
  reflexivity.
Defined.

(** X7. [load_variants_for_region] only appends: the Variant rows and the
    VariantAnnotation rows it found are, unchanged and in the same order,
    the first rows of the tables it leaves, whether it ends normally or
    raises half-way. *)
Theorem load_variants_for_region_only_appends `{Collaborators} (self : VcfFactory)
    (region : string) (w : world) :
  let w' := fst (ClinvarFactory.load_variants_for_region self region w) in
  variants w `prefix_of` variants w' /\
  variant_annotations w `prefix_of` variant_annotations w'.
Proof.
  destruct (load_variants_for_region_appends ClinvarVariantModel self region w)
    as ((new_a & Ha) & (new_v & Hv) & _).
  split; [by exists new_v | by exists new_a].
Qed.

(** X8. [load_variants_for_region] keeps the tables well keyed, whatever
    its outcome: no two Variant rows for the same region, position and
    alleles, no two Variant rows with the same primary key, and no two
    VariantAnnotation rows with the same factory, variant and payload. *)
Theorem load_variants_for_region_keeps_keys `{Collaborators} (self : VcfFactory)
    (region : string) (w : world) :
  well_keyed w ->
  well_keyed (fst (ClinvarFactory.load_variants_for_region self region w)) /\
  well_keyed (fst (GnomadFactory.load_variants_for_region self region w)).
Proof.
  intros Hw. split; by apply load_variants_for_region_well_keyed.
Qed.

Lemma load_variants_for_region_keeps_keys_witness :
  well_keyed demo_loaded_regions /\
  well_keyed (fst (ClinvarFactory.load_variants_for_region (H := demo false)
                     (demo_clinvar "conflict.vcf") "1" demo_loaded_regions)).
Proof.
  assert (well_keyed demo_loaded_regions) as Hw.
  { split; [|split].
    - intros region_obj pos ref alt. simpl. lia.
    - constructor.
    - intros factory variant metadata. simpl. lia. }
  split; [exact Hw|].
  exact (proj1 (load_variants_for_region_keeps_keys (H := demo false)
                  (demo_clinvar "conflict.vcf") "1" demo_loaded_regions Hw)).
Defined.

(** X9. The first record of a contig whose model does not validate ends the
    load with [ValidationError]; the records before it stay loaded and the
    records after it are not read. *)
Theorem load_variants_for_region_stops_at_invalid `{Collaborators} (self : VcfFactory)
    (region : string) (region_obj : Region) (before after : list vcf_variant)
    (bad : vcf_variant) (w w1 : world) :
  region_rows (vcf_assembly self) region (regions w) = [region_obj] ->
  reader_get_variants (vcf_file_path self) region = (before ++ bad :: after)%list ->
  ClinvarVariantModel bad = None ->
  for_each before (load_variant ClinvarVariantModel self region_obj) w = (w1, Ok tt) ->
  ClinvarFactory.load_variants_for_region self region w = (w1, Raised ValidationError).
Proof.
  intros Hregion Hrecords Hbad Hbefore.
  unfold ClinvarFactory.load_variants_for_region, vcf_load_variants_for_region,
    Region_objects_get.
  unfold_monad. rewrite Hregion, Hrecords. simpl.
  by apply load_variants_stop_at_invalid.
Qed.

Lemma load_variants_for_region_stops_at_invalid_witness :
  let r := ClinvarFactory.load_variants_for_region (H := demo_late_failure)
             (demo_clinvar "late.vcf") "1" demo_loaded_regions in
  r = (fst r, Raised ValidationError) /\
  variant_pos <$> variants (fst r) = [10%Z].
Proof.
  intros r. split; [|reflexivity].
  eapply (load_variants_for_region_stops_at_invalid (H := demo_late_failure)
            (demo_clinvar "late.vcf") "1" _
            [Some (mkVariantModel 10 "A" "T" (infos "Benign"))]
            [Some (mkVariantModel 20 "G" "C" (infos "Pathogenic"))] None);
    reflexivity.
Defined.

(** ** Dispatch *)

(** X10. [load_variants] sends one [load_variants_for_region] message per
    contig of the file, in file order, each with nothing chained after it;
    it reads no table, so it does this also for a contig without Region
    row, and it never raises. *)
Theorem load_variants_fans_out `{Collaborators} (self : VcfFactory) (w : world) :
  let sent := (fun region => mkMessage (region_load self region) []) <$>
                reader_get_contigs (vcf_file_path self) in
  ClinvarFactory.load_variants self w = (set_broker (broker w ++ sent) w, Ok tt) /\
  GnomadFactory.load_variants self w = (set_broker (broker w ++ sent) w, Ok tt).
Proof. split; apply load_variants_dispatches. Qed.

Section RunDispatch.
Context `{Collaborators}.

Lemma vcf_run_unknown Model (self : VcfFactory) (fn : string) (kw : kwargs) (w : world) :
  fn <> "load_regions" -> fn <> "load_variants" -> fn <> "load_variants_for_region" ->
  vcf_run Model self fn kw w = (w, Ok tt).
Proof.
  intros H1 H2 H3. unfold vcf_run.
  by rewrite !bool_decide_eq_false_2 by done.
Qed.

Lemma vcf_run_known Model (self : VcfFactory) (region : string) (w : world) :
  vcf_run Model self "load_regions" ∅ w = vcf_load_regions self w /\
  vcf_run Model self "load_variants" ∅ w = vcf_load_variants self w /\
  vcf_run Model self "load_variants_for_region" (region_kwargs region) w =
    vcf_load_variants_for_region Model self region w.
Proof.
  unfold vcf_run. split; [|split].
  - rewrite (bool_decide_eq_true_2 ("load_regions" = "load_regions")) by done.
    rewrite (bool_decide_eq_false_2 ("load_regions" = "load_variants")) by done.
    rewrite (bool_decide_eq_false_2 ("load_regions" = "load_variants_for_region")) by done.
    rewrite bool_decide_eq_true_2 by done.
    unfold bind, ret. by destruct (vcf_load_regions self w) as [w' [[]|e]].
  - rewrite (bool_decide_eq_false_2 ("load_variants" = "load_regions")) by done.
    rewrite (bool_decide_eq_true_2 ("load_variants" = "load_variants")) by done.
    rewrite (bool_decide_eq_false_2 ("load_variants" = "load_variants_for_region")) by done.
    rewrite bool_decide_eq_true_2 by done.
    unfold bind, ret. by destruct (vcf_load_variants self w) as [w' [[]|e]].
  - rewrite (bool_decide_eq_false_2 ("load_variants_for_region" = "load_regions")) by done.
    rewrite (bool_decide_eq_false_2 ("load_variants_for_region" = "load_variants")) by done.
    rewrite (bool_decide_eq_true_2
               ("load_variants_for_region" = "load_variants_for_region")) by done.
    cbn [kw_region region_kwargs]. by rewrite bool_decide_eq_true_2.
Qed.

(** Keywords that do not fit the method: the call is refused before the
    method runs. *)
Lemma vcf_run_misfit Model (self : VcfFactory) (kw : kwargs) (w : world) :
  (kw <> ∅ -> vcf_run Model self "load_regions" kw w = (w, Raised TypeError)) /\
  (kw <> ∅ -> vcf_run Model self "load_variants" kw w = (w, Raised TypeError)) /\
  ((forall region, kw <> region_kwargs region) ->
   vcf_run Model self "load_variants_for_region" kw w = (w, Raised TypeError)).
Proof.
  unfold vcf_run. split; [|split].
  - intros Hkw.
    rewrite (bool_decide_eq_true_2 ("load_regions" = "load_regions")) by done.
    by rewrite (bool_decide_eq_false_2 (kw = ∅)).
  - intros Hkw.
    rewrite (bool_decide_eq_false_2 ("load_variants" = "load_regions")) by done.
    rewrite (bool_decide_eq_true_2 ("load_variants" = "load_variants")) by done.
    by rewrite (bool_decide_eq_false_2 (kw = ∅)).
  - intros Hkw.
    rewrite (bool_decide_eq_false_2 ("load_variants_for_region" = "load_regions")) by done.
    rewrite (bool_decide_eq_false_2 ("load_variants_for_region" = "load_variants")) by done.
    rewrite (bool_decide_eq_true_2
               ("load_variants_for_region" = "load_variants_for_region")) by done.
    destruct (kw_region kw) as [region|]; [|done].
    by rewrite (bool_decide_eq_false_2 (kw = region_kwargs region)).
Qed.

End RunDispatch.

(** X11. [run] with a name that is none of the methods the factory lists
    does nothing and reports nothing: the state is unchanged and no
    exception is raised, whatever the keyword arguments. For a VCF factory
    these are the names other than its three loaders, [load_genes] among
    them; for the constraint factory the names other than [load_genes]. *)
Theorem run_unknown_name_is_silent `{Collaborators} (self : VcfFactory)
    (gself : GnomadConstraintFactory) (fn : string) (kw : kwargs)
    (fuel : nat) (w : world) :
  (fn <> "load_regions" -> fn <> "load_variants" -> fn <> "load_variants_for_region" ->
   ClinvarFactory.run self fn kw w = (w, Ok tt) /\
   GnomadFactory.run self fn kw w = (w, Ok tt)) /\
  (fn <> "load_genes" ->
   GnomadConstraintFactory.run fuel gself fn kw w = (w, Ok (Some tt))).
Proof.
  split.
  - intros H1 H2 H3. split; by apply vcf_run_unknown.
  - intros H4. unfold GnomadConstraintFactory.run. by rewrite bool_decide_eq_false_2.
Qed.

Lemma run_unknown_name_is_silent_witness :
  ClinvarFactory.run (H := demo false) (demo_clinvar "demo.vcf") "load_genes"
    (batch_size_kwargs 100) demo_world = (demo_world, Ok tt) /\
  GnomadConstraintFactory.run (H := demo false) 5 (demo_constraint "constraint.tsv")
    "load_variants_for_region" (region_kwargs "1") demo_world = (demo_world, Ok (Some tt)).
Proof.
  split.
  - apply (proj1 (run_unknown_name_is_silent (H := demo false) (demo_clinvar "demo.vcf")
                    (demo_constraint "constraint.tsv") "load_genes" (batch_size_kwargs 100)
                    5 demo_world)); discriminate.
  - apply (proj2 (run_unknown_name_is_silent (H := demo false) (demo_clinvar "demo.vcf")
                    (demo_constraint "constraint.tsv") "load_variants_for_region"
                    (region_kwargs "1") 5 demo_world)); discriminate.
Defined.

(** X12. [run] reaches each listed method by its name. Called with the
    keywords the method takes (none for [load_regions] and
    [load_variants], [region] for [load_variants_for_region], [batch_size]
    or none for [load_genes], which then uses 100) it has the outcome of
    the method itself and leaves the same state. Called with keywords
    that do not fit the method it raises [TypeError] and leaves the state
    as it is. *)
Theorem run_reaches_the_method `{Collaborators} (self : VcfFactory)
    (gself : GnomadConstraintFactory) (region : string) (batch_size : Z) (fuel : nat)
    (kw : kwargs) (w : world) :
  ClinvarFactory.run self "load_regions" ∅ w = ClinvarFactory.load_regions self w /\
  ClinvarFactory.run self "load_variants" ∅ w = ClinvarFactory.load_variants self w /\
  ClinvarFactory.run self "load_variants_for_region" (region_kwargs region) w =
    ClinvarFactory.load_variants_for_region self region w /\
  GnomadFactory.run self "load_regions" ∅ w = GnomadFactory.load_regions self w /\
  GnomadFactory.run self "load_variants" ∅ w = GnomadFactory.load_variants self w /\
  GnomadFactory.run self "load_variants_for_region" (region_kwargs region) w =
    GnomadFactory.load_variants_for_region self region w /\
  GnomadConstraintFactory.run fuel gself "load_genes" (batch_size_kwargs batch_size) w =
    GnomadConstraintFactory.load_genes fuel gself batch_size w /\
  GnomadConstraintFactory.run fuel gself "load_genes" ∅ w =
    GnomadConstraintFactory.load_genes fuel gself 100 w /\
  (kw <> ∅ ->
   ClinvarFactory.run self "load_regions" kw w = (w, Raised TypeError) /\
   ClinvarFactory.run self "load_variants" kw w = (w, Raised TypeError) /\
   GnomadFactory.run self "load_regions" kw w = (w, Raised TypeError) /\
   GnomadFactory.run self "load_variants" kw w = (w, Raised TypeError)) /\
  ((forall region', kw <> region_kwargs region') ->
   ClinvarFactory.run self "load_variants_for_region" kw w = (w, Raised TypeError) /\
   GnomadFactory.run self "load_variants_for_region" kw w = (w, Raised TypeError)) /\
  (kw_region kw <> None \/ kw_other kw <> ∅ ->
   GnomadConstraintFactory.run fuel gself "load_genes" kw w = (w, Raised TypeError)).
Proof.
  destruct (vcf_run_known ClinvarVariantModel self region w) as (C1 & C2 & C3).
  destruct (vcf_run_known GnomadVariantModel self region w) as (G1 & G2 & G3).
  destruct (vcf_run_misfit ClinvarVariantModel self kw w) as (C4 & C5 & C6).
  destruct (vcf_run_misfit GnomadVariantModel self kw w) as (G4 & G5 & G6).
  do 8 (split; [done|]).
  split; [intros Hkw; by auto|]. split; [intros Hkw; by auto|].
  intros Hkw. unfold GnomadConstraintFactory.run.
  rewrite bool_decide_eq_true_2 by done.
  rewrite bool_decide_eq_false_2; [done|]. intros [? ?]. by destruct Hkw.
Qed.

(** ** The merge engine, further *)

Lemma vcf_contribution_reads (self : VcfFactory) (v : Variant) (w : world) :
  fst (vcf_contribution self v w) = w.
Proof.
  assert (keeps (fun w => w) (vcf_contribution self v)) as Hk.
  { unfold vcf_contribution, variant_annotation_of, VariantAnnotation_objects_get. keeps. }
  apply Hk.
Qed.

Lemma constraint_contribution_reads (self : GnomadConstraintFactory) (v : Variant)
    (w : world) :
  fst (constraint_contribution self v w) = w.
Proof. by rewrite constraint_contribution_ok. Qed.

Lemma world_eq (w w' : world) :
  same_store w w' -> node_rows w' = node_rows w -> objects w' = objects w ->
  dicts w' = dicts w -> w' = w.
Proof.
  destruct w, w'. unfold same_store. simpl. intros (? & ? & ? & ? & ? & ?) ? ? ?.
  by subst.
Qed.

Section MergeFailure.
Variable source_id : string.
Variable contribution_of : Variant -> M json.
Hypothesis contribution_reads : forall v w, fst (contribution_of v w) = w.

(** Either [merge_metadata] finds the two nodes, the contribution and a
    parent document with a "factories" dict, or it raises before it writes. *)
Lemma merge_node_with_cases (ref parent_ref : nat) (w : world) :
  (exists nd parent c m fs,
     objects w !! parent_ref = Some parent /\ objects w !! ref = Some nd /\
     contribution_of (node_variant nd) w = (w, Ok c) /\
     dicts w !! node_metadata parent = Some (JObj m) /\
     m !! "factories" = Some (JObj fs)) \/
  (exists e, merge_node_with source_id contribution_of ref parent_ref w = (w, Raised e)).
Proof.
  destruct (objects w !! parent_ref) as [parent|] eqn:Hparent; cycle 1.
  { right. exists ReferenceError.
    unfold merge_node_with, deref_node. unfold_monad. by rewrite Hparent. }
  destruct (objects w !! ref) as [nd|] eqn:Hnd; cycle 1.
  { right. exists ReferenceError. unfold merge_node_with.
    rewrite (bind_ok _ _ _ _ _ (deref_node_ok _ _ _ Hparent)).
    unfold deref_node. unfold_monad. by rewrite Hnd. }
  pose proof (contribution_reads (node_variant nd) w) as Hreads.
  destruct (contribution_of (node_variant nd) w) as [w1 [c|e1]] eqn:Hc;
    simpl in Hreads; subst w1; cycle 1.
  { right. exists e1. unfold merge_node_with.
    rewrite (bind_ok _ _ _ _ _ (deref_node_ok _ _ _ Hparent)).
    rewrite (bind_ok _ _ _ _ _ (deref_node_ok _ _ _ Hnd)).
    unfold bind. by rewrite Hc. }
  assert (forall r, set_factories_item (node_metadata parent) source_id c w = (w, Raised r) ->
            merge_node_with source_id contribution_of ref parent_ref w = (w, Raised r))
    as Hfail.
  { intros r Hset. unfold merge_node_with.
    rewrite (bind_ok _ _ _ _ _ (deref_node_ok _ _ _ Hparent)).
    rewrite (bind_ok _ _ _ _ _ (deref_node_ok _ _ _ Hnd)).
    rewrite (bind_ok _ _ _ _ _ Hc). unfold bind. by rewrite Hset. }
  destruct (dicts w !! node_metadata parent) as [d|] eqn:Hd; cycle 1.
  { right. exists ReferenceError. apply Hfail.
    unfold set_factories_item, deref_dict. unfold_monad. by rewrite Hd. }
  destruct d as [| | | | |m];
    try (right; exists TypeError; apply Hfail; unfold set_factories_item;
         by rewrite (bind_ok _ _ _ _ _ (deref_dict_ok _ _ _ Hd))).
  destruct (m !! "factories") as [fs|] eqn:Hfs; cycle 1.
  { right. exists (KeyError "factories"). apply Hfail. unfold set_factories_item.
    rewrite (bind_ok _ _ _ _ _ (deref_dict_ok _ _ _ Hd)). by rewrite Hfs. }
  destruct fs as [| | | | |fs];
    try (right; exists TypeError; apply Hfail; unfold set_factories_item;
         rewrite (bind_ok _ _ _ _ _ (deref_dict_ok _ _ _ Hd)); by rewrite Hfs).
  left. by exists nd, parent, c, m, fs.
Qed.

(** [merge_metadata] raises before it writes. *)
Lemma merge_node_with_atomic (ref parent_ref : nat) (w : world) (e : exn) :
  snd (merge_node_with source_id contribution_of ref parent_ref w) = Raised e ->
  fst (merge_node_with source_id contribution_of ref parent_ref w) = w.
Proof.
  destruct (merge_node_with_cases ref parent_ref w)
    as [(nd & parent & c & m & fs & Hparent & Hnd & Hc & Hd & Hfs)|[e' Hraised]].
  - destruct (merge_node_with_step source_id contribution_of ref parent_ref w nd parent c m fs
                Hparent Hnd Hc Hd Hfs) as (w' & Hrun & _).
    rewrite Hrun. discriminate.
  - by rewrite Hraised.
Qed.

(** What a successful [merge_metadata] found and what it left. *)
Lemma merge_node_with_ok (ref parent_ref : nat) (w w' : world) :
  merge_node_with source_id contribution_of ref parent_ref w = (w', Ok tt) ->
  exists nd parent c m fs,
    objects w !! parent_ref = Some parent /\ objects w !! ref = Some nd /\
    contribution_of (node_variant nd) w = (w, Ok c) /\
    dicts w !! node_metadata parent = Some (JObj m) /\
    m !! "factories" = Some (JObj fs) /\
    same_store w w' /\
    objects w' = <[ref := mkNode (node_pk nd) (node_variant nd) (node_metadata parent)
                            BUILDING_SUCCESS]> (objects w) /\
    dicts w' = <[node_metadata parent := merged_document m fs source_id c]> (dicts w) /\
    node_rows w' = <[node_pk nd := mkNodeRow (variant_pk (node_variant nd))
                                     (merged_document m fs source_id c)
                                     BUILDING_SUCCESS]> (node_rows w).
Proof.
  intros Hrun.
  destruct (merge_node_with_cases ref parent_ref w)
    as [(nd & parent & c & m & fs & Hparent & Hnd & Hc & Hd & Hfs)|[e' Hraised]];
    [|congruence].
  destruct (merge_node_with_step source_id contribution_of ref parent_ref w nd parent c m fs
              Hparent Hnd Hc Hd Hfs) as (w1 & Hrun1 & Hpost).
  assert (w1 = w') as -> by congruence.
  by exists nd, parent, c, m, fs.
Qed.

(** The parent of a merged node still refers to the same document. *)
Lemma merged_parent (ref parent_ref : nat) (objs : gmap nat NodeVariantAnnotation)
    (nd parent : NodeVariantAnnotation) :
  objs !! parent_ref = Some parent ->
  exists parent',
    <[ref := mkNode (node_pk nd) (node_variant nd) (node_metadata parent)
               BUILDING_SUCCESS]> objs !! parent_ref = Some parent' /\
    node_metadata parent' = node_metadata parent.
Proof.
  intros Hparent. destruct (decide (parent_ref = ref)) as [->|Hne].
  - rewrite lookup_insert_eq. by eexists.
  - rewrite lookup_insert_ne by done. by exists parent.
Qed.

Hypothesis contribution_pure : forall v w c, contribution_of v w = (w, Ok c) ->
  forall w', same_store w w' -> contribution_of v w' = (w', Ok c).

(** A second [merge_metadata] of the same node into the same parent finds
    everything as the first one left it. *)
Lemma merge_node_with_again (ref parent_ref : nat) (w w' : world) :
  merge_node_with source_id contribution_of ref parent_ref w = (w', Ok tt) ->
  merge_node_with source_id contribution_of ref parent_ref w' = (w', Ok tt).
Proof.
  intros Hrun.
  destruct (merge_node_with_ok ref parent_ref w w' Hrun)
    as (nd & parent & c & m & fs & Hparent & Hnd & Hc & Hd & Hfs & Hsame & Hobjs &
        Hdicts & Hrows).
  destruct (merged_parent ref parent_ref (objects w) nd parent Hparent)
    as (parent' & Hparent' & Hloc).
  rewrite <- Hobjs in Hparent'.
  set (nd' := mkNode (node_pk nd) (node_variant nd) (node_metadata parent) BUILDING_SUCCESS).
  assert (objects w' !! ref = Some nd') as Hnd'.
  { rewrite Hobjs. apply lookup_insert_eq. }
  assert (dicts w' !! node_metadata parent' = Some (merged_document m fs source_id c))
    as Hd'.
  { rewrite Hloc, Hdicts. apply lookup_insert_eq. }
  destruct (merge_node_with_step source_id contribution_of ref parent_ref w' nd' parent' c
              (<["factories" := JObj (<[source_id := c]> fs)]> m) (<[source_id := c]> fs))
    as (w2 & Hrun2 & Hsame2 & Hobjs2 & Hdicts2 & Hrows2);
    [done|done|by apply (contribution_pure _ w)|done|apply lookup_insert_eq|].
  rewrite Hrun2. f_equal. apply world_eq; [done| | |].
  - rewrite Hrows2. simpl. rewrite !insert_insert_eq.
    apply insert_id. rewrite Hrows. apply lookup_insert_eq.
  - rewrite Hobjs2. simpl. rewrite Hloc. by apply insert_id.
  - rewrite Hdicts2. rewrite !insert_insert_eq. by apply insert_id.
Qed.

End MergeFailure.

(** X13. [merge_metadata] fails before it writes: whenever it raises, for
    whatever reason, the memory, the stored node rows and the tables are
    exactly as before, so the node is neither given the parent's document
    nor marked nor saved. *)
Theorem merge_metadata_fails_without_effect (self : VcfFactory)
    (gself : GnomadConstraintFactory) (ref parent_ref : nat) (w : world) :
  (forall e, snd (ClinvarFactory.merge_metadata self ref parent_ref w) = Raised e ->
     fst (ClinvarFactory.merge_metadata self ref parent_ref w) = w) /\
  (forall e, snd (GnomadFactory.merge_metadata self ref parent_ref w) = Raised e ->
     fst (GnomadFactory.merge_metadata self ref parent_ref w) = w) /\
  (forall e, snd (GnomadConstraintFactory.merge_metadata gself ref parent_ref w) = Raised e ->
     fst (GnomadConstraintFactory.merge_metadata gself ref parent_ref w) = w).
Proof.
  unfold ClinvarFactory.merge_metadata, GnomadFactory.merge_metadata.
  rewrite vcf_merge_metadata_shape, constraint_merge_metadata_shape.
  split; [|split]; intros e.
  - apply merge_node_with_atomic, vcf_contribution_reads.
  - apply merge_node_with_atomic, vcf_contribution_reads.
  - apply merge_node_with_atomic, constraint_contribution_reads.
Qed.

(** X14. [merge_metadata] needs a parent whose document already has the
    "factories" key. When the node and the parent exist and the parent's
    document is a dict without that key, such as the empty document of a
    node that was never initialised, [merge_metadata] of the constraint
    factory raises [KeyError("factories")]. [merge_metadata] of a VCF
    factory makes its lookup of the annotation first: it raises
    [KeyError("factories")] when the node's variant has at most one
    annotation row of the factory, and [MultipleObjectsReturned] when it
    has several. In every case nothing is changed. *)
Theorem merge_metadata_needs_factories (self : VcfFactory) (gself : GnomadConstraintFactory)
    (ref parent_ref : nat) (w : world) (nd parent : NodeVariantAnnotation)
    (m : gmap string json) :
  objects w !! parent_ref = Some parent ->
  objects w !! ref = Some nd ->
  dicts w !! node_metadata parent = Some (JObj m) ->
  m !! "factories" = None ->
  let e := if decide (length (annotation_rows (vcf_pk self) (variant_pk (node_variant nd))
                                (variant_annotations w)) <= 1)
           then KeyError "factories" else MultipleObjectsReturned in
  ClinvarFactory.merge_metadata self ref parent_ref w = (w, Raised e) /\
  GnomadFactory.merge_metadata self ref parent_ref w = (w, Raised e) /\
  GnomadConstraintFactory.merge_metadata gself ref parent_ref w
    = (w, Raised (KeyError "factories")).
Proof.
  intros Hparent Hnd Hd Hfs e.
  unfold ClinvarFactory.merge_metadata, GnomadFactory.merge_metadata.
  rewrite vcf_merge_metadata_shape, constraint_merge_metadata_shape.
  unfold merge_node_with.
  rewrite !(bind_ok _ _ _ _ _ (deref_node_ok _ _ _ Hparent)).
  rewrite !(bind_ok _ _ _ _ _ (deref_node_ok _ _ _ Hnd)).
  rewrite (bind_ok _ _ _ _ _ (constraint_contribution_ok gself _ w)).
  assert (forall key c, set_factories_item (node_metadata parent) key c w
            = (w, Raised (KeyError "factories"))) as Hset.
  { intros key c. unfold set_factories_item.
    rewrite (bind_ok _ _ _ _ _ (deref_dict_ok _ _ _ Hd)). by rewrite Hfs. }
  assert (bind (vcf_contribution self (node_variant nd))
            (fun c => bind (set_factories_item (node_metadata parent) (str (vcf_pk self)) c)
               (fun _ => bind (set_node_metadata ref (node_metadata parent))
                  (fun _ => bind (set_node_building ref BUILDING_SUCCESS)
                     (fun _ => node_save ref)))) w = (w, Raised e)) as Hvcf.
  { subst e. destruct (decide (length _ <= 1)) as [Hone|Hmany].
    - rewrite (bind_ok _ _ _ _ _ (vcf_contribution_ok self _ w Hone)).
      unfold bind. by rewrite Hset.
    - unfold bind at 1. by rewrite (vcf_contribution_raises self _ w Hmany). }
  split; [exact Hvcf|]. split; [exact Hvcf|].
  unfold bind. by rewrite Hset.
Qed.

Lemma merge_metadata_needs_factories_witness :
  ClinvarFactory.merge_metadata (demo_clinvar "demo.vcf") 2 1 demo_world
    = (demo_world, Raised (KeyError "factories")) /\
  ClinvarFactory.merge_metadata (demo_clinvar "demo.vcf") 0 1 demo_world_two_rows
    = (demo_world_two_rows, Raised MultipleObjectsReturned).
Proof.
  split.
  - apply (merge_metadata_needs_factories (demo_clinvar "demo.vcf")
             (demo_constraint "constraint.tsv") 2 1 demo_world
             (mkNode 12 (demo_variant 2 250) 2 BUILDING_PENDING)
             (mkNode 11 (demo_variant 1 150) 1 BUILDING_PENDING) ∅); reflexivity.
  - apply (merge_metadata_needs_factories (demo_clinvar "demo.vcf")
             (demo_constraint "constraint.tsv") 0 1 demo_world_two_rows
             (mkNode 10 (demo_variant 1 150) 0 BUILDING_PENDING)
             (mkNode 11 (demo_variant 1 150) 1 BUILDING_PENDING) ∅); reflexivity.
Defined.

Section TwoSources.
Variables (idA idB : string) (contribA contribB : Variant -> M json).
Hypothesis readsA : forall v w, fst (contribA v w) = w.
Hypothesis readsB : forall v w, fst (contribB v w) = w.

(** [init_metadata] by one source on the parent, then [merge_metadata] by
    another source of a node into that parent. *)
Lemma init_then_merge (p n : nat) (w : world) (P Nd : NodeVariantAnnotation) (a b : json) :
  objects w !! p = Some P -> objects w !! n = Some Nd ->
  contribA (node_variant P) w = (w, Ok a) ->
  (forall w', same_store w w' -> contribB (node_variant Nd) w' = (w', Ok b)) ->
  exists w1 w2 loc,
    for_each [p] (init_node_with idA contribA) w = (w1, Ok tt) /\
    merge_node_with idB contribB n p w1 = (w2, Ok tt) /\
    same_store w w2 /\
    dicts w !! loc = None /\
    node_metadata <$> objects w2 !! p = Some loc /\
    node_metadata <$> objects w2 !! n = Some loc /\
    dicts w2 !! loc = Some (JObj {[ "factories" := JObj (<[idB := b]> {[ idA := a ]}) ]}) /\
    node_rows w2 !! node_pk Nd =
      Some (mkNodeRow (variant_pk (node_variant Nd))
              (JObj {[ "factories" := JObj (<[idB := b]> {[ idA := a ]}) ]})
              BUILDING_SUCCESS).
Proof.
  intros HP HNd Ha Hb.
  destruct (init_node_with_step idA contribA p w P a HP Ha)
    as (w1 & Hrun1 & Hsame1 & Hobjs1 & Hdicts1 & Hrows1).
  set (loc := fresh (dom (dicts w))) in *.
  set (P1 := mkNode (node_pk P) (node_variant P) loc BUILDING_SUCCESS) in *.
  assert (objects w1 !! p = Some P1) as HP1.
  { rewrite Hobjs1. apply lookup_insert_eq. }
  assert (exists Nd1, objects w1 !! n = Some Nd1 /\ node_pk Nd1 = node_pk Nd /\
            node_variant Nd1 = node_variant Nd) as (Nd1 & HNd1 & Hpk & Hv).
  { rewrite Hobjs1. destruct (decide (n = p)) as [->|Hne].
    - rewrite lookup_insert_eq. exists P1. split; [done|]. simpl. split; congruence.
    - rewrite lookup_insert_ne by done. by exists Nd. }
  destruct (merge_node_with_step idB contribB n p w1 Nd1 P1 b
              {[ "factories" := JObj {[ idA := a ]} ]} {[ idA := a ]})
    as (w2 & Hrun2 & Hsame2 & Hobjs2 & Hdicts2 & Hrows2);
    [done|done|rewrite Hv; by apply Hb| |apply lookup_insert_eq|].
  { simpl. rewrite Hdicts1. apply lookup_insert_eq. }
  simpl in Hobjs2, Hdicts2, Hrows2. rewrite insert_singleton_eq in Hdicts2, Hrows2.
  exists w1, w2, loc. rewrite for_each_cons, Hrun1. simpl.
  split; [done|]. split; [done|]. split; [by eapply same_store_trans|].
  split; [apply not_elem_of_dom, is_fresh|].
  split.
  { rewrite Hobjs2. destruct (decide (p = n)) as [->|Hne].
    - by rewrite lookup_insert_eq.
    - rewrite lookup_insert_ne by done. by rewrite HP1. }
  split; [by rewrite Hobjs2, lookup_insert_eq|].
  split; [by rewrite Hdicts2, lookup_insert_eq|].
  rewrite Hrows2, Hpk, Hv. apply lookup_insert_eq.
Qed.

(** [merge_metadata] of a node into a parent, then of a second node into
    the first. *)
Lemma merge_chain (p n1 n2 : nat) (w w1 w2 : world) :
  merge_node_with idA contribA n1 p w = (w1, Ok tt) ->
  merge_node_with idB contribB n2 n1 w1 = (w2, Ok tt) ->
  exists nd1 nd2 b m1 fs1 loc,
    objects w !! n1 = Some nd1 /\ objects w1 !! n2 = Some nd2 /\
    contribB (node_variant nd2) w1 = (w1, Ok b) /\
    dicts w1 !! loc = Some (JObj m1) /\ m1 !! "factories" = Some (JObj fs1) /\
    node_rows w1 !! node_pk nd1 =
      Some (mkNodeRow (variant_pk (node_variant nd1)) (JObj m1) BUILDING_SUCCESS) /\
    node_metadata <$> objects w1 !! n1 = Some loc /\
    (forall r, r ∈ [p; n1; n2] -> node_metadata <$> objects w2 !! r = Some loc) /\
    dicts w2 !! loc = Some (merged_document m1 fs1 idB b) /\
    (node_pk nd2 <> node_pk nd1 -> node_rows w2 !! node_pk nd1 = node_rows w1 !! node_pk nd1).
Proof.
  intros Hrun1 Hrun2.
  destruct (merge_node_with_ok idA contribA readsA n1 p w w1 Hrun1)
    as (nd1 & parent & a & m & fs & Hparent & Hnd1 & Ha & Hd & Hfs & Hsame1 & Hobjs1 &
        Hdicts1 & Hrows1).
  destruct (merge_node_with_ok idB contribB readsB n2 n1 w1 w2 Hrun2)
    as (nd2 & parent2 & b & m1 & fs1 & Hparent2 & Hnd2 & Hb & Hd2 & Hfs2 & Hsame2 & Hobjs2 &
        Hdicts2 & Hrows2).
  assert (parent2 = mkNode (node_pk nd1) (node_variant nd1) (node_metadata parent)
                      BUILDING_SUCCESS) as ->.
  { rewrite Hobjs1, lookup_insert_eq in Hparent2. congruence. }
  simpl in *.
  assert (JObj m1 = merged_document m fs idA a) as Hm1.
  { rewrite Hdicts1, lookup_insert_eq in Hd2. congruence. }
  exists nd1, nd2, b, m1, fs1, (node_metadata parent).
  split; [done|]. split; [done|]. split; [done|]. split; [done|]. split; [done|].
  split; [rewrite Hrows1, Hm1; apply lookup_insert_eq|].
  split; [by rewrite Hobjs1, lookup_insert_eq|].
  split; [|split].
  - intros r Hr. rewrite Hobjs2.
    destruct (decide (r = n2)) as [->|Hne2]; [by rewrite lookup_insert_eq|].
    rewrite lookup_insert_ne by done. rewrite Hobjs1.
    destruct (decide (r = n1)) as [->|Hne1]; [by rewrite lookup_insert_eq|].
    rewrite lookup_insert_ne by done.
    assert (r = p) as ->.
    { repeat (apply elem_of_cons in Hr as [?|Hr]; [done|]). by apply elem_of_nil in Hr. }
    by rewrite Hparent.
  - rewrite Hdicts2. apply lookup_insert_eq.
  - intros Hpk. rewrite Hrows2. by apply lookup_insert_ne.
Qed.

End TwoSources.

Lemma same_store_sym (w w' : world) : same_store w w' -> same_store w' w.
Proof. intros (? & ? & ? & ? & ? & ?). by repeat split. Qed.

Section FreshDocuments.
Variable source_id : string.
Variable contribution_of : Variant -> M json.
Hypothesis contribution_reads : forall v w, fst (contribution_of v w) = w.
Hypothesis contribution_pure : forall v w c, contribution_of v w = (w, Ok c) ->
  forall w', same_store w w' -> contribution_of v w' = (w', Ok c).

(** What [init_metadata] found when it ended normally. *)
Lemma init_node_with_found (r : nat) (w w1 : world) :
  init_node_with source_id contribution_of r w = (w1, Ok tt) ->
  exists nd c, objects w !! r = Some nd /\ contribution_of (node_variant nd) w = (w, Ok c).
Proof.
  unfold init_node_with.
  destruct (objects w !! r) as [nd|] eqn:Hnd; cycle 1.
  { unfold deref_node. unfold_monad. by rewrite Hnd. }
  rewrite (bind_ok _ _ _ _ _ (deref_node_ok _ _ _ Hnd)).
  pose proof (contribution_reads (node_variant nd) w) as Hreads.
  unfold bind at 1.
  destruct (contribution_of (node_variant nd) w) as [w2 [c|e]] eqn:Hc;
    [|intros E; inversion E].
  simpl in Hreads. subst w2. intros _. by exists nd, c.
Qed.

Lemma init_with_found (nodes : list nat) :
  forall w w' : world,
  for_each nodes (init_node_with source_id contribution_of) w = (w', Ok tt) ->
  forall r, r ∈ nodes -> exists nd c,
    objects w !! r = Some nd /\ contribution_of (node_variant nd) w = (w, Ok c).
Proof.
  induction nodes as [|r0 rest IH]; intros w w' Hrun r Hr; [by apply elem_of_nil in Hr|].
  rewrite for_each_cons in Hrun.
  destruct (init_node_with source_id contribution_of r0 w) as [w1 [[]|e]] eqn:Hstep;
    [|done].
  destruct (init_node_with_found r0 w w1 Hstep) as (nd0 & c0 & Hnd0 & Hc0).
  destruct (decide (r = r0)) as [->|Hne]; [by exists nd0, c0|].
  apply elem_of_cons in Hr as [?|Hr]; [done|].
  destruct (init_node_with_step source_id contribution_of r0 w nd0 c0 Hnd0 Hc0)
    as (w1' & Hstep' & Hsame & Hobjs & _).
  assert (w1' = w1) as -> by congruence.
  destruct (IH w1 w' Hrun r Hr) as (nd & c & Hnd & Hc).
  rewrite Hobjs, lookup_insert_ne in Hnd by done.
  exists nd, c. split; [done|].
  apply (contribution_pure _ w1); [done|by apply same_store_sym].
Qed.

(** Two nodes of the list never get the same document object. *)
Lemma init_with_distinct (nodes : list nat) :
  forall w w' : world,
  (forall r, r ∈ nodes -> exists nd c,
     objects w !! r = Some nd /\ contribution_of (node_variant nd) w = (w, Ok c)) ->
  for_each nodes (init_node_with source_id contribution_of) w = (w', Ok tt) ->
  forall r1 r2, r1 ∈ nodes -> r2 ∈ nodes -> r1 <> r2 ->
  exists x1 x2,
    objects w' !! r1 = Some x1 /\ objects w' !! r2 = Some x2 /\
    node_metadata x1 <> node_metadata x2.
Proof.
  induction nodes as [|r0 rest IH]; intros w w' Hpre Hrun r1 r2 Hr1 Hr2 Hne.
  { by apply elem_of_nil in Hr1. }
  destruct (Hpre r0) as (nd0 & c0 & Hnd0 & Hc0); [left|].
  destruct (init_node_with_step source_id contribution_of r0 w nd0 c0 Hnd0 Hc0)
    as (w1 & Hrun1 & Hsame1 & Hobjs1 & Hdicts1 & Hrows1).
  set (loc0 := fresh (dom (dicts w))) in *.
  assert (forall r, r ∈ rest -> exists nd c,
            objects w1 !! r = Some nd /\ contribution_of (node_variant nd) w1 = (w1, Ok c))
    as Hpre1.
  { intros r Hr. destruct (Hpre r) as (nd & c & Hnd & Hc); [by right|].
    rewrite Hobjs1. destruct (decide (r = r0)) as [->|Hne0].
    - rewrite lookup_insert_eq. eexists. exists c. split; [done|]. simpl.
      assert (nd = nd0) as -> by congruence. by apply (contribution_pure _ w).
    - rewrite lookup_insert_ne by done. exists nd, c. split; [done|].
      by apply (contribution_pure _ w). }
  rewrite for_each_cons, Hrun1 in Hrun.
  destruct (init_with_all source_id contribution_of rest contribution_pure w1 Hpre1)
    as (w'' & Hrun' & _ & _ & Hframe & Hpost & _).
  assert (w'' = w') as -> by congruence.
  assert (forall r, r ∈ rest -> exists x,
            objects w' !! r = Some x /\ node_metadata x <> loc0) as Hrest.
  { intros r Hr. destruct (Hpre1 r Hr) as (nd & c & Hnd & _).
    destruct (Hpost r nd Hr Hnd) as (loc & _ & _ & Hnone & Hobj & _).
    eexists. split; [exact Hobj|]. simpl. intros ->.
    rewrite Hdicts1, lookup_insert_eq in Hnone. discriminate. }
  assert (r0 ∉ rest -> exists x, objects w' !! r0 = Some x /\ node_metadata x = loc0)
    as Hhead.
  { intros Hr0. rewrite (Hframe r0 Hr0), Hobjs1, lookup_insert_eq. by eexists. }
  destruct (decide (r1 ∈ rest)) as [Hin1|Hout1];
    destruct (decide (r2 ∈ rest)) as [Hin2|Hout2].
  - by apply (IH w1 w').
  - assert (r2 = r0) as -> by (apply elem_of_cons in Hr2 as [?|?]; done).
    destruct (Hrest r1 Hin1) as (x1 & Hx1 & Hloc1).
    destruct (Hhead Hout2) as (x2 & Hx2 & Hloc2).
    exists x1, x2. split; [done|]. split; [done|]. congruence.
  - assert (r1 = r0) as -> by (apply elem_of_cons in Hr1 as [?|?]; done).
    destruct (Hrest r2 Hin2) as (x2 & Hx2 & Hloc2).
    destruct (Hhead Hout1) as (x1 & Hx1 & Hloc1).
    exists x1, x2. split; [done|]. split; [done|]. congruence.
  - apply elem_of_cons in Hr1 as [?|?]; [|done].
    apply elem_of_cons in Hr2 as [?|?]; [|done]. congruence.
Qed.

End FreshDocuments.

Lemma document_at (w : world) (r loc : nat) (d : json) :
  node_metadata <$> objects w !! r = Some loc -> dicts w !! loc = Some d ->
  document w r = Some d.
Proof.
  unfold document. destruct (objects w !! r) as [x|]; simpl; [|done].
  by intros [= ->].
Qed.

(** X15. [init_metadata] of a VCF factory on a parent followed by
    [merge_metadata] of the constraint factory of a node into that parent,
    when the parent and the node exist, the two factories have different
    primary keys and the parent's variant has at most one annotation row
    of the VCF factory: both calls end normally, the parent and the node
    then refer to one document, and its "factories" dict holds the stored
    payload of the parent's variant under the VCF factory's key, the
    overlapping genes of the node's variant under the constraint factory's
    key, and no other key. *)
Theorem init_then_merge_keeps_both (self : VcfFactory) (gself : GnomadConstraintFactory)
    (p n : nat) (w : world) (P Nd : NodeVariantAnnotation) :
  vcf_pk self <> gc_pk gself ->
  objects w !! p = Some P -> objects w !! n = Some Nd ->
  at_most_one_row self (node_variant P) w ->
  exists w1 w2 doc,
    ClinvarFactory.init_metadata self [p] w = (w1, Ok tt) /\
    GnomadConstraintFactory.merge_metadata gself n p w1 = (w2, Ok tt) /\
    document w2 p = Some doc /\ document w2 n = Some doc /\
    contribution doc (str (vcf_pk self)) =
      Some (JObj {[ "variant_annotations" :=
              JArr [stored_payload self (node_variant P) w] ]}) /\
    contribution doc (str (gc_pk gself)) =
      Some (JObj {[ "genes" :=
              JArr (gene_metadata <$> filter (overlaps gself (node_variant Nd)) (genes w)) ]}) /\
    (forall k, k <> str (vcf_pk self) -> k <> str (gc_pk gself) -> contribution doc k = None).
Proof.
  intros Hpk HP HNd Hone.
  assert (str (gc_pk gself) <> str (vcf_pk self)) as Hkeys.
  { unfold str. intros E. apply Hpk. symmetry. by apply (inj pretty). }
  destruct (init_then_merge (str (vcf_pk self)) (str (gc_pk gself)) (vcf_contribution self)
              (constraint_contribution gself) p n w P Nd
              (JObj {[ "variant_annotations" :=
                 JArr [stored_payload self (node_variant P) w] ]})
              (JObj {[ "genes" :=
                 JArr (gene_metadata <$> filter (overlaps gself (node_variant Nd)) (genes w)) ]})
              HP HNd)
    as (w1 & w2 & loc & Hrun1 & Hrun2 & _ & _ & Hp & Hn & Hdoc & _).
  { by apply vcf_contribution_ok. }
  { intros w' (_ & _ & _ & Hgenes & _). rewrite constraint_contribution_ok.
    by rewrite Hgenes. }
  exists w1, w2. eexists.
  unfold ClinvarFactory.init_metadata.
  rewrite vcf_init_metadata_shape, constraint_merge_metadata_shape.
  split; [done|]. split; [done|].
  split; [by apply (document_at _ _ loc)|]. split; [by apply (document_at _ _ loc)|].
  unfold contribution. rewrite lookup_singleton_eq.
  split; [by rewrite lookup_insert_ne, lookup_singleton_eq|].
  split; [by rewrite lookup_insert_eq|].
  intros k Hk1 Hk2. rewrite lookup_insert_ne by done. by rewrite lookup_singleton_ne.
Qed.

Lemma init_then_merge_keeps_both_witness :
  exists w1 w2 doc,
    ClinvarFactory.init_metadata (demo_clinvar "demo.vcf") [0] demo_world = (w1, Ok tt) /\
    GnomadConstraintFactory.merge_metadata (demo_constraint "constraint.tsv") 2 0 w1
      = (w2, Ok tt) /\
    document w2 0 = Some doc /\ document w2 2 = Some doc /\
    contribution doc "1" = Some (JObj {[ "variant_annotations" := JArr [infos "Benign"] ]}) /\
    contribution doc "3" = Some (JObj {[ "genes" := JArr [] ]}).
Proof.
  destruct (init_then_merge_keeps_both (demo_clinvar "demo.vcf")
              (demo_constraint "constraint.tsv") 0 2 demo_world
              (mkNode 10 (demo_variant 1 150) 0 BUILDING_PENDING)
              (mkNode 12 (demo_variant 2 250) 2 BUILDING_PENDING))
    as (w1 & w2 & doc & Hrun1 & Hrun2 & Hp & Hn & Ha & Hb & _);
    [vm_compute; discriminate | reflexivity | reflexivity | vm_compute; lia |].
  exists w1, w2, doc. repeat split; done.
Defined.

(** X16. [merge_metadata] is idempotent: when it has succeeded, a second
    call with the same node and the same parent succeeds and leaves the
    memory, the stored node rows and the tables exactly as the first call
    left them. *)
Theorem merge_metadata_twice (self : VcfFactory) (gself : GnomadConstraintFactory)
    (ref parent_ref : nat) (w w' : world) :
  (ClinvarFactory.merge_metadata self ref parent_ref w = (w', Ok tt) ->
   ClinvarFactory.merge_metadata self ref parent_ref w' = (w', Ok tt)) /\
  (GnomadFactory.merge_metadata self ref parent_ref w = (w', Ok tt) ->
   GnomadFactory.merge_metadata self ref parent_ref w' = (w', Ok tt)) /\
  (GnomadConstraintFactory.merge_metadata gself ref parent_ref w = (w', Ok tt) ->
   GnomadConstraintFactory.merge_metadata gself ref parent_ref w' = (w', Ok tt)).
Proof.
  unfold ClinvarFactory.merge_metadata, GnomadFactory.merge_metadata.
  rewrite !vcf_merge_metadata_shape, !constraint_merge_metadata_shape.
  split; [|split].
  - apply merge_node_with_again;
      [apply vcf_contribution_reads | apply vcf_contribution_pure].
  - apply merge_node_with_again;
      [apply vcf_contribution_reads | apply vcf_contribution_pure].
  - apply merge_node_with_again;
      [apply constraint_contribution_reads | apply constraint_contribution_pure].
Qed.

Lemma merge_metadata_twice_witness :
  let w' := fst (ClinvarFactory.merge_metadata (demo_clinvar "demo.vcf") 1 0 demo_world) in
  ClinvarFactory.merge_metadata (demo_clinvar "demo.vcf") 1 0 demo_world = (w', Ok tt) /\
  ClinvarFactory.merge_metadata (demo_clinvar "demo.vcf") 1 0 w' = (w', Ok tt).
Proof.
  intros w'.
  assert (ClinvarFactory.merge_metadata (demo_clinvar "demo.vcf") 1 0 demo_world
          = (w', Ok tt)) as Hrun by reflexivity.
  split; [exact Hrun|].
  exact (proj1 (merge_metadata_twice (demo_clinvar "demo.vcf")
                  (demo_constraint "constraint.tsv") 1 0 demo_world w') Hrun).
Defined.

(** X17. A chain of merges shares one document: after [merge_metadata] of
    a VCF factory of a first node into a parent and [merge_metadata] of the
    constraint factory of a second node into the first, the parent and both
    nodes refer to the same document, which is the first node's document
    with the constraint factory's key set. The stored row of the first
    node is not written again: it still holds its document from before the
    second merge. *)
Theorem merge_chain_shares_one_document (self : VcfFactory)
    (gself : GnomadConstraintFactory) (p n1 n2 : nat) (w w1 w2 : world) :
  ClinvarFactory.merge_metadata self n1 p w = (w1, Ok tt) ->
  GnomadConstraintFactory.merge_metadata gself n2 n1 w1 = (w2, Ok tt) ->
  exists nd1 nd2 doc1 doc2,
    objects w !! n1 = Some nd1 /\ objects w1 !! n2 = Some nd2 /\
    document w1 n1 = Some doc1 /\
    document w2 p = Some doc2 /\ document w2 n1 = Some doc2 /\ document w2 n2 = Some doc2 /\
    contribution doc2 (str (gc_pk gself)) =
      Some (JObj {[ "genes" :=
              JArr (gene_metadata <$> filter (overlaps gself (node_variant nd2)) (genes w)) ]}) /\
    (forall k, k <> str (gc_pk gself) -> contribution doc2 k = contribution doc1 k) /\
    (node_pk nd2 <> node_pk nd1 ->
       node_rows w2 !! node_pk nd1 =
         Some (mkNodeRow (variant_pk (node_variant nd1)) doc1 BUILDING_SUCCESS)).
Proof.
  unfold ClinvarFactory.merge_metadata.
  rewrite vcf_merge_metadata_shape, constraint_merge_metadata_shape.
  intros Hrun1 Hrun2.
  destruct (merge_node_with_ok _ _ (vcf_contribution_reads self) n1 p w w1 Hrun1)
    as (_ & _ & _ & _ & _ & _ & _ & _ & _ & _ & (_ & _ & _ & Hgenes & _) & _).
  destruct (merge_chain (str (vcf_pk self)) (str (gc_pk gself)) (vcf_contribution self)
              (constraint_contribution gself) (vcf_contribution_reads self)
              (constraint_contribution_reads gself) p n1 n2 w w1 w2 Hrun1 Hrun2)
    as (nd1 & nd2 & b & m1 & fs1 & loc & Hnd1 & Hnd2 & Hb & Hd1 & Hfs1 & Hrow1 & Hloc1 &
        Hlocs & Hd2 & Hstale).
  rewrite constraint_contribution_ok in Hb. injection Hb as <-.
  exists nd1, nd2, (JObj m1), (merged_document m1 fs1 (str (gc_pk gself))
    (JObj {[ "genes" :=
       JArr (gene_metadata <$> filter (overlaps gself (node_variant nd2)) (genes w1)) ]})).
  split; [done|]. split; [done|].
  split; [by apply (document_at _ _ loc)|].
  split; [apply (document_at _ _ loc); [apply Hlocs; set_solver|done]|].
  split; [apply (document_at _ _ loc); [apply Hlocs; set_solver|done]|].
  split; [apply (document_at _ _ loc); [apply Hlocs; set_solver|done]|].
  unfold merged_document, contribution. rewrite lookup_insert_eq, Hfs1.
  split; [by rewrite lookup_insert_eq, Hgenes|].
  split; [intros k Hk; by rewrite lookup_insert_ne|].
  intros Hpk. by rewrite (Hstale Hpk).
Qed.

Lemma merge_chain_shares_one_document_witness :
  let w1 := fst (ClinvarFactory.merge_metadata (demo_clinvar "demo.vcf") 1 0 demo_world) in
  let w2 := fst (GnomadConstraintFactory.merge_metadata (demo_constraint "constraint.tsv")
                   2 1 w1) in
  exists doc1 doc2,
    document w1 1 = Some doc1 /\
    document w2 0 = Some doc2 /\ document w2 1 = Some doc2 /\ document w2 2 = Some doc2 /\
    contribution doc2 "3" = Some (JObj {[ "genes" := JArr [] ]}) /\
    node_rows w2 !! 11%N = Some (mkNodeRow 1 doc1 BUILDING_SUCCESS).
Proof.
  intros w1 w2.
  destruct (merge_chain_shares_one_document (demo_clinvar "demo.vcf")
              (demo_constraint "constraint.tsv") 0 1 2 demo_world w1 w2)
    as (nd1 & nd2 & doc1 & doc2 & Hnd1 & Hnd2 & Hdoc1 & Hp & Hn1 & Hn2 & Hc & _ & Hrow);
    [reflexivity | reflexivity |].
  injection Hnd1 as <-. injection Hnd2 as <-.
  exists doc1, doc2. repeat split; try done.
  by apply Hrow.
Defined.

(** X18. [init_metadata] gives every listed node a document object of its
    own: after an [init_metadata] that ended normally, two different nodes
    of the list never refer to the same document, so a later change of one
    node's document cannot show in the other's. *)
Theorem init_metadata_documents_not_shared (self : VcfFactory)
    (gself : GnomadConstraintFactory) (nodes : list nat) (w : world) (r1 r2 : nat) :
  r1 ∈ nodes -> r2 ∈ nodes -> r1 <> r2 ->
  (forall w', ClinvarFactory.init_metadata self nodes w = (w', Ok tt) ->
     exists x1 x2,
       objects w' !! r1 = Some x1 /\ objects w' !! r2 = Some x2 /\
       node_metadata x1 <> node_metadata x2) /\
  (forall w', GnomadFactory.init_metadata self nodes w = (w', Ok tt) ->
     exists x1 x2,
       objects w' !! r1 = Some x1 /\ objects w' !! r2 = Some x2 /\
       node_metadata x1 <> node_metadata x2) /\
  (forall w', GnomadConstraintFactory.init_metadata gself nodes w = (w', Ok tt) ->
     exists x1 x2,
       objects w' !! r1 = Some x1 /\ objects w' !! r2 = Some x2 /\
       node_metadata x1 <> node_metadata x2).
Proof.
  intros Hr1 Hr2 Hne.
  assert (forall w', vcf_init_metadata self nodes w = (w', Ok tt) ->
     exists x1 x2,
       objects w' !! r1 = Some x1 /\ objects w' !! r2 = Some x2 /\
       node_metadata x1 <> node_metadata x2) as Hvcf.
  { intros w'. rewrite vcf_init_metadata_shape. intros Hrun.
    apply (init_with_distinct (str (vcf_pk self)) (vcf_contribution self)
             (vcf_contribution_pure self) nodes w w'); try done.
    apply (init_with_found (str (vcf_pk self)) (vcf_contribution self)
             (vcf_contribution_reads self) (vcf_contribution_pure self) nodes w w' Hrun). }
  split; [exact Hvcf|]. split; [exact Hvcf|].
  intros w'. rewrite constraint_init_metadata_shape. intros Hrun.
  apply (init_with_distinct (str (gc_pk gself)) (constraint_contribution gself)
           (constraint_contribution_pure gself) nodes w w'); try done.
  apply (init_with_found (str (gc_pk gself)) (constraint_contribution gself)
           (constraint_contribution_reads gself) (constraint_contribution_pure gself)
           nodes w w' Hrun).
Qed.

Lemma init_metadata_documents_not_shared_witness :
  let w' := fst (ClinvarFactory.init_metadata (demo_clinvar "demo.vcf") [0; 1; 2] demo_world) in
  exists x1 x2,
    objects w' !! 0 = Some x1 /\ objects w' !! 2 = Some x2 /\
    node_metadata x1 <> node_metadata x2.
Proof.
  intros w'.
  apply (proj1 (init_metadata_documents_not_shared (demo_clinvar "demo.vcf")
                  (demo_constraint "constraint.tsv") [0; 1; 2] demo_world 0 2
                  (list_elem_of_here _ _)
                  (list_elem_of_further _ _ _ (list_elem_of_further _ _ _
                     (list_elem_of_here _ _)))
                  ltac:(discriminate)) w').
  subst w'. vm_compute. reflexivity.
Defined.

(** X19. [init_metadata] of a VCF factory does not fail as a whole: at
    the first node whose variant has more than one annotation row of the
    factory it raises [MultipleObjectsReturned]; the nodes listed before it
    have been initialised, marked and saved, the node itself and those
    after it are left as they were. *)
Theorem init_metadata_stops_at_ambiguous_node (self : VcfFactory)
    (before after : list nat) (bad : nat) (nd : NodeVariantAnnotation) (w : world) :
  (forall r, r ∈ before -> exists nd,
     objects w !! r = Some nd /\ at_most_one_row self (node_variant nd) w) ->
  objects w !! bad = Some nd ->
  ~ at_most_one_row self (node_variant nd) w ->
  exists w1,
    ClinvarFactory.init_metadata self before w = (w1, Ok tt) /\
    ClinvarFactory.init_metadata self (before ++ bad :: after) w
      = (w1, Raised MultipleObjectsReturned) /\
    GnomadFactory.init_metadata self (before ++ bad :: after) w
      = (w1, Raised MultipleObjectsReturned).
Proof.
  intros Hpre Hbad Hmany.
  assert (forall r, r ∈ before -> exists nd c,
            objects w !! r = Some nd /\ vcf_contribution self (node_variant nd) w = (w, Ok c))
    as Hpre'.
  { intros r Hr. destruct (Hpre r Hr) as (x & Hx & Hone).
    exists x. eexists. split; [done|]. by apply vcf_contribution_ok. }
  destruct (init_with_all (str (vcf_pk self)) (vcf_contribution self) before
              (vcf_contribution_pure self) w Hpre')
    as (w1 & Hrun & Hsame & _ & Hframe & Hpost & _).
  exists w1. unfold ClinvarFactory.init_metadata, GnomadFactory.init_metadata.
  rewrite !vcf_init_metadata_shape. split; [done|].
  assert (exists nd1, objects w1 !! bad = Some nd1 /\ node_variant nd1 = node_variant nd)
    as (nd1 & Hnd1 & Hv).
  { destruct (decide (bad ∈ before)) as [Hin|Hout].
    - destruct (Hpost bad nd Hin Hbad) as (loc & c & _ & _ & Hobj & _). by eexists.
    - exists nd. by rewrite (Hframe bad Hout). }
  assert (for_each (before ++ bad :: after)
            (init_node_with (str (vcf_pk self)) (vcf_contribution self)) w
          = (w1, Raised MultipleObjectsReturned)) as Hall.
  { rewrite for_each_app, Hrun, for_each_cons. unfold init_node_with.
    rewrite (bind_ok _ _ _ _ _ (deref_node_ok _ _ _ Hnd1)).
    unfold bind. rewrite vcf_contribution_raises; [done|].
    destruct Hsame as (_ & _ & Hrows & _).
    unfold at_most_one_row in *. by rewrite Hv, Hrows. }
  by split.
Qed.

Lemma init_metadata_stops_at_ambiguous_node_witness :
  exists w1,
    ClinvarFactory.init_metadata (demo_clinvar "demo.vcf") [2] demo_world_two_rows
      = (w1, Ok tt) /\
    ClinvarFactory.init_metadata (demo_clinvar "demo.vcf") [2; 0; 1] demo_world_two_rows
      = (w1, Raised MultipleObjectsReturned).
Proof.
  destruct (init_metadata_stops_at_ambiguous_node (demo_clinvar "demo.vcf") [2] [1] 0
              (mkNode 10 (demo_variant 1 150) 0 BUILDING_PENDING) demo_world_two_rows)
    as (w1 & Hrun & Hall & _).
  - intros r Hr. apply list_elem_of_singleton in Hr as ->.
    eexists. split; [reflexivity|vm_compute; lia].
  - reflexivity.
  - vm_compute. lia.
  - by exists w1.
Defined.

(** ** The reader and the batch loader, further *)

Lemma take_add {A} (n m : nat) (l : list A) :
  take (n + m) l = (take n l ++ take m (drop n l))%list.
Proof.
  revert l. induction n as [|n IH]; intros l; [done|].
  destruct l as [|x l]; [by rewrite drop_nil, !take_nil|].
  simpl. by rewrite IH.
Qed.

Lemma set_genes_same (w : world) : set_genes (genes w ++ []) w = w.
Proof. rewrite app_nil_r. destruct w. reflexivity. Qed.

Section BatchLoaderMore.
Context `{Collaborators}.

(** What a pull of [n] items takes from the generator, whether or not the
    generator raises later. *)
Lemma islice_list_all (n : nat) (rows : list (gmap string string)) batch rest :
  islice_list n rows = Ok (batch, rest) ->
  get_genes_all rows = ((batch ++ fst (get_genes_all rest))%list, snd (get_genes_all rest)).
Proof.
  revert rows batch rest. induction n as [|n IH]; intros rows batch rest; simpl.
  { intros [= <- <-]. simpl. by destruct (get_genes_all rows). }
  pose proof (get_genes_next_all rows) as Hnext.
  destruct (get_genes_next rows) as [gene rows'| |e]; [| |done].
  - destruct (islice_list n rows') as [[batch' rest']|e] eqn:E; [|done].
    intros [= <- <-]. destruct Hnext as [-> _]. by rewrite (IH _ _ _ E).
  - by intros [= <- <-].
Qed.

(** A pull from a generator that raises after [k] genes: it gives [n] genes
    when [n <= k], and raises otherwise. *)
Lemma islice_list_raising (n : nat) (rows : list (gmap string string)) (e : exn) :
  snd (get_genes_all rows) = Some e ->
  (n <= length (fst (get_genes_all rows)) ->
   exists rest,
     islice_list n rows = Ok (take n (fst (get_genes_all rows)), rest) /\
     get_genes_all rest = (drop n (fst (get_genes_all rows)), Some e)) /\
  (length (fst (get_genes_all rows)) < n -> islice_list n rows = Raised e).
Proof.
  revert rows. induction n as [|n IH]; intros rows Hraise.
  { split; [|lia]. intros _. exists rows. rewrite take_0, drop_0.
    split; [done|]. rewrite <- Hraise. by destruct (get_genes_all rows). }
  pose proof (get_genes_next_all rows) as Hnext. cbn [islice_list].
  destruct (get_genes_next rows) as [gene rows'| |e'].
  - destruct Hnext as [Hall _]. rewrite Hall in Hraise |- *. cbn [fst snd] in *.
    destruct (IH rows' Hraise) as [IHle IHgt]. split.
    + intros Hle. destruct IHle as (rest & -> & Hrest); [simpl in Hle; lia|].
      by exists rest.
    + intros Hgt. rewrite IHgt; [done|]. simpl in Hgt. lia.
  - by rewrite Hnext in Hraise.
  - rewrite Hnext in Hraise |- *. cbn [fst snd] in *. split; [simpl; lia|].
    intros _. congruence.
Qed.

Lemma load_genes_by_batch_one (self : GnomadConstraintFactory)
    (batch : list GnomadConstraintGeneModel) (w : world) :
  GnomadConstraintFactory.load_genes_by_batch self batch w =
  (set_genes (genes w ++ (gene_row self <$> batch)) w, Ok tt).
Proof. reflexivity. Qed.

(** The loop only appends Gene rows of the factory, made from a prefix of
    what the generator yields. *)
Lemma load_genes_loop_appends (self : GnomadConstraintFactory) (batch_size : Z)
    (fuel : nat) :
  forall (rows : list (gmap string string)) (w : world),
  exists added,
    fst (GnomadConstraintFactory.load_genes_loop fuel self batch_size rows w)
      = set_genes (genes w ++ (gene_row self <$> added)) w /\
    added `prefix_of` fst (get_genes_all rows).
Proof.
  induction fuel as [|fuel IH]; intros rows w.
  { exists []. simpl. split; [by rewrite set_genes_same|apply prefix_nil]. }
  simpl. destruct (islice rows batch_size) as [[batch rest]|e] eqn:E; cycle 1.
  { exists []. simpl. split; [by rewrite set_genes_same|apply prefix_nil]. }
  destruct batch as [|gene batch].
  { exists []. simpl. split; [by rewrite set_genes_same|apply prefix_nil]. }
  unfold islice in E. case_bool_decide; [|done].
  apply islice_list_all in E.
  unfold bind. rewrite load_genes_by_batch_one.
  destruct (IH rest (set_genes (genes w ++ (gene_row self <$> gene :: batch)) w))
    as (added & -> & Hprefix).
  exists ((gene :: batch) ++ added)%list. split.
  - rewrite fmap_app, app_assoc. reflexivity.
  - rewrite E. cbn [fst]. by apply prefix_app.
Qed.

(** The loop over a generator that raises after [k] genes inserts the full
    batches that precede the failure. *)
Lemma load_genes_loop_raising (self : GnomadConstraintFactory) (batch_size : Z) (n : nat) :
  (1 <= batch_size <= sys_maxsize)%Z ->
  forall (rows : list (gmap string string)) (fuel : nat) (w : world) (e : exn),
  length rows = n -> n < fuel ->
  snd (get_genes_all rows) = Some e ->
  GnomadConstraintFactory.load_genes_loop fuel self batch_size rows w =
  (set_genes
     (genes w ++
      (gene_row self <$>
         take (Z.to_nat batch_size
               * (length (fst (get_genes_all rows)) / Z.to_nat batch_size))
              (fst (get_genes_all rows)))) w,
   Raised e).
Proof.
  intros Hbs. induction n as [n IH] using lt_wf_ind. intros rows fuel w e Hn Hfuel Hraise.
  destruct fuel as [|fuel]; [lia|]. simpl.
  unfold islice. rewrite bool_decide_eq_true_2 by lia.
  set (B := Z.to_nat batch_size). assert (1 <= B) as HB by lia.
  destruct (islice_list_raising B rows e Hraise) as [Hpull_le Hpull_gt].
  set (valid := fst (get_genes_all rows)) in *.
  destruct (decide (B <= length valid)) as [Hle|Hgt]; cycle 1.
  { rewrite Hpull_gt by lia. rewrite Nat.div_small by lia. rewrite Nat.mul_0_r, take_0.
    unfold raise. by rewrite set_genes_same. }
  destruct (Hpull_le Hle) as (rest & Hpull & Hrest). rewrite Hpull.
  apply islice_list_consumes in Hpull as Hlen. destruct Hlen as [Hlen _].
  destruct (take B valid) as [|gene batch] eqn:Ht.
  { apply (f_equal length) in Ht. rewrite length_take in Ht. simpl in Ht. lia. }
  unfold bind. rewrite load_genes_by_batch_one. simpl in Hlen.
  rewrite (IH (length rest) ltac:(lia) rest fuel _ e eq_refl ltac:(lia));
    [|by rewrite Hrest].
  rewrite Hrest. simpl fst. simpl genes. f_equal.
  assert (length valid / B = S ((length valid - B) / B)) as ->.
  { replace (length valid) with ((length valid - B) + 1 * B) at 1 by lia.
    rewrite Nat.div_add by lia. lia. }
  rewrite length_drop.
  replace (B * S ((length valid - B) / B)) with (B + B * ((length valid - B) / B)) by lia.
  rewrite take_add, fmap_app, Ht, app_assoc. done.
Qed.

(** The result of [load_genes] on a file that reads cleanly. *)
Lemma load_genes_clean (self : GnomadConstraintFactory) (batch_size : Z) (fuel : nat)
    (w : world) :
  (1 <= batch_size <= sys_maxsize)%Z ->
  reads_cleanly (gc_file_path self) ->
  length (get_genes (gc_file_path self)) < fuel ->
  GnomadConstraintFactory.load_genes fuel self batch_size w =
  (set_genes (filter (fun g => gene_factory g <> gc_pk self) (genes w)
              ++ (gene_row self <$> valid_genes (gc_file_path self))) w, Ok (Some tt)).
Proof.
  intros Hbs Hclean Hfuel. unfold GnomadConstraintFactory.load_genes, bind, modify.
  rewrite (load_genes_loop_clean self batch_size _ Hbs _ fuel _ eq_refl Hfuel Hclean).
  rewrite load_genes_by_batch_all.
  destruct (batches_spec (Z.to_nat batch_size) (fst (get_genes_all (get_genes (gc_file_path self)))))
    as [-> _]; [lia|done].
Qed.

Lemma filter_others_replaced (self : GnomadConstraintFactory) (gs : list Gene)
    (new : list GnomadConstraintGeneModel) :
  filter (fun g => gene_factory g <> gc_pk self)
    (filter (fun g => gene_factory g <> gc_pk self) gs ++ (gene_row self <$> new))%list
  = filter (fun g => gene_factory g <> gc_pk self) gs.
Proof.
  rewrite filter_app.
  assert (filter (fun g => gene_factory g <> gc_pk self) (gene_row self <$> new) = [])
    as ->.
  { induction new as [|x new IH]; [done|].
    rewrite fmap_cons, filter_cons_False; [done|]. simpl. naive_solver. }
  rewrite app_nil_r. induction gs as [|g gs IH]; [done|].
  destruct (decide (gene_factory g <> gc_pk self)) as [E|E].
  - rewrite !filter_cons_True by done. by f_equal.
  - by rewrite filter_cons_False.
Qed.

End BatchLoaderMore.

(** X20. The skip policy of [get_genes]: on a file none of whose rows
    makes [gene_reader] raise, [get_genes] does not raise and yields, in
    file order, exactly the genes of the rows whose gene model validates;
    the rows for which [gene_reader] yields an error are passed over. *)
Theorem get_genes_passes_over_invalid_models `{Collaborators} (path : string) :
  Forall (fun row => exists item, gene_reader_row row = Ok item) (get_genes path) ->
  reads_cleanly path /\
  valid_genes path =
    omap (fun row => match gene_reader_row row with
                     | Ok (inl gene) => Some gene
                     | _ => None
                     end) (get_genes path).
Proof.
  intros Hrows. unfold reads_cleanly, valid_genes.
  by rewrite (get_genes_skips_invalid _ Hrows).
Qed.

Lemma get_genes_passes_over_invalid_models_witness :
  reads_cleanly (H := demo false) "constraint.tsv" /\
  gm_name <$> valid_genes (H := demo false) "constraint.tsv" = ["BRCA1"; "TP53"].
Proof.
  destruct (get_genes_passes_over_invalid_models (H := demo false) "constraint.tsv")
    as [Hclean Hvalid].
  { repeat constructor; eexists; vm_compute; reflexivity. }
  split; [exact Hclean|]. rewrite Hvalid. reflexivity.
Defined.

(** X21. [load_genes] deletes the factory's Gene rows before it looks at
    the batch size. With a batch size outside 1..[sys.maxsize] nothing is
    inserted after the deletion, whatever the file holds: for 0 the first
    batch is empty and the method returns, for any other value [islice]
    raises [ValueError]. *)
Theorem load_genes_batch_size_outside `{Collaborators} (self : GnomadConstraintFactory)
    (batch_size : Z) (fuel : nat) (w : world) :
  ~ (1 <= batch_size <= sys_maxsize)%Z ->
  GnomadConstraintFactory.load_genes (S fuel) self batch_size w =
  (set_genes (filter (fun g => gene_factory g <> gc_pk self) (genes w)) w,
   if decide (batch_size = 0%Z) then Ok (Some tt) else Raised ValueError).
Proof.
  intros Hout. unfold GnomadConstraintFactory.load_genes, bind, modify.
  cbn [GnomadConstraintFactory.load_genes_loop]. unfold islice.
  destruct (decide (batch_size = 0%Z)) as [->|Hne].
  - rewrite bool_decide_eq_true_2 by (by vm_compute). reflexivity.
  - rewrite bool_decide_eq_false_2 by lia. reflexivity.
Qed.

Lemma load_genes_batch_size_outside_witness :
  GnomadConstraintFactory.load_genes (H := demo false) 4
    (demo_constraint "constraint.tsv") (-1) demo_world =
  (set_genes [] demo_world, Raised ValueError).
Proof.
  apply (load_genes_batch_size_outside (H := demo false)
           (demo_constraint "constraint.tsv") (-1) 3 demo_world).
  lia.
Defined.

(** X22. The batch size only groups the inserts: on a file that reads
    cleanly, [load_genes] ends in the same store and with the same result
    for any two batch sizes between 1 and [sys.maxsize]. *)
Theorem load_genes_batch_size_irrelevant `{Collaborators} (self : GnomadConstraintFactory)
    (batch_size1 batch_size2 : Z) (fuel1 fuel2 : nat) (w : world) :
  (1 <= batch_size1 <= sys_maxsize)%Z ->
  (1 <= batch_size2 <= sys_maxsize)%Z ->
  reads_cleanly (gc_file_path self) ->
  length (get_genes (gc_file_path self)) < fuel1 ->
  length (get_genes (gc_file_path self)) < fuel2 ->
  GnomadConstraintFactory.load_genes fuel1 self batch_size1 w =
  GnomadConstraintFactory.load_genes fuel2 self batch_size2 w.
Proof.
  intros Hbs1 Hbs2 Hclean Hfuel1 Hfuel2.
  by rewrite !load_genes_clean.
Qed.

Lemma load_genes_batch_size_irrelevant_witness :
  GnomadConstraintFactory.load_genes (H := demo false) 4
    (demo_constraint "constraint.tsv") 1 demo_world =
  GnomadConstraintFactory.load_genes (H := demo false) 5
    (demo_constraint "constraint.tsv") 100 demo_world.
Proof.
  apply (load_genes_batch_size_irrelevant (H := demo false)
           (demo_constraint "constraint.tsv") 1 100 4 5 demo_world).
  - vm_compute. split; discriminate.
  - vm_compute. split; discriminate.
  - vm_compute. reflexivity.
  - vm_compute. lia.
  - vm_compute. lia.
Defined.

(** X23. [load_genes] is idempotent: on a file that reads cleanly, running
    it again on the store it left, with the same or another batch size
    between 1 and [sys.maxsize], gives the same store. *)
Theorem load_genes_twice `{Collaborators} (self : GnomadConstraintFactory)
    (batch_size1 batch_size2 : Z) (fuel : nat) (w : world) :
  (1 <= batch_size1 <= sys_maxsize)%Z ->
  (1 <= batch_size2 <= sys_maxsize)%Z ->
  reads_cleanly (gc_file_path self) ->
  length (get_genes (gc_file_path self)) < fuel ->
  GnomadConstraintFactory.load_genes fuel self batch_size2
    (fst (GnomadConstraintFactory.load_genes fuel self batch_size1 w)) =
  GnomadConstraintFactory.load_genes fuel self batch_size1 w.
Proof.
  intros Hbs1 Hbs2 Hclean Hfuel.
  rewrite !load_genes_clean by done. cbn [fst genes set_genes].
  by rewrite filter_others_replaced.
Qed.

Lemma load_genes_twice_witness :
  GnomadConstraintFactory.load_genes (H := demo false) 4
    (demo_constraint "constraint.tsv") 100
    (fst (GnomadConstraintFactory.load_genes (H := demo false) 4
            (demo_constraint "constraint.tsv") 2 demo_world)) =
  GnomadConstraintFactory.load_genes (H := demo false) 4
    (demo_constraint "constraint.tsv") 2 demo_world.
Proof.
  apply (load_genes_twice (H := demo false) (demo_constraint "constraint.tsv") 2 100 4
           demo_world).
  - vm_compute. split; discriminate.
  - vm_compute. split; discriminate.
  - vm_compute. reflexivity.
  - vm_compute. lia.
Defined.

(** X24. Whatever the batch size, the file and the outcome, [load_genes]
    leaves the Gene rows of the other factories as they were, and the rows
    of the factory itself are afterwards those of a prefix of what
    [get_genes] yields from the file: nothing of an earlier load is kept,
    and no record is inserted out of order or twice. *)
Theorem load_genes_touches_own_rows_only `{Collaborators} (self : GnomadConstraintFactory)
    (batch_size : Z) (fuel : nat) (w : world) :
  let w' := fst (GnomadConstraintFactory.load_genes fuel self batch_size w) in
  filter (fun g => gene_factory g <> gc_pk self) (genes w')
    = filter (fun g => gene_factory g <> gc_pk self) (genes w) /\
  exists added,
    added `prefix_of` valid_genes (gc_file_path self) /\
    owned_genes self w' = gene_row self <$> added.
Proof.
  unfold GnomadConstraintFactory.load_genes, bind, modify.
  destruct (load_genes_loop_appends self batch_size fuel (get_genes (gc_file_path self))
              (set_genes (filter (fun g => gene_factory g <> gc_pk self) (genes w)) w))
    as (added & Hrun & Hprefix).
  cbn zeta. rewrite Hrun. cbn [genes set_genes]. split.
  - apply filter_others_replaced.
  - exists added. split; [done|]. apply (owned_genes_replaced self w added).
Qed.

(** X25. When [get_genes] raises at a row of the file, [load_genes] ends
    in that exception after the deletion of the factory's rows and the
    insertion of the full batches read before the failing row: of the [k]
    genes yielded before it, the first [batch_size * (k / batch_size)] are
    stored, and the genes of the batch that was being filled are lost. *)
Theorem load_genes_stops_at_failing_row `{Collaborators} (self : GnomadConstraintFactory)
    (batch_size : Z) (fuel : nat) (w : world) (e : exn) :
  (1 <= batch_size <= sys_maxsize)%Z ->
  snd (get_genes_all (get_genes (gc_file_path self))) = Some e ->
  length (get_genes (gc_file_path self)) < fuel ->
  let k := length (valid_genes (gc_file_path self)) in
  let stored := take (Z.to_nat batch_size * (k / Z.to_nat batch_size))
                     (valid_genes (gc_file_path self)) in
  GnomadConstraintFactory.load_genes fuel self batch_size w =
    (set_genes (filter (fun g => gene_factory g <> gc_pk self) (genes w)
                ++ (gene_row self <$> stored)) w, Raised e) /\
  owned_genes self (fst (GnomadConstraintFactory.load_genes fuel self batch_size w))
    = gene_row self <$> stored.
Proof.
  intros Hbs Hraise Hfuel k stored.
  assert (GnomadConstraintFactory.load_genes fuel self batch_size w =
    (set_genes (filter (fun g => gene_factory g <> gc_pk self) (genes w)
                ++ (gene_row self <$> stored)) w, Raised e)) as Hrun.
  { unfold GnomadConstraintFactory.load_genes, bind, modify.
    by rewrite (load_genes_loop_raising self batch_size _ Hbs _ fuel _ e eq_refl Hfuel Hraise). }
  split; [done|]. rewrite Hrun. apply owned_genes_replaced.
Qed.

Lemma load_genes_stops_at_failing_row_witness :
  gm_name <$> valid_genes (H := demo_late_failure) "late.tsv" = ["BRCA1"; "TP53"; "EGFR"] /\
  snd (GnomadConstraintFactory.load_genes (H := demo_late_failure) 6
         (demo_constraint "late.tsv") 2 demo_world) = Raised ValidationError /\
  gene_name <$> owned_genes (demo_constraint "late.tsv")
    (fst (GnomadConstraintFactory.load_genes (H := demo_late_failure) 6
            (demo_constraint "late.tsv") 2 demo_world)) = ["BRCA1"; "TP53"].
Proof.
  destruct (load_genes_stops_at_failing_row (H := demo_late_failure)
              (demo_constraint "late.tsv") 2 6 demo_world ValidationError)
    as [Hrun Howned].
  - vm_compute. split; discriminate.
  - vm_compute. reflexivity.
  - vm_compute. lia.
  - split; [reflexivity|]. split; [by rewrite Hrun|]. rewrite Howned. reflexivity.
Defined.

(** ** Catalog bootstrap *)

Lemma named_app (cls : factory_class) (name : string) (xs ys : list FactoryRow) :
  named cls name (xs ++ ys) = (named cls name xs ++ named cls name ys)%list.
Proof. apply filter_app. Qed.

Lemma named_one (cls : factory_class) (name : string) (row : FactoryRow) :
  named cls name [row] = if decide (fr_class row = cls /\ fr_name row = name) then [row] else [].
Proof.
  unfold named. destruct (decide (fr_class row = cls /\ fr_name row = name)) as [E|E].
  - by rewrite filter_cons_True.
  - by rewrite filter_cons_False.
Qed.

Section CatalogSteps.
Variable BIODB_ROOT : string -> string.

Lemma vcf_load_blueprint_step (cls : factory_class) (path_key : string) :
  blueprint_step cls (vcf_load_blueprint BIODB_ROOT cls path_key).
Proof.
  intros b s. unfold vcf_load_blueprint, blueprint_get.
  destruct (b !! "name") as [name|] eqn:Hname; cycle 1.
  { simpl. split; [done|]. split; [by left|]. split; [done|]. done. }
  destruct (named cls name (factories s)) as [|x [|y rest]] eqn:Hnamed.
  - assert (forall s1 : registry, factories s1 = factories s -> assemblies s ⊆ assemblies s1 ->
              forall e, let s' := fst (s1, @Raised unit e) in
              assemblies s ⊆ assemblies s' /\
              (factories s' = factories s \/
               exists row, factories s' = (factories s ++ [row])%list /\ fr_class row = cls /\
                 named cls (fr_name row) (factories s) = [] /\
                 Some name = Some (fr_name row)) /\
              (snd (s1, @Raised unit e) = Ok tt ->
               exists name0, Some name = Some name0 /\
                 length (named cls name0 (factories s')) = 1) /\
              (forall name0, Some name = Some name0 ->
                 length (named cls name0 (factories s)) = 1 ->
                 (s1, @Raised unit e) = (s, Ok tt))) as Hraise.
    { intros s1 Hf Ha e. simpl. split; [done|]. split; [by left|]. split; [done|].
      intros name0 [= <-]. rewrite Hnamed. done. }
    destruct (b !! "assembly") as [assembly|]; [|by apply Hraise].
    destruct (b !! "description") as [description|];
      [|apply Hraise; [done|apply union_subseteq_r]].
    destruct (b !! path_key) as [path|];
      [|apply Hraise; [done|apply union_subseteq_r]].
    simpl. split; [apply union_subseteq_r|]. split.
    { right. eexists. split; [done|]. simpl. done. }
    split.
    + intros _. exists name. split; [done|].
      rewrite named_app, Hnamed, named_one. simpl. by rewrite decide_True.
    + intros name0 [= <-]. by rewrite Hnamed.
  - simpl. split; [done|]. split; [by left|]. split.
    + intros _. exists name. by rewrite Hnamed.
    + done.
  - simpl. split; [done|]. split; [by left|]. split; [done|].
    intros name0 [= <-]. rewrite Hnamed. simpl. lia.
Qed.

Lemma constraint_load_blueprint_step :
  blueprint_step GnomadConstraintClass (constraint_load_blueprint BIODB_ROOT).
Proof.
  intros b s. unfold constraint_load_blueprint, blueprint_get.
  destruct (b !! "name") as [name|] eqn:Hname; cycle 1.
  { simpl. split; [done|]. split; [by left|]. split; [done|]. done. }
  destruct (named GnomadConstraintClass name (factories s)) as [|x [|y rest]] eqn:Hnamed.
  - destruct (b !! "description") as [description|]; cycle 1.
    { simpl. split; [done|]. split; [by left|]. split; [done|].
      intros name0 [= <-]. by rewrite Hnamed. }
    destruct (b !! "gnomad_constraint_tsv_file_path") as [path|]; cycle 1.
    { simpl. split; [done|]. split; [by left|]. split; [done|].
      intros name0 [= <-]. by rewrite Hnamed. }
    simpl. split; [done|]. split.
    { right. eexists. split; [done|]. simpl. done. }
    split.
    + intros _. exists name. split; [done|].
      rewrite named_app, Hnamed, named_one. simpl. by rewrite decide_True.
    + intros name0 [= <-]. by rewrite Hnamed.
  - simpl. split; [done|]. split; [by left|]. split.
    + intros _. exists name. by rewrite Hnamed.
    + done.
  - simpl. split; [done|]. split; [by left|]. split; [done|].
    intros name0 [= <-]. rewrite Hnamed. simpl. lia.
Qed.

Lemma constraint_load_blueprint_assemblies (b : blueprint) (s : registry) :
  assemblies (fst (constraint_load_blueprint BIODB_ROOT b s)) = assemblies s.
Proof.
  unfold constraint_load_blueprint.
  destruct (blueprint_get b "name") as [name|]; [|done].
  destruct (named GnomadConstraintClass name (factories s)) as [|x [|y rest]]; [|done..].
  destruct (blueprint_get b "description") as [description|]; [|done].
  by destruct (blueprint_get b "gnomad_constraint_tsv_file_path").
Qed.

End CatalogSteps.

Section CatalogLoop.
Variable cls : factory_class.
Variable body : blueprint -> registry -> registry * result unit.
Hypothesis body_step : blueprint_step cls body.

Lemma blueprint_extends (b : blueprint) (s : registry) : extends cls s (fst (body b s)).
Proof.
  destruct (body_step b s) as (Ha & Hf & _). split; [|split; [done|]].
  - destruct Hf as [->|(row & -> & Hcls & _)].
    + exists []. by rewrite app_nil_r.
    + exists [row]. split; [done|]. by constructor.
  - intros Hu name. destruct Hf as [->|(row & -> & Hcls & Hnone & _)]; [apply Hu|].
    rewrite named_app, named_one, length_app.
    destruct (decide (fr_class row = cls /\ fr_name row = name)) as [[_ <-]|_].
    + rewrite Hnone. simpl. lia.
    + specialize (Hu name). simpl. lia.
Qed.

Lemma extends_refl (s : registry) : extends cls s s.
Proof. split; [|done]. exists []. by rewrite app_nil_r. Qed.

Lemma extends_trans (s1 s2 s3 : registry) :
  extends cls s1 s2 -> extends cls s2 s3 -> extends cls s1 s3.
Proof.
  intros ((n1 & E1 & F1) & A1 & U1) ((n2 & E2 & F2) & A2 & U2).
  split; [|split].
  - exists (n1 ++ n2)%list. split; [by rewrite E2, E1, app_assoc|by apply Forall_app].
  - by etrans.
  - auto.
Qed.

Lemma for_blueprints_extends (bs : list blueprint) (s : registry) :
  extends cls s (fst (for_blueprints body bs s)).
Proof.
  revert s. induction bs as [|b bs IH]; intros s; [apply extends_refl|].
  simpl. pose proof (blueprint_extends b s) as Hb.
  destruct (body b s) as [s1 [[]|e]]; [|done].
  eapply extends_trans; [exact Hb|apply IH].
Qed.

(** A factory found once by its name is found once ever after. *)
Lemma blueprint_keeps_named (b : blueprint) (s : registry) (name : string) :
  length (named cls name (factories s)) = 1 ->
  length (named cls name (factories (fst (body b s)))) = 1.
Proof.
  intros Hone. destruct (body_step b s) as (_ & Hf & _).
  destruct Hf as [->|(row & -> & Hcls & Hnone & _)]; [done|].
  rewrite named_app, named_one, length_app.
  destruct (decide (fr_class row = cls /\ fr_name row = name)) as [[_ <-]|_].
  - rewrite Hnone in Hone. done.
  - simpl. lia.
Qed.

Lemma for_blueprints_keeps_named (bs : list blueprint) (s : registry) (name : string) :
  length (named cls name (factories s)) = 1 ->
  length (named cls name (factories (fst (for_blueprints body bs s)))) = 1.
Proof.
  revert s. induction bs as [|b bs IH]; intros s Hone; [done|].
  simpl. pose proof (blueprint_keeps_named b s name Hone) as Hb.
  destruct (body b s) as [s1 [[]|e]]; [|done].
  by apply IH.
Qed.

Lemma for_blueprints_again (bs : list blueprint) (s s' : registry) :
  for_blueprints body bs s = (s', Ok tt) ->
  for_blueprints body bs s' = (s', Ok tt).
Proof.
  revert s. induction bs as [|b bs IH]; intros s Hrun; [done|].
  simpl in Hrun. destruct (body_step b s) as (_ & _ & Hfound & _).
  destruct (body b s) as [s1 [[]|e]] eqn:Hb; [|done].
  destruct (Hfound eq_refl) as (name & Hname & Hone). simpl in Hone.
  pose proof (for_blueprints_keeps_named bs s1 name Hone) as Hone'.
  rewrite Hrun in Hone'. simpl in Hone'.
  destruct (body_step b s') as (_ & _ & _ & Hsame).
  simpl. rewrite (Hsame name Hname Hone'). by apply (IH s1).
Qed.

Lemma load_catalog_with_again (key : string) (c : catalog) (s s' : registry) :
  load_catalog_with key body c s = (s', Ok tt) ->
  load_catalog_with key body c s' = (s', Ok tt).
Proof.
  unfold load_catalog_with. destruct (c !! key) as [bs|]; [|done].
  apply for_blueprints_again.
Qed.

Lemma load_catalog_with_extends (key : string) (c : catalog) (s : registry) :
  extends cls s (fst (load_catalog_with key body c s)).
Proof.
  unfold load_catalog_with. destruct (c !! key) as [bs|]; [|apply extends_refl].
  apply for_blueprints_extends.
Qed.

End CatalogLoop.

(** X26. [load_catalog] is idempotent: after a run that ended normally, a
    second run over the same catalog finds every blueprint's factory by
    its name, creates nothing and leaves the registry as it is. *)
Theorem load_catalog_twice (BIODB_ROOT : string -> string) (c : catalog)
    (s s' : registry) :
  (ClinvarFactory_load_catalog BIODB_ROOT c s = (s', Ok tt) ->
   ClinvarFactory_load_catalog BIODB_ROOT c s' = (s', Ok tt)) /\
  (GnomadFactory_load_catalog BIODB_ROOT c s = (s', Ok tt) ->
   GnomadFactory_load_catalog BIODB_ROOT c s' = (s', Ok tt)) /\
  (GnomadConstraintFactory_load_catalog BIODB_ROOT c s = (s', Ok tt) ->
   GnomadConstraintFactory_load_catalog BIODB_ROOT c s' = (s', Ok tt)).
Proof.
  split; [|split].
  - apply (load_catalog_with_again ClinvarClass), vcf_load_blueprint_step.
  - apply (load_catalog_with_again GnomadClass), vcf_load_blueprint_step.
  - apply (load_catalog_with_again GnomadConstraintClass), constraint_load_blueprint_step.
Qed.

Lemma load_catalog_twice_witness :
  let s' := fst (ClinvarFactory_load_catalog demo_biodb_root demo_catalog demo_registry_rows) in
  fr_name <$> factories s' = ["clinvar"; "clinvar-37"] /\
  ClinvarFactory_load_catalog demo_biodb_root demo_catalog s' = (s', Ok tt).
Proof.
  intros s'. split; [reflexivity|].
  apply (proj1 (load_catalog_twice demo_biodb_root demo_catalog demo_registry_rows s')).
  reflexivity.
Defined.

(** X27. [load_catalog] only adds: whatever the catalog holds and however
    the run ends, the factories found in the registry are still there,
    unchanged and in the same order, also when the catalog describes them
    differently; the rows added are of the class itself; no assembly is
    removed; and when no two factories of the class had the same name
    before, none have afterwards. [GnomadConstraintFactory.load_catalog]
    leaves the assemblies as they are. *)
Theorem load_catalog_only_adds (BIODB_ROOT : string -> string) (c : catalog)
    (s : registry) :
  extends ClinvarClass s (fst (ClinvarFactory_load_catalog BIODB_ROOT c s)) /\
  extends GnomadClass s (fst (GnomadFactory_load_catalog BIODB_ROOT c s)) /\
  extends GnomadConstraintClass s
    (fst (GnomadConstraintFactory_load_catalog BIODB_ROOT c s)) /\
  assemblies (fst (GnomadConstraintFactory_load_catalog BIODB_ROOT c s)) = assemblies s.
Proof.
  split; [|split; [|split]].
  - apply load_catalog_with_extends, vcf_load_blueprint_step.
  - apply load_catalog_with_extends, vcf_load_blueprint_step.
  - apply load_catalog_with_extends, constraint_load_blueprint_step.
  - unfold GnomadConstraintFactory_load_catalog, load_catalog_with.
    destruct (c !! "gnomad_constraint_factories") as [bs|]; [|done].
    revert s. induction bs as [|b bs IH]; intros s; [done|].
    simpl. pose proof (constraint_load_blueprint_assemblies BIODB_ROOT b s) as Hb.
    destruct (constraint_load_blueprint BIODB_ROOT b s) as [s1 [[]|e]]; [|done].
    rewrite IH. done.
Qed.

(** ** The first load of a contig and the merge engine *)

Lemma same_pk_same_row (vs : list Variant) (v1 v2 : Variant) :
  NoDup (variant_pk <$> vs) -> v1 ∈ vs -> v2 ∈ vs -> variant_pk v1 = variant_pk v2 ->
  v1 = v2.
Proof.
  induction vs as [|v vs IH]; intros Hnd H1 H2 Hpk; [by apply elem_of_nil in H1|].
  rewrite fmap_cons in Hnd. apply NoDup_cons in Hnd as [Hnotin Hnd].
  apply elem_of_cons in H1 as [->|H1]; apply elem_of_cons in H2 as [->|H2].
  - done.
  - destruct Hnotin. rewrite Hpk. by apply list_elem_of_fmap_2.
  - destruct Hnotin. rewrite <- Hpk. by apply list_elem_of_fmap_2.
  - by apply IH.
Qed.

Lemma annotation_rows_app f v (rows1 rows2 : list VariantAnnotation) :
  annotation_rows f v (rows1 ++ rows2) =
  (annotation_rows f v rows1 ++ annotation_rows f v rows2)%list.
Proof. apply filter_app. Qed.

Lemma annotation_rows_new f v f' v' meta' :
  annotation_rows f v [mkVariantAnnotation f' v' meta'] =
  if decide ((f', v') = (f, v)) then [mkVariantAnnotation f' v' meta'] else [].
Proof.
  unfold annotation_rows. case_decide as E.
  - injection E as -> ->. rewrite filter_cons_True; [done|].
    unfold annotation_for. simpl. by rewrite !bool_decide_eq_true_2.
  - rewrite filter_cons_False; [done|].
    unfold annotation_for. simpl. intros Hm.
    apply andb_true_iff in Hm as [H1 H2].
    apply bool_decide_eq_true in H1, H2. congruence.
Qed.

Section FirstLoad.
Context `{Collaborators}.
Variable Model : vcf_variant -> option VariantModel.

Lemma variant_upsert_result (region_obj : Region) pos ref alt (w : world) :
  match Variant_objects_get_or_create region_obj pos ref alt w with
  | (w1, Ok got) =>
      variant_annotations w1 = variant_annotations w /\
      (forall v, v ∈ variants w -> v ∈ variants w1) /\
      fst got ∈ variants w1 /\ variant_key (fst got) = (pos, ref, alt)
  | (w1, Raised e) => w1 = w
  end.
Proof.
  unfold Variant_objects_get_or_create. unfold_monad.
  destruct (variant_rows region_obj pos ref alt (variants w)) as [|v [|v2 vs]] eqn:Hv;
    simpl; [| |done].
  - split; [done|]. split; [intros v Hv'; apply elem_of_app; by left|].
    split; [apply elem_of_app; right; apply list_elem_of_here|done].
  - assert (v ∈ variant_rows region_obj pos ref alt (variants w)) as Hin
      by (rewrite Hv; apply list_elem_of_here).
    apply list_elem_of_filter in Hin as [Hm Hin].
    split; [done|]. split; [done|]. split; [done|].
    unfold variant_matches in Hm.
    apply andb_true_iff in Hm as [Hm H4]. apply andb_true_iff in Hm as [Hm H3].
    apply andb_true_iff in Hm as [H1 H2].
    apply bool_decide_eq_true in H2, H3, H4. unfold variant_key. congruence.
Qed.

Lemma annotation_upsert_result factory variant metadata (w : world) :
  let w1 := fst (VariantAnnotation_objects_get_or_create factory variant metadata w) in
  variants w1 = variants w /\
  (variant_annotations w1 = variant_annotations w \/
   variant_annotations w1 =
     (variant_annotations w ++ [mkVariantAnnotation factory variant metadata])%list).
Proof.
  unfold VariantAnnotation_objects_get_or_create. unfold_monad.
  destruct (annotation_rows_with factory variant metadata (variant_annotations w))
    as [|a1 [|a2 rest]]; simpl; [|by split; [|left]..].
  destruct (variant_annotation_unique && _); simpl; split; try done; [by left|by right].
Qed.

Lemma load_variant_one_row (self : VcfFactory) (region_obj : Region) (r : vcf_variant)
    (m : VariantModel) (seen : list (Z * string * string)) (w : world) :
  Model r = Some m -> record_key m ∉ seen ->
  one_row_per_variant self seen w ->
  one_row_per_variant self (record_key m :: seen)
    (fst (load_variant Model self region_obj r w)).
Proof.
  intros Hm Hnew (Hw & Hown & Hone). unfold load_variant. rewrite Hm.
  unfold bind at 1. unfold ret at 1. unfold bind at 1.
  pose proof (variant_upsert_well_keyed region_obj (vm_pos m) (vm_ref m) (vm_alt m) w Hw)
    as Hw1.
  pose proof (variant_upsert_result region_obj (vm_pos m) (vm_ref m) (vm_alt m) w) as Hres.
  destruct (Variant_objects_get_or_create _ _ _ _ w) as [w1 [got|e]]; simpl in *; cycle 1.
  { subst w1. split; [done|]. split; [|done].
    intros a Ha Hf. destruct (Hown a Ha Hf) as (v & Hv & Hpk & Hkey).
    exists v. split; [done|]. split; [done|]. by right. }
  destruct Hres as (Hann & Hvs & Hgot & Hkey).
  unfold bind.
  pose proof (annotation_upsert_well_keyed (vcf_pk self) (variant_pk got.1) (vm_infos m)
                w1 Hw1) as Hw2.
  pose proof (annotation_upsert_result (vcf_pk self) (variant_pk got.1) (vm_infos m) w1)
    as Hres2.
  assert (fst (let (w', r0) := VariantAnnotation_objects_get_or_create (vcf_pk self)
                                 (variant_pk got.1) (vm_infos m) w1 in
               match r0 with Ok _ => ret tt w' | Raised e => (w', Raised e) end)
          = fst (VariantAnnotation_objects_get_or_create (vcf_pk self)
                   (variant_pk got.1) (vm_infos m) w1)) as ->.
  { by destruct (VariantAnnotation_objects_get_or_create _ _ _ w1) as [w2 [x|e]]. }
  set (w2 := fst (VariantAnnotation_objects_get_or_create _ _ _ w1)) in *.
  destruct Hres2 as (Hvs2 & Hann2). split; [done|].
  assert (forall a, a ∈ variant_annotations w -> va_factory a = vcf_pk self ->
            exists v, v ∈ variants w2 /\ variant_pk v = va_variant a /\
                      variant_key v ∈ record_key m :: seen) as Hold.
  { intros a Ha Hf. destruct (Hown a Ha Hf) as (v & Hv & Hpk & Hk).
    exists v. rewrite Hvs2. split; [by apply Hvs|]. split; [done|]. by right. }
  destruct Hann2 as [Hsame|Hadded].
  - rewrite Hsame, Hann. split; [done|]. done.
  - rewrite Hadded, Hann. split.
    + intros a Ha Hf. apply elem_of_app in Ha as [Ha|Ha]; [by apply Hold|].
      apply list_elem_of_singleton in Ha as ->. simpl.
      exists got.1. rewrite Hvs2. split; [done|]. split; [done|].
      rewrite Hkey. left.
    + intros pk. rewrite annotation_rows_app, length_app, annotation_rows_new.
      case_decide as E; [|specialize (Hone pk); simpl; lia].
      injection E as <-.
      assert (annotation_rows (vcf_pk self) (variant_pk got.1) (variant_annotations w) = [])
        as ->; [|simpl; lia].
      destruct (annotation_rows _ _ _) as [|a rest] eqn:Hrows; [done|]. exfalso.
      assert (a ∈ annotation_rows (vcf_pk self) (variant_pk got.1) (variant_annotations w))
        as Hin by (rewrite Hrows; apply list_elem_of_here).
      apply list_elem_of_filter in Hin as [Hfor Hin].
      unfold annotation_for in Hfor. apply andb_true_iff in Hfor as [Hf Hv].
      apply bool_decide_eq_true in Hf, Hv.
      destruct (Hown a Hin Hf) as (v & Hvin & Hpk & Hk).
      destruct Hw1 as (_ & Hnd & _).
      assert (v = got.1) as ->.
      { apply (same_pk_same_row (variants w1)); [done|by apply Hvs|done|congruence]. }
      apply Hnew. unfold record_key. by rewrite <- Hkey.
Qed.

Lemma load_variants_one_row (self : VcfFactory) (region_obj : Region)
    (records : list vcf_variant) :
  forall (seen : list (Z * string * string)) (w : world),
  one_row_per_variant self seen w ->
  NoDup (omap (fun r => record_key <$> Model r) records) ->
  (forall k, k ∈ omap (fun r => record_key <$> Model r) records -> k ∉ seen) ->
  exists seen',
    one_row_per_variant self seen'
      (fst (for_each records (load_variant Model self region_obj) w)).
Proof.
  induction records as [|r records IH]; intros seen w Hinv Hnd Hfresh; [by exists seen|].
  rewrite for_each_cons.
  destruct (Model r) as [m|] eqn:Hm; cycle 1.
  { exists seen. unfold load_variant. by rewrite Hm. }
  simpl in Hnd, Hfresh. rewrite Hm in Hnd, Hfresh. simpl in Hnd, Hfresh.
  apply NoDup_cons in Hnd as [Hnotin Hnd].
  pose proof (load_variant_one_row self region_obj r m seen w Hm
                (Hfresh _ (list_elem_of_here _ _)) Hinv) as Hstep.
  destruct (load_variant Model self region_obj r w) as [w1 [[]|e]]; simpl in Hstep;
    [|by exists (record_key m :: seen)].
  apply (IH (record_key m :: seen)); [done|done|].
  intros k Hk. apply not_elem_of_cons. split; [by intros ->|].
  apply Hfresh. by right.
Qed.

Lemma first_load_one_row (self : VcfFactory) (region : string) (w : world) :
  well_keyed w ->
  (forall a, a ∈ variant_annotations w -> va_factory a <> vcf_pk self) ->
  NoDup (omap (fun r => record_key <$> Model r)
              (reader_get_variants (vcf_file_path self) region)) ->
  forall pk,
    length (annotation_rows (vcf_pk self) pk
              (variant_annotations (fst (vcf_load_variants_for_region Model self region w))))
    <= 1.
Proof.
  intros Hw Hnone Hnd.
  assert (one_row_per_variant self [] w) as Hinv.
  { split; [done|]. split; [intros a Ha Hf; by destruct (Hnone a Ha)|].
    intros pk. destruct (annotation_rows _ _ _) as [|a rest] eqn:Hrows; [simpl; lia|].
    assert (a ∈ annotation_rows (vcf_pk self) pk (variant_annotations w)) as Hin
      by (rewrite Hrows; apply list_elem_of_here).
    apply list_elem_of_filter in Hin as [Hfor Hin].
    unfold annotation_for in Hfor. apply andb_true_iff in Hfor as [Hf _].
    apply bool_decide_eq_true in Hf. by destruct (Hnone a Hin). }
  unfold vcf_load_variants_for_region, Region_objects_get. unfold_monad.
  destruct (region_rows _ _ (regions w)) as [|region_obj [|r2 rs]]; simpl;
    [by destruct Hinv as (_ & _ & Hone) | | by destruct Hinv as (_ & _ & Hone)].
  destruct (load_variants_one_row self region_obj _ [] w Hinv Hnd) as (seen' & Hfinal).
  { intros k _ Hk. by apply elem_of_nil in Hk. }
  by destruct Hfinal as (_ & _ & Hone).
Qed.

End FirstLoad.

(** X28. A first load of a contig leaves what the merge engine needs: on
    a store without annotation rows of the factory, and for a file whose
    records of the contig name each variant once, [load_variants_for_region]
    leaves at most one annotation row of the factory per variant, however it
    ends; [init_metadata] of the factory then ends normally for any list of
    nodes. *)
Theorem first_load_then_init_metadata `{Collaborators} (self : VcfFactory)
    (region : string) (w : world) :
  well_keyed w ->
  (forall a, a ∈ variant_annotations w -> va_factory a <> vcf_pk self) ->
  NoDup (omap (fun r => record_key <$> ClinvarVariantModel r)
              (reader_get_variants (vcf_file_path self) region)) ->
  let w' := fst (ClinvarFactory.load_variants_for_region self region w) in
  (forall variant, at_most_one_row self variant w') /\
  (forall nodes, (forall r, r ∈ nodes -> is_Some (objects w' !! r)) ->
     snd (ClinvarFactory.init_metadata self nodes w') = Ok tt).
Proof.
  intros Hw Hnone Hnd w'.
  assert (forall variant, at_most_one_row self variant w') as Hone.
  { intros variant. unfold at_most_one_row.
    apply (first_load_one_row ClinvarVariantModel self region w Hw Hnone Hnd). }
  split; [done|]. intros nodes Hnodes.
  destruct (init_with_all (str (vcf_pk self)) (vcf_contribution self) nodes
              (vcf_contribution_pure self) w') as (w2 & Hrun & _).
  { intros r Hr. destruct (Hnodes r Hr) as [nd Hnd']. exists nd. eexists.
    split; [done|]. by apply vcf_contribution_ok. }
  unfold ClinvarFactory.init_metadata. by rewrite vcf_init_metadata_shape, Hrun.
Qed.

Lemma first_load_then_init_metadata_witness :
  let w' := fst (ClinvarFactory.load_variants_for_region (H := demo false)
                   (demo_clinvar "demo.vcf") "1" demo_loaded_regions) in
  length (variant_annotations w') = 2 /\
  forall variant, at_most_one_row (demo_clinvar "demo.vcf") variant w'.
Proof.
  intros w'. split; [reflexivity|].
  apply (first_load_then_init_metadata (H := demo false) (demo_clinvar "demo.vcf") "1"
           demo_loaded_regions).
  - split; [|split].
    + intros region_obj pos ref alt. simpl. lia.
    + constructor.
    + intros factory variant metadata. simpl. lia.
  - intros a Ha. by apply elem_of_nil in Ha.
  - refine (bool_decide_unpack _ _). vm_compute. exact I.
Defined.

Lemma two_in_list {A} (l : list A) (x y : A) : x ∈ l -> y ∈ l -> x <> y -> 2 <= length l.
Proof.
  intros Hx Hy Hne. destruct l as [|p [|q l]]; [by apply elem_of_nil in Hx| |simpl; lia].
  apply list_elem_of_singleton in Hx, Hy. congruence.
Qed.

(** X29. A reload after a payload has changed duplicates the pair: when
    the store holds an annotation row of the factory for a variant, the
    file has a record of that variant with another payload, and
    [load_variants_for_region] ends normally, the variant has at least two
    annotation rows of the factory afterwards, and [init_metadata] of the
    factory raises [MultipleObjectsReturned] on every node of that
    variant. *)
Theorem changed_payload_leaves_two_rows `{Collaborators} (self : VcfFactory)
    (region : string) (region_obj : Region) (r : vcf_variant) (m : VariantModel)
    (v : Variant) (a : VariantAnnotation) (w : world) :
  region_rows (vcf_assembly self) region (regions w) = [region_obj] ->
  r ∈ reader_get_variants (vcf_file_path self) region ->
  ClinvarVariantModel r = Some m ->
  v ∈ variants w ->
  variant_matches region_obj (vm_pos m) (vm_ref m) (vm_alt m) v = true ->
  a ∈ variant_annotations w ->
  annotation_for (vcf_pk self) (variant_pk v) a = true ->
  va_metadata a <> vm_infos m ->
  snd (ClinvarFactory.load_variants_for_region self region w) = Ok tt ->
  let w' := fst (ClinvarFactory.load_variants_for_region self region w) in
  2 <= length (annotation_rows (vcf_pk self) (variant_pk v) (variant_annotations w')) /\
  (forall ref nd, objects w' !! ref = Some nd -> node_variant nd = v ->
     ClinvarFactory.init_metadata self [ref] w' = (w', Raised MultipleObjectsReturned)).
Proof.
  intros Hregion Hr Hm Hv Hmatch Ha Hfor Hchanged Hok w'.
  pose proof (load_variants_for_region_appends ClinvarVariantModel self region w)
    as ((new_a & Hanns) & (new_v & Hvars) & _).
  fold (ClinvarFactory.load_variants_for_region self region w) in Hanns, Hvars.
  fold w' in Hanns, Hvars.
  assert (for_each (reader_get_variants (vcf_file_path self) region)
            (load_variant ClinvarVariantModel self region_obj) w = (w', Ok tt)) as Hrun.
  { subst w'. revert Hok.
    unfold ClinvarFactory.load_variants_for_region, vcf_load_variants_for_region,
      Region_objects_get.
    unfold_monad. rewrite Hregion. simpl.
    destruct (for_each _ _ w) as [w1 [[]|e]]; simpl; [done|discriminate]. }
  pose proof (load_variants_settle ClinvarVariantModel self region_obj _ w w' Hrun) as Hall.
  rewrite Forall_forall in Hall.
  destruct (Hall r Hr) as (m' & v' & a' & Hm' & Hv' & Ha').
  assert (m' = m) as -> by congruence.
  assert (v' = v) as ->.
  { assert (v ∈ variant_rows region_obj (vm_pos m) (vm_ref m) (vm_alt m) (variants w'))
      as Hin.
    { apply list_elem_of_filter. split; [done|]. rewrite Hvars. apply elem_of_app. by left. }
    rewrite Hv' in Hin. by apply list_elem_of_singleton in Hin. }
  assert (a' ∈ annotation_rows_with (vcf_pk self) (variant_pk v) (vm_infos m)
                  (variant_annotations w')) as Hin'
    by (rewrite Ha'; apply list_elem_of_here).
  apply list_elem_of_filter in Hin' as [Hmatch' Hin'].
  unfold annotation_matches in Hmatch'.
  apply andb_true_iff in Hmatch' as [Hfv Hmeta].
  apply bool_decide_eq_true in Hmeta.
  assert (2 <= length (annotation_rows (vcf_pk self) (variant_pk v)
                         (variant_annotations w'))) as Htwo.
  { apply (two_in_list _ a a').
    - apply list_elem_of_filter. split; [done|]. rewrite Hanns. apply elem_of_app. by left.
    - apply list_elem_of_filter. by split.
    - intros ->. done. }
  split; [done|]. intros ref nd Hnd Hvariant.
  unfold ClinvarFactory.init_metadata. rewrite vcf_init_metadata_shape, for_each_cons.
  unfold init_node_with. rewrite (bind_ok _ _ _ _ _ (deref_node_ok _ _ _ Hnd)).
  unfold bind. rewrite vcf_contribution_raises; [done|].
  unfold at_most_one_row. rewrite Hvariant. lia.
Qed.

Lemma changed_payload_leaves_two_rows_witness :
  let w := fst (ClinvarFactory.load_variants_for_region (H := demo false)
                  (demo_clinvar "demo.vcf") "1" demo_loaded_regions) in
  let w' := fst (ClinvarFactory.load_variants_for_region (H := demo false)
                   (demo_clinvar "conflict.vcf") "1" w) in
  length (annotation_rows 1 1 (variant_annotations w)) = 1 /\
  2 <= length (annotation_rows 1 1 (variant_annotations w')).
Proof.
  intros w w'. split; [reflexivity|].
  apply (changed_payload_leaves_two_rows (H := demo false) (demo_clinvar "conflict.vcf") "1"
           demo_region (Some (mkVariantModel 10 "A" "T" (infos "Pathogenic")))
           (mkVariantModel 10 "A" "T" (infos "Pathogenic"))
           (demo_variant 1 10) (mkVariantAnnotation 1 1 (infos "Benign")) w).
  - reflexivity.
  - apply list_elem_of_further, list_elem_of_here.
  - reflexivity.
  - apply list_elem_of_here.
  - reflexivity.
  - apply list_elem_of_here.
  - reflexivity.
  - intros E. apply (f_equal (fun j => bool_decide (j = infos "Pathogenic"))) in E.
    vm_compute in E. discriminate.
  - reflexivity.
Defined.
